(** * spawn_vm.py: the MAC-based address discovery of a freshly launched guest

    A shallow embedding of [src/spawn_vm.py]: the MAC generator [gen_mac], the
    command runner [run], the host network resolver [get_if_ip_netmask],
    [cidr_from_ip_mask], the neighbour-cache lookup [arp_lookup_by_mac], the
    probe sweep [light_ping_sweep] and the discovery loop of [main].

    Conventions of the model.
    - Python [str] is [string]: a sequence of 8-bit characters, read as the code
      points 0..255.  The character predicates below ([str.isspace], [\d],
      [str.lower], the line boundaries of [str.splitlines]) are Python's,
      restricted to that range.
    - Python [int] is [Z].  [//] on a positive divisor is [Z.div] (both floor).
    - IPv4 addresses are the integers [ipaddress] keeps in [_ip].
    - Wall-clock time is an integer number of milliseconds.
    - Exceptions are values of [exn]; code that can raise returns [result]. *)

From Stdlib Require Import ZArith List String Ascii Bool Lia.
Import ListNotations.
Open Scope string_scope.
Open Scope Z_scope.

(** ** Characters and strings, as Python treats them *)

Definition code (c : ascii) : Z := Z.of_nat (nat_of_ascii c).

Definition chr (n : Z) : ascii := ascii_of_nat (Z.to_nat n).

Definition in_range (lo hi : Z) (c : ascii) : bool :=
  (lo <=? code c) && (code c <=? hi).

(** [0-9] *)
Definition is_ascii_digit (c : ascii) : bool := in_range 48 57 c.

(** [str.lower] on one character: A-Z, and the upper-case letters of Latin-1
    (U+00C0..U+00DE without the multiplication sign U+00D7). *)
Definition lower_char (c : ascii) : ascii :=
  if in_range 65 90 c then chr (code c + 32)
  else if in_range 192 222 c && negb (code c =? 215) then chr (code c + 32)
  else c.

Fixpoint lower (s : string) : string :=
  match s with
  | EmptyString => EmptyString
  | String c s' => String (lower_char c) (lower s')
  end.

(** [sep.join(parts)] *)
Fixpoint join (sep : string) (parts : list string) : string :=
  match parts with
  | [] => ""
  | [p] => p
  | p :: ps => p ++ sep ++ join sep ps
  end.

(** [s.split(sep)] for a one-character separator: never the empty list. *)
Fixpoint split_on (sep : ascii) (s : string) : list string :=
  match s with
  | EmptyString => [""]
  | String c s' =>
      if Ascii.eqb c sep then "" :: split_on sep s'
      else match split_on sep s' with
           | [] => [String c ""]
           | p :: ps => String c p :: ps
           end
  end.

(** ** Integer formatting and parsing *)

Definition hex_digit (n : Z) : ascii :=
  if n <? 10 then chr (48 + n) else chr (87 + n).

(** The lower-case hexadecimal digits of [n >= 0], most significant first. *)
Fixpoint hex_digits (fuel : nat) (n : Z) (acc : string) : string :=
  match fuel with
  | O => String (hex_digit (n mod 16)) acc
  | S fuel' =>
      if n <? 16 then String (hex_digit n) acc
      else hex_digits fuel' (n / 16) (String (hex_digit (n mod 16)) acc)
  end.

Definition hex (n : Z) : string := hex_digits (Z.to_nat (Z.log2 n)) n "".

(** Left padding with ["0"] up to [width] characters. *)
Definition zfill (width : nat) (s : string) : string :=
  string_of_list_ascii (repeat "0"%char (width - String.length s)) ++ s.

(** [f"{b:02x}"]: lower-case hexadecimal, zero-padded to width 2; the sign of
    a negative number counts in the width and precedes the padding. *)
Definition format_02x (b : Z) : string :=
  if b <? 0 then "-" ++ zfill 1 (hex (- b)) else zfill 2 (hex b).

(** The value of one hexadecimal digit, either case, as [int(_, 16)] reads it. *)
Definition hex_val (c : ascii) : option Z :=
  if is_ascii_digit c then Some (code c - 48)
  else if in_range 97 102 c then Some (code c - 87)
  else if in_range 65 70 c then Some (code c - 55)
  else None.

Fixpoint hex_value_from (acc : Z) (s : string) : option Z :=
  match s with
  | EmptyString => Some acc
  | String c s' =>
      match hex_val c with
      | Some d => hex_value_from (16 * acc + d) s'
      | None => None
      end
  end.

(** [int(s, 16)] on a non-empty string of hexadecimal digits. *)
Definition hex_value (s : string) : option Z :=
  match s with
  | EmptyString => None
  | _ => hex_value_from 0 s
  end.

(** ** The random source

    [random] is used through [random.seed(a)] and [random.randint(a, b)] only.
    The generator is taken through that interface: a state; [seed], which
    leaves a state computed from its argument alone, whatever the state was
    (for a [str], version-2 seeding hashes the text itself, so the result
    does not depend on the process either); and [randint], which returns an
    integer of the closed range and the next state. *)

Class RandomSource := {
  rng_state : Type;
  seed : string -> rng_state -> rng_state;
  randint : Z -> Z -> rng_state -> Z * rng_state;
  seed_resets : forall a s s', seed a s = seed a s';
  randint_range : forall a b s, a <= b -> a <= fst (randint a b s) <= b
}.

(** ** gen_mac (lines 74-81) *)

Definition gen_mac `{RandomSource} (last_octet : option Z) (s : rng_state)
  : string * rng_state :=
  let '(o4, s1) := randint 0x00 0x7f s in
  let '(o5, s2) := randint 0x00 0xff s1 in
  let '(o6, s3) :=
    match last_octet with
    | None => randint 0x00 0xff s2
    | Some v => (Z.land v 0xFF, s2)
    end in
  let mac := [0x52; 0x54; 0x00; o4; o5; o6] in
  (join ":" (map format_02x mac), s3).

(** Lines 201-202 of [main]: [random.seed(name)] followed by [gen_mac()].  The
    state [s0] is whatever the generator held before the seeding. *)
Definition main_mac `{RandomSource} (name : string) (s0 : rng_state)
  : string * rng_state :=
  let s1 := seed name s0 in
  gen_mac None s1.

(** ** Exceptions, results and the world *)

Inductive exn : Type :=
| RuntimeError (msg : string)
| OSError (msg : string)
| AddressValueError (msg : string)
| NetmaskValueError (msg : string)
| ValueError (msg : string).

Inductive result (A : Type) : Type :=
| Ok (a : A)
| Raise (e : exn).

Arguments Ok {A} a.
Arguments Raise {A} e.

(** What the operating system answers when asked to run a command: the
    process ran and exited with a status and its two output streams, or it
    could not be started at all ([subprocess] then raises an [OSError], such
    as [FileNotFoundError] for a missing executable). *)
Inductive proc_outcome : Type :=
| Exited (returncode : Z) (stdout stderr : string)
| NotStarted (msg : string).

(** The host, as the script sees it: the effective user id, what a command
    run at a given time answers, and how long it takes (milliseconds). *)
Record Host : Type := {
  euid : Z;
  exec : Z -> list string -> proc_outcome;
  latency : Z -> list string -> N
}.

Inductive event : Type :=
| Ran (t : Z) (argv : list string)
| Spawned (t : Z) (argv : list string)
| SweepFired (t : Z) (window : list Z)
| Slept (t : Z) (d : Z).

(** The state the script threads: the clock and the log of what it did, most
    recent first. *)
Record World : Type := { clock : Z; log : list event }.

Definition M (A : Type) : Type := World -> result (A * World).

Definition ret {A} (a : A) : M A := fun w => Ok (a, w).

Definition bind {A B} (m : M A) (k : A -> M B) : M B :=
  fun w => match m w with
           | Ok (a, w') => k a w'
           | Raise e => Raise e
           end.

Definition raise {A} (e : exn) : M A := fun _ => Raise e.

Notation "x <- m ;; k" := (bind m (fun x => k))
  (at level 61, m at next level, right associativity).
Notation "m ;;; k" := (bind m (fun _ => k))
  (at level 61, right associativity).

(** [time.time()] *)
Definition time_time : M Z := fun w => Ok (clock w, w).

(** [time.sleep(d)] *)
Definition time_sleep (d : Z) : M unit :=
  fun w => Ok (tt, {| clock := clock w + d; log := Slept (clock w) d :: log w |}).

(** ** More of [str] *)

Definition nl : string := String (chr 10) "".

(** [str.isspace] on one character of the range 0..255. *)
Definition is_space (c : ascii) : bool :=
  in_range 9 13 c || in_range 28 32 c || (code c =? 133) || (code c =? 160).

Fixpoint lstrip (s : string) : string :=
  match s with
  | EmptyString => EmptyString
  | String c s' => if is_space c then lstrip s' else s
  end.

Fixpoint rstrip (s : string) : string :=
  match s with
  | EmptyString => EmptyString
  | String c s' =>
      match rstrip s' with
      | EmptyString => if is_space c then EmptyString else String c EmptyString
      | r => String c r
      end
  end.

(** [s.strip()] *)
Definition strip (s : string) : string := rstrip (lstrip s).

(** The line boundaries of [str.splitlines] below U+0100, [\r] apart. *)
Definition is_linebreak (c : ascii) : bool :=
  in_range 10 12 c || in_range 28 30 c || (code c =? 133).

Fixpoint splitlines_from (cur : string) (s : string) : list string :=
  match s with
  | EmptyString => match cur with EmptyString => [] | _ => [cur] end
  | String c s' =>
      if code c =? 13 then
        match s' with
        | String c' s'' =>
            if code c' =? 10 then cur :: splitlines_from "" s''
            else cur :: splitlines_from "" s'
        | EmptyString => cur :: splitlines_from "" s'
        end
      else if is_linebreak c then cur :: splitlines_from "" s'
      else splitlines_from (cur ++ String c "") s'
  end.

(** [s.splitlines()] *)
Definition splitlines (s : string) : list string := splitlines_from "" s.

(** [x or None] for a string [x] *)
Definition or_None (x : string) : option string :=
  match x with EmptyString => None | _ => Some x end.

(** ** run (lines 41-54)

    Every call site passes a list, so [cmd] is a list and the [shlex.split]
    branch is not modelled.  [text=True]: the streams are already text. *)
Definition run (h : Host) (cmd : list string) (check capture sudo : bool)
  : M string :=
  fun w =>
    let cmd_list :=
      if sudo && negb (euid h =? 0) then "sudo" :: cmd else cmd in
    match exec h (clock w) cmd_list with
    | NotStarted msg => Raise (OSError msg)
    | Exited returncode out err =>
        let stdout := if capture then Some out else None in
        let stderr := if capture then err else "None" in
        let w' := {| clock := clock w + Z.of_N (latency h (clock w) cmd_list);
                     log := Ran (clock w) cmd_list :: log w |} in
        if check && negb (returncode =? 0) then
          Raise (RuntimeError ("CMD failed: " ++ join " " cmd_list ++ nl
                               ++ "STDERR:" ++ nl ++ stderr))
        else
          Ok (strip (match stdout with Some s => s | None => "" end), w')
    end.

(** ** get_if_ip_netmask (lines 83-87) *)
Definition get_if_ip_netmask (h : Host) (ifname : string)
  : M (option string * option string) :=
  ip <- run h ["ipconfig"; "getifaddr"; ifname] false true false ;;
  mask <- run h ["ipconfig"; "getoption"; ifname; "subnet_mask"] false true false ;;
  ret (or_None (strip ip), or_None (strip mask)).

(** ** A backtracking matcher for the fragment of [re] the script uses

    A pattern is a sequence of items: one character of a class, a greedy
    starred class, and the two ends of a named group.  [c+] is [c c*] and
    [c{n}] is [c] repeated.  Alternatives are tried in the order Python's
    backtracking matcher tries them: a star takes as many characters as it
    can and gives them back one at a time. *)

Inductive tok : Type :=
| One (p : ascii -> bool)
| Star (p : ascii -> bool)
| Open (g : string)
| Close (g : string).

Definition marks : Type := list (bool * string * nat).

Fixpoint match_here (pat : list tok) (s : string) (pos : nat) (ms : marks)
  : option marks :=
  match pat with
  | [] => Some ms
  | One p :: pat' =>
      match s with
      | String c s' => if p c then match_here pat' s' (S pos) ms else None
      | EmptyString => None
      end
  | Star p :: pat' =>
      (fix star (s : string) (pos : nat) {struct s} : option marks :=
         match s with
         | String c s' =>
             if p c then
               match star s' (S pos) with
               | Some m => Some m
               | None => match_here pat' s pos ms
               end
             else match_here pat' s pos ms
         | EmptyString => match_here pat' s pos ms
         end) s pos
  | Open g :: pat' => match_here pat' s pos ((true, g, pos) :: ms)
  | Close g :: pat' => match_here pat' s pos ((false, g, pos) :: ms)
  end.

(** The leftmost start at which the pattern matches. *)
Fixpoint search_from (pat : list tok) (s : string) (pos : nat) : option marks :=
  match match_here pat s pos [] with
  | Some m => Some m
  | None =>
      match s with
      | EmptyString => None
      | String _ s' => search_from pat s' (S pos)
      end
  end.

(** A match object: the subject and where the groups start and end. *)
Record Match : Type := { subject : string; spans : marks }.

(** [re.search(pat, s)] *)
Definition re_search (pat : list tok) (s : string) : option Match :=
  match search_from pat s 0 with
  | Some m => Some {| subject := s; spans := m |}
  | None => None
  end.

Fixpoint mark_of (opening : bool) (g : string) (ms : marks) : option nat :=
  match ms with
  | [] => None
  | (o, g', p) :: ms' =>
      if Bool.eqb o opening && String.eqb g' g then Some p
      else mark_of opening g ms'
  end.

(** [m.group(g)] for a group that took part in the match. *)
Definition group (m : Match) (g : string) : string :=
  match mark_of true g (spans m), mark_of false g (spans m) with
  | Some a, Some b => substring a (b - a) (subject m)
  | _, _ => ""
  end.

Definition plus (p : ascii -> bool) : list tok := [One p; Star p].

Definition exactly (n : nat) (p : ascii -> bool) : list tok := repeat (One p) n.

(** A literal character under [re.I]. *)
Definition lit (c : ascii) : ascii -> bool :=
  fun x => Ascii.eqb (lower_char x) (lower_char c).

(** [\d] *)
Definition cls_digit : ascii -> bool := is_ascii_digit.

(** [.] without [re.S] *)
Definition cls_dot : ascii -> bool := fun x => negb (code x =? 10).

(** [[0-9a-f:]] under [re.I] *)
Definition cls_mac : ascii -> bool :=
  fun x => is_ascii_digit x || in_range 97 102 (lower_char x) || (code x =? 58).

(** The pattern of line 103, with [re.I]:
    [\((?P<ip>\d+\.\d+\.\d+\.\d+)\).* at (?P<mac>[0-9a-f:]{17}) ] *)
Definition arp_re : list tok :=
  [One (lit "("); Open "ip"]
  ++ plus cls_digit ++ [One (lit ".")]
  ++ plus cls_digit ++ [One (lit ".")]
  ++ plus cls_digit ++ [One (lit ".")]
  ++ plus cls_digit
  ++ [Close "ip"; One (lit ")"); Star cls_dot;
      One (lit " "); One (lit "a"); One (lit "t"); One (lit " "); Open "mac"]
  ++ exactly 17 cls_mac
  ++ [Close "mac"; One (lit " ")].

(** ** arp_lookup_by_mac (lines 99-106) *)

(** The [for] loop over the lines. *)
Fixpoint arp_scan (lines : list string) (mac_lower : string) : option string :=
  match lines with
  | [] => None
  | line :: rest =>
      match re_search arp_re line with
      | Some m =>
          if String.eqb (lower (group m "mac")) mac_lower
          then Some (group m "ip")
          else arp_scan rest mac_lower
      | None => arp_scan rest mac_lower
      end
  end.

Definition arp_lookup_by_mac (h : Host) (mac_lower : string) : M (option string) :=
  out <- run h ["arp"; "-an"] false true false ;;
  ret (arp_scan (splitlines out) mac_lower).

(** ** The part of the standard [ipaddress] module the script relies on

    The definitions follow CPython's [Lib/ipaddress.py] for IPv4 and for
    [str] arguments. *)

Definition ALL_ONES : Z := 2 ^ 32 - 1.

Definition max_prefixlen : Z := 32.

Fixpoint all_chars (p : ascii -> bool) (s : string) : bool :=
  match s with
  | EmptyString => true
  | String c s' => p c && all_chars p s'
  end.

Fixpoint has_char (c : ascii) (s : string) : bool :=
  match s with
  | EmptyString => false
  | String x s' => Ascii.eqb x c || has_char c s'
  end.

(** [s.isascii()] *)
Definition isascii (s : string) : bool := all_chars (fun c => code c <? 128) s.

(** [s.isdigit()]: below U+0100 the digits are 0-9 and the superscripts
    one, two and three. *)
Definition isdigit (s : string) : bool :=
  match s with
  | EmptyString => false
  | _ => all_chars (fun c => is_ascii_digit c || (code c =? 178)
                             || (code c =? 179) || (code c =? 185)) s
  end.

Fixpoint int10_from (acc : Z) (s : string) : Z :=
  match s with
  | EmptyString => acc
  | String c s' => int10_from (10 * acc + (code c - 48)) s'
  end.

(** [int(s, 10)] on a string of ASCII digits. *)
Definition int10 (s : string) : Z := int10_from 0 s.

Definition str_len (s : string) : Z := Z.of_nat (String.length s).

(** [IPv4Address._parse_octet] *)
Definition parse_octet (octet_str : string) : result Z :=
  match octet_str with
  | EmptyString => Raise (ValueError "Empty octet not permitted")
  | String c0 _ =>
      if negb (isascii octet_str && isdigit octet_str) then
        Raise (ValueError "Only decimal digits permitted")
      else if 3 <? str_len octet_str then
        Raise (ValueError "At most 3 characters permitted")
      else if negb (String.eqb octet_str "0") && Ascii.eqb c0 "0" then
        Raise (ValueError "Leading zeros are not permitted")
      else
        let octet_int := int10 octet_str in
        if 255 <? octet_int then Raise (ValueError "Octet (> 255) not permitted")
        else Ok octet_int
  end.

(** [map(f, xs)] consumed to the end: the first exception wins. *)
Fixpoint map_result {A B} (f : A -> result B) (xs : list A) : result (list B) :=
  match xs with
  | [] => Ok []
  | x :: xs' =>
      match f x with
      | Raise e => Raise e
      | Ok y => match map_result f xs' with
                | Raise e => Raise e
                | Ok ys => Ok (y :: ys)
                end
      end
  end.

(** [int.from_bytes(bs, 'big')] *)
Definition from_bytes_big (bs : list Z) : Z :=
  fold_left (fun acc b => 256 * acc + b) bs 0.

(** [IPv4Address._ip_int_from_string] *)
Definition ip_int_from_string (ip_str : string) : result Z :=
  match ip_str with
  | EmptyString => Raise (AddressValueError "Address cannot be empty")
  | _ =>
      let octets := split_on "." ip_str in
      if negb (Z.of_nat (List.length octets) =? 4) then
        Raise (AddressValueError "Expected 4 octets")
      else
        match map_result parse_octet octets with
        | Ok bs => Ok (from_bytes_big bs)
        | Raise (ValueError msg) => Raise (AddressValueError msg)
        | Raise e => Raise e
        end
  end.

(** [IPv4Address(address)] for a string: the integer it holds. *)
Definition IPv4Address (address : string) : result Z :=
  if has_char "/" address then Raise (AddressValueError "Unexpected '/'")
  else ip_int_from_string address.

(** [int.bit_length] of a non-negative integer. *)
Definition bit_length (n : Z) : Z := if n =? 0 then 0 else Z.log2 n + 1.

(** [_count_righthand_zero_bits] *)
Definition count_righthand_zero_bits (number bits : Z) : Z :=
  if number =? 0 then bits
  else Z.min bits (bit_length (Z.land (Z.lnot number) (number - 1))).

(** [_prefix_from_ip_int] *)
Definition prefix_from_ip_int (ip_int : Z) : result Z :=
  let trailing_zeroes := count_righthand_zero_bits ip_int max_prefixlen in
  let prefixlen := max_prefixlen - trailing_zeroes in
  let leading_ones := Z.shiftr ip_int trailing_zeroes in
  let all_ones := Z.shiftl 1 prefixlen - 1 in
  if negb (leading_ones =? all_ones) then
    Raise (ValueError "Netmask pattern mixes zeroes & ones")
  else Ok prefixlen.

(** [_prefix_from_prefix_string] *)
Definition prefix_from_prefix_string (prefixlen_str : string) : result Z :=
  if negb (isascii prefixlen_str && isdigit prefixlen_str) then
    Raise (NetmaskValueError "is not a valid netmask")
  else
    let prefixlen := int10 prefixlen_str in
    if negb ((0 <=? prefixlen) && (prefixlen <=? max_prefixlen)) then
      Raise (NetmaskValueError "is not a valid netmask")
    else Ok prefixlen.

(** [_prefix_from_ip_string]: a dotted netmask, or else a dotted hostmask. *)
Definition prefix_from_ip_string (ip_str : string) : result Z :=
  match ip_int_from_string ip_str with
  | Raise _ => Raise (NetmaskValueError "is not a valid netmask")
  | Ok ip_int =>
      match prefix_from_ip_int ip_int with
      | Ok p => Ok p
      | Raise _ =>
          let ip_int := Z.lxor ip_int ALL_ONES in
          match prefix_from_ip_int ip_int with
          | Ok p => Ok p
          | Raise _ => Raise (NetmaskValueError "is not a valid netmask")
          end
      end
  end.

(** [_ip_int_from_prefix] *)
Definition ip_int_from_prefix (prefixlen : Z) : Z :=
  Z.lxor ALL_ONES (Z.shiftr ALL_ONES prefixlen).

(** [_make_netmask]: the mask is a string, or absent (then the prefix length
    is the integer 32).  Returns the netmask and the prefix length. *)
Definition make_netmask (arg : option string) : result (Z * Z) :=
  match arg with
  | None => Ok (ip_int_from_prefix max_prefixlen, max_prefixlen)
  | Some arg =>
      match prefix_from_prefix_string arg with
      | Ok p => Ok (ip_int_from_prefix p, p)
      | Raise (NetmaskValueError _) =>
          match prefix_from_ip_string arg with
          | Ok p => Ok (ip_int_from_prefix p, p)
          | Raise e => Raise e
          end
      | Raise e => Raise e
      end
  end.

(** [_split_addr_prefix] on a string *)
Definition split_addr_prefix (address : string) : result (string * option string) :=
  match split_on "/" address with
  | [a] => Ok (a, None)
  | [a; m] => Ok (a, Some m)
  | _ => Raise (AddressValueError "Only one '/' permitted")
  end.

Record IPv4Network : Type := { network_address : Z; prefixlen : Z }.

(** [IPv4Network(address, strict)] on a string *)
Definition IPv4Network_of (address : string) (strict : bool) : result IPv4Network :=
  match split_addr_prefix address with
  | Raise e => Raise e
  | Ok (addr, mask) =>
      match IPv4Address addr with
      | Raise e => Raise e
      | Ok packed =>
          match make_netmask mask with
          | Raise e => Raise e
          | Ok (netmask, plen) =>
              if negb (Z.land packed netmask =? packed) then
                if strict then Raise (ValueError "has host bits set")
                else Ok {| network_address := Z.land packed netmask;
                           prefixlen := plen |}
              else Ok {| network_address := packed; prefixlen := plen |}
          end
      end
  end.

Definition netmask_of (n : IPv4Network) : Z := ip_int_from_prefix (prefixlen n).

Definition hostmask_of (n : IPv4Network) : Z := Z.lxor (netmask_of n) ALL_ONES.

Definition broadcast_address (n : IPv4Network) : Z :=
  Z.lor (network_address n) (hostmask_of n).

(** [list(range(lo, hi))] *)
Definition range (lo hi : Z) : list Z :=
  map (fun i => lo + Z.of_nat i) (seq 0 (Z.to_nat (hi - lo))).

(** [list(network.hosts())]: every address of a /31, the one address of a
    /32, and otherwise the addresses strictly between the network and the
    broadcast address. *)
Definition hosts (n : IPv4Network) : list Z :=
  if prefixlen n =? max_prefixlen - 1 then
    range (network_address n) (broadcast_address n + 1)
  else if prefixlen n =? max_prefixlen then [network_address n]
  else range (network_address n + 1) (broadcast_address n).

(** ** cidr_from_ip_mask (lines 89-97) *)
Definition cidr_from_ip_mask (ip mask : string) : result IPv4Network :=
  match IPv4Network_of (ip ++ "/" ++ mask) false with
  | Ok m => Ok m
  | Raise _ =>
      let parts := split_on "." ip in
      let net := join "." (firstn 3 parts ++ ["0"]) ++ "/24" in
      IPv4Network_of net false
  end.

(** ** light_ping_sweep (lines 108-134) *)

Definition len {A} (l : list A) : Z := Z.of_nat (List.length l).

(** [l.index(x)], with [None] for the [ValueError] of an absent element. *)
Fixpoint index_of (x : Z) (l : list Z) : option Z :=
  match l with
  | [] => None
  | y :: l' =>
      if y =? x then Some 0
      else match index_of x l' with
           | Some i => Some (i + 1)
           | None => None
           end
  end.

(** A slice bound as Python adjusts it: a negative bound counts from the end,
    and the result is clipped to [0, len]. *)
Definition slice_bound (n i : Z) : Z :=
  let i := if i <? 0 then i + n else i in
  if i <? 0 then 0 else if n <? i then n else i.

(** [l[start:stop]] *)
Definition py_slice {A} (l : list A) (start stop : Z) : list A :=
  let a := slice_bound (len l) start in
  let b := slice_bound (len l) stop in
  firstn (Z.to_nat (b - a)) (skipn (Z.to_nat a) l).

(** Lines 115-122: the candidates of one sweep. *)
Definition sweep_candidates (network : IPv4Network) (host : Z) (limit : Z)
  : list Z :=
  let hosts := hosts network in
  let idx :=
    match index_of host hosts with
    | Some i => i
    | None => len hosts / 2
    end in
  let window := Z.max 1 (Z.min (limit / 2) (len hosts / 2)) in
  py_slice hosts (Z.max 0 (idx - window)) (Z.min (len hosts) (idx + window)).

Fixpoint dec_digits (fuel : nat) (n : Z) (acc : string) : string :=
  match fuel with
  | O => String (chr (48 + n mod 10)) acc
  | S fuel' =>
      if n <? 10 then String (chr (48 + n)) acc
      else dec_digits fuel' (n / 10) (String (chr (48 + n mod 10)) acc)
  end.

(** [str(n)] for [n >= 0] *)
Definition dec (n : Z) : string := dec_digits (Z.to_nat (Z.log2 n)) n "".

(** [str(ip)] for an [IPv4Address] *)
Definition ip_to_string (ip : Z) : string :=
  join "." (map dec [Z.shiftr ip 24 mod 256; Z.shiftr ip 16 mod 256;
                     Z.shiftr ip 8 mod 256; ip mod 256]).

(** [subprocess.Popen(argv, ...)]: the process is started and not waited for. *)
Definition popen (h : Host) (argv : list string) : M unit :=
  fun w =>
    match exec h (clock w) argv with
    | NotStarted msg => Raise (OSError msg)
    | Exited _ _ _ =>
        Ok (tt, {| clock := clock w; log := Spawned (clock w) argv :: log w |})
    end.

Fixpoint fire_pings (h : Host) (candidates : list Z) : M unit :=
  match candidates with
  | [] => ret tt
  | ip :: rest =>
      popen h ["ping"; "-c"; "1"; "-W"; "100"; ip_to_string ip] ;;;
      fire_pings h rest
  end.

Definition note (e : event) : M unit :=
  fun w => Ok (tt, {| clock := clock w; log := e :: log w |}).

Definition light_ping_sweep (h : Host) (ifname : string)
  (network : IPv4Network) (limit : Z) : M unit :=
  r <- get_if_ip_netmask h ifname ;;
  match fst r with
  | None => ret tt
  | Some host_ip =>
      match IPv4Address host_ip with
      | Raise e => raise e
      | Ok host =>
          let candidates := sweep_candidates network host limit in
          t <- time_time ;;
          note (SweepFired t candidates) ;;;
          fire_pings h candidates ;;;
          time_sleep 500
      end
  end.

(** ** The discovery part of main (lines 207-233) *)

(** [x] where Python tests it for truth: [None] and the empty string are
    false. *)
Definition truthy (x : option string) : option string :=
  match x with
  | Some EmptyString => None
  | _ => x
  end.

(** The [while] loop of lines 225-233.  One unit of [fuel] is one iteration;
    [None] is a loop cut short by the fuel, which [discover] below never is
    ([discover_returns]). *)
Fixpoint discovery_loop (fuel : nat) (h : Host) (ifname : string)
  (subnet : option IPv4Network) (mac_lower : string)
  (t0 timeout next_sweep : Z) (w : World)
  : option (result (option string * World)) :=
  match fuel with
  | O => None
  | S fuel' =>
      if clock w - t0 <? timeout then
        match arp_lookup_by_mac h mac_lower w with
        | Raise e => Some (Raise e)
        | Ok (ip, w1) =>
            match truthy ip with
            | Some ip => Some (Ok (Some ip, w1))
            | None =>
                let swept :=
                  match subnet with
                  | Some net =>
                      if next_sweep <=? clock w1 then
                        match light_ping_sweep h ifname net 64 w1 with
                        | Raise e => Raise e
                        | Ok (_, w2) => Ok (clock w2 + 5000, w2)
                        end
                      else Ok (next_sweep, w1)
                  | None => Ok (next_sweep, w1)
                  end in
                match swept with
                | Raise e => Some (Raise e)
                | Ok (next_sweep', w2) =>
                    match time_sleep 500 w2 with
                    | Raise e => Some (Raise e)
                    | Ok (_, w3) =>
                        discovery_loop fuel' h ifname subnet mac_lower
                                       t0 timeout next_sweep' w3
                    end
                end
            end
        end
      else Some (Ok (None, w))
  end.

(** Iterations that always suffice (see [discovery_loop_returns]): each one
    sleeps half a second. *)
Definition loop_fuel (timeout : Z) : nat := S (Z.to_nat (timeout / 500 + 1)).

(** Lines 207-233, for a MAC and a timeout in seconds: the host context, then
    the loop; the result is [ip_found]. *)
Definition discover (h : Host) (ifname mac : string) (timeout_s : Z) (w : World)
  : option (result (option string * World)) :=
  match get_if_ip_netmask h ifname w with
  | Raise e => Some (Raise e)
  | Ok ((host_ip, mask), w1) =>
      let subnet :=
        match host_ip, mask with
        | Some ip, Some m =>
            match cidr_from_ip_mask ip m with
            | Ok n => Some n
            | Raise _ => None
            end
        | _, _ => None
        end in
      let mac_lower := lower mac in
      let t0 := clock w1 in
      let timeout := 1000 * timeout_s in
      let next_sweep := clock w1 + 1000 in
      discovery_loop (loop_fuel timeout) h ifname subnet mac_lower
                     t0 timeout next_sweep w1
  end.

(** The times at which a sweep fired, oldest first. *)
Fixpoint sweep_times (l : list event) : list Z :=
  match l with
  | [] => []
  | SweepFired t _ :: l' => sweep_times l' ++ [t]
  | _ :: l' => sweep_times l'
  end.

(** The times at which the neighbour cache was read, oldest first. *)
Fixpoint lookup_times (l : list event) : list Z :=
  match l with
  | [] => []
  | Ran t ("arp" :: _) :: l' => lookup_times l' ++ [t]
  | _ :: l' => lookup_times l'
  end.

(** ** What the statements below are phrased with *)

Definition is_lower_hex (c : ascii) : bool :=
  is_ascii_digit c || in_range 97 102 c.

(** Two lower-case hexadecimal digits. *)
Definition is_octet_text (s : string) : bool :=
  Nat.eqb (String.length s) 2 && all_chars is_lower_hex s.

(** Six two-digit lower-case hexadecimal octets joined by colons. *)
Definition well_formed_mac (s : string) : bool :=
  match split_on ":" s with
  | [a; b; c; d; e; f] => forallb is_octet_text [a; b; c; d; e; f]
  | _ => false
  end.

(** [f"{b:02x}"] is two lower-case hexadecimal digits that read back as [b]. *)
Definition byte_text_ok (b : Z) : bool :=
  match format_02x b with
  | String c1 (String c2 EmptyString) =>
      is_lower_hex c1 && is_lower_hex c2
      && match hex_value (String c1 (String c2 "")) with
         | Some v => v =? b
         | None => false
         end
  | _ => false
  end.

(** The [i]-th octet (from 0) of a MAC string, as a number. *)
Definition mac_octet (i : nat) (s : string) : option Z :=
  match nth_error (split_on ":" s) i with
  | Some o => hex_value o
  | None => None
  end.

(** A small linear congruential generator behind the [random] interface: an
    instance to run the definitions on. *)
Definition lcg_next (s : Z) : Z := (1103515245 * s + 12345) mod 2 ^ 31.

Fixpoint lcg_seed_from (acc : Z) (name : string) : Z :=
  match name with
  | EmptyString => acc
  | String c name' => lcg_seed_from ((31 * acc + code c) mod 2 ^ 31) name'
  end.

Definition lcg_source : RandomSource.
Proof.
  refine {| rng_state := Z;
            seed := fun name _ => lcg_seed_from 7 name;
            randint := fun a b s => (a + s mod (b - a + 1), lcg_next s);
            seed_resets := fun _ _ _ => eq_refl;
            randint_range := _ |}.
  intros a b s Hab. cbn [fst].
  pose proof (Z.mod_pos_bound s (b - a + 1)). lia.
Defined.

(** The two queries of [get_if_ip_netmask] and the one of
    [arp_lookup_by_mac]. *)
Definition ifaddr_cmd (ifname : string) : list string :=
  ["ipconfig"; "getifaddr"; ifname].

Definition mask_cmd (ifname : string) : list string :=
  ["ipconfig"; "getoption"; ifname; "subnet_mask"].

Definition arp_cmd : list string := ["arp"; "-an"].

Definition stdout_of (o : proc_outcome) : string :=
  match o with Exited _ out _ => out | NotStarted _ => "" end.

Definition started (o : proc_outcome) : bool :=
  match o with Exited _ _ _ => true | NotStarted _ => false end.


Definition w0 : World := {| clock := 0; log := [] |}.

(** A host on 10.193.80.64/24 whose neighbour cache always prints [cache]. *)
Definition lab_host (cache : string) : Host := {|
  euid := 501;
  exec := fun _ argv =>
    match argv with
    | ["ipconfig"; "getifaddr"; _] => Exited 0 ("10.193.80.64" ++ nl) ""
    | ["ipconfig"; "getoption"; _; _] => Exited 0 ("255.255.255.0" ++ nl) ""
    | "arp" :: _ => Exited 0 cache ""
    | _ => Exited 0 "" ""
    end;
  latency := fun _ _ => 0%N
|}.



(** The cache line [line] is an entry for the address [ip] whose MAC, as the
    pattern of line 103 reads it, is [mac] once lower-cased. *)
Definition entry_with (mac line ip : string) : Prop :=
  exists m, re_search arp_re line = Some m
            /\ lower (group m "mac") = mac /\ group m "ip" = ip.

(** ... whose MAC equals [target] up to case. *)
Definition entry_matches (target line ip : string) : Prop :=
  entry_with (lower target) line ip.

Definition lower_case_entry : string :=
  "? (10.193.80.105) at 52:54:00:aa:bb:cc on en1 ifscope [ethernet]".

Definition two_entries : string :=
  "? (10.193.80.66) at 52:54:00:a1:b2:01 on en1 ifscope [ethernet]" ++ nl
  ++ lower_case_entry ++ nl.

Definition garbled_cache : string :=
  "arp: unexpected output" ++ nl ++ nl
  ++ "? (10.193.80.1) at (incomplete) on en1 ifscope [ethernet]" ++ nl
  ++ "? (10.193.80) at 52:54:00:aa:bb:cc on en1" ++ nl.

(** The network 10.193.80.0/24 of the lab host, and its [i]-th address. *)
Definition lab_net : IPv4Network :=
  {| network_address := 180441088; prefixlen := 24 |}.

Definition lab_addr (i : Z) : Z := network_address lab_net + i.

(** [l[lo:hi]] for bounds already within [0, len l]. *)
Definition sub_list {A} (l : list A) (lo hi : Z) : list A :=
  firstn (Z.to_nat (hi - lo)) (skipn (Z.to_nat lo) l).

(** The setting of a discovery that cannot succeed: at all times the
    interface has the address [ip] (the integer [host]) and a mask, [ping] can
    be started, and the neighbour cache has no entry with the MAC looked for. *)
Record quiet_host (h : Host) (ifname mac ip mask : string) (host : Z) : Prop := {
  qh_ifaddr : forall t,
    started (exec h t (ifaddr_cmd ifname)) = true
    /\ strip (stdout_of (exec h t (ifaddr_cmd ifname))) = ip;
  qh_mask : forall t,
    started (exec h t (mask_cmd ifname)) = true
    /\ strip (stdout_of (exec h t (mask_cmd ifname))) = mask;
  qh_ip : IPv4Address ip = Ok host;
  qh_mask_present : mask <> "";
  qh_ping : forall t target,
    started (exec h t ["ping"; "-c"; "1"; "-W"; "100"; target]) = true;
  qh_arp : forall t,
    started (exec h t arp_cmd) = true
    /\ arp_scan (splitlines (strip (stdout_of (exec h t arp_cmd)))) (lower mac) = None
}.

(** The command lines of the processes started without waiting, oldest
    first. *)
Fixpoint spawned (l : list event) : list (list string) :=
  match l with
  | [] => []
  | Spawned _ argv :: l' => (spawned l' ++ [argv])%list
  | _ :: l' => spawned l'
  end.


(** The world after [time.sleep(0.5)]. *)
Definition slept (w : World) : World :=
  {| clock := clock w + 500; log := Slept (clock w) 500 :: log w |}.

(** A host whose interface has no address: [ipconfig] exits with status 1 and
    prints nothing. *)
Definition host_without_address : Host := {|
  euid := 501;
  exec := fun _ argv =>
    match argv with
    | "ipconfig" :: _ => Exited 1 "" ""
    | _ => Exited 0 "" ""
    end;
  latency := fun _ _ => 0%N
|}.

(** What a successful [match_here] has done, read off its result: the text
    each item took, the position it took it at, and the marks left. *)
Inductive tokens_match : list tok -> string -> nat -> marks -> marks -> Prop :=
| TM_nil pos ms : tokens_match [] "" pos ms ms
| TM_one p pat c cs pos ms m :
    p c = true ->
    tokens_match pat cs (S pos) ms m ->
    tokens_match (One p :: pat) (String c cs) pos ms m
| TM_star p pat pre cs pos ms m :
    all_chars p pre = true ->
    tokens_match pat cs (pos + String.length pre) ms m ->
    tokens_match (Star p :: pat) (pre ++ cs) pos ms m
| TM_open g pat cs pos ms m :
    tokens_match pat cs pos ((true, g, pos) :: ms) m ->
    tokens_match (Open g :: pat) cs pos ms m
| TM_close g pat cs pos ms m :
    tokens_match pat cs pos ((false, g, pos) :: ms) m ->
    tokens_match (Close g :: pat) cs pos ms m.

(** Four non-empty runs of decimal digits joined by dots. *)
Definition dotted_digits (s : string) : bool :=
  match split_on "." s with
  | [a; b; c; d] =>
      forallb (fun x => negb (String.eqb x "") && all_chars is_ascii_digit x)
              [a; b; c; d]
  | _ => false
  end.

(** [str(b)] of a byte reads back as [b] through [_parse_octet]. *)
Definition dec_byte_ok (b : Z) : bool :=
  match parse_octet (dec b) with
  | Ok v => v =? b
  | Raise _ => false
  end.

(** The command line of one probe. *)
Definition ping_argv (ip : Z) : list string :=
  ["ping"; "-c"; "1"; "-W"; "100"; ip_to_string ip].

(** ** The files of a guest: ensure_paths, make_overlay, launch_vm
    (lines 56-72 and 136-184) *)

(** [str(n)] for an integer. *)
Definition str_int (n : Z) : string :=
  if n <? 0 then "-" ++ dec (- n) else dec n.

(** The file system as far as the script looks at it: whether a path exists
    at a given time, whether creating a directory (with its parents, an
    existing one being fine) fails and with what message, the text read from
    a file ([None] when reading raises), and [pathlib]'s [/] on the text of
    two paths.  [FileNotFoundError] is an [OSError]. *)
Record Files : Type := {
  path_exists : Z -> string -> bool;
  mkdir_fails : Z -> string -> option string;
  read_text : Z -> string -> option string;
  path_join : string -> string -> string
}.

(** [p.mkdir(parents=True, exist_ok=True)] *)
Definition mkdir_p (fs : Files) (p : string) : M unit :=
  fun w =>
    match mkdir_fails fs (clock w) p with
    | Some msg => Raise (OSError msg)
    | None => Ok (tt, w)
    end.

Record VmPaths : Type := {
  p_base : string; p_overlays : string; p_logs : string;
  p_ov : string; p_pidf : string; p_logf : string
}.

(** Lines 56-65 *)
Definition ensure_paths (fs : Files) (base_dir name : string) : M VmPaths :=
  let base := path_join fs base_dir "base" in
  let overlays := path_join fs base_dir "overlays" in
  let logs := path_join fs base_dir "logs" in
  mkdir_p fs base ;;;
  mkdir_p fs overlays ;;;
  mkdir_p fs logs ;;;
  let ov := path_join fs overlays (name ++ ".qcow2") in
  let pidf := path_join fs overlays (name ++ ".pid") in
  let logf := path_join fs (path_join fs base_dir "logs") (name ++ ".log") in
  ret {| p_base := base; p_overlays := overlays; p_logs := logs;
         p_ov := ov; p_pidf := pidf; p_logf := logf |}.

Definition qemu_img_cmd (gold overlay : string) : list string :=
  ["qemu-img"; "create"; "-f"; "qcow2"; "-F"; "qcow2"; "-b"; gold; overlay].

(** Lines 67-72 *)
Definition make_overlay (fs : Files) (h : Host) (gold overlay : string) : M unit :=
  fun w =>
    if negb (path_exists fs (clock w) gold) then
      Raise (OSError ("Base image not found: " ++ gold))
    else if path_exists fs (clock w) overlay then Ok (tt, w)
    else (run h (qemu_img_cmd gold overlay) true true false ;;; ret tt) w.

Definition codefd : string := "/opt/homebrew/share/qemu/edk2-aarch64-code.fd".

(** Lines 156-170 *)
Definition qemu_cmd (ifname : string) (cpus ram_mb : Z) (mac : string)
  (varsfd ov pidf logf : string) : list string :=
  ["qemu-system-aarch64";
   "-accel"; "hvf";
   "-machine"; "virt,highmem=on";
   "-cpu"; "host";
   "-smp"; str_int cpus;
   "-m"; str_int ram_mb;
   "-bios"; codefd;
   "-drive"; "if=pflash,format=raw,unit=1,file=" ++ varsfd;
   "-drive"; "if=virtio,file=" ++ ov ++ ",format=qcow2,cache=none,discard=unmap";
   "-nic"; "vmnet-bridged,ifname=" ++ ifname ++ ",model=virtio-net-pci,mac=" ++ mac;
   "-nographic";
   "-daemonize"; "-pidfile"; pidf;
   "-D"; logf].

(** The [while] loop of lines 177-180: [None] when the fuel runs out. *)
Fixpoint wait_for_pidfile (fuel : nat) (fs : Files) (pidf : string) (t0 : Z)
  (w : World) : option World :=
  match fuel with
  | O => None
  | S fuel' =>
      if clock w - t0 <? 5000 then
        if path_exists fs (clock w) pidf then Some w
        else
          match time_sleep 100 w with
          | Ok (_, w') => wait_for_pidfile fuel' fs pidf t0 w'
          | Raise _ => None
          end
      else Some w
  end.

(** Lines 136-184.  [timeout_boot] is accepted and not used. *)
Definition launch_vm (fs : Files) (h : Host) (base_dir name ifname : string)
  (cpus ram_mb : Z) (mac : string) (timeout_boot : Z) (w : World)
  : option (result (string * string * string * World)) :=
  match ensure_paths fs base_dir name w with
  | Raise e => Some (Raise e)
  | Ok (p, w1) =>
      let gold := path_join fs (p_base p) "gold.qcow2" in
      let varsfd := path_join fs (p_base p) "vars.fd" in
      if negb (path_exists fs (clock w1) codefd) then
        Some (Raise (OSError ("UEFI code ROM not found at " ++ codefd)))
      else if negb (path_exists fs (clock w1) varsfd) then
        Some (Raise (OSError ("vars.fd not found: " ++ varsfd
                              ++ " (create with: qemu-img create -f raw "
                              ++ varsfd ++ " 64M)")))
      else
        match make_overlay fs h gold (p_ov p) w1 with
        | Raise e => Some (Raise e)
        | Ok (_, w2) =>
            let cmd := qemu_cmd ifname cpus ram_mb mac varsfd
                                (p_ov p) (p_pidf p) (p_logf p) in
            match run h cmd true true true w2 with
            | Raise e => Some (Raise e)
            | Ok (_, w3) =>
                match wait_for_pidfile 51 fs (p_pidf p) (clock w3) w3 with
                | None => None
                | Some w4 =>
                    if negb (path_exists fs (clock w4) (p_pidf p)) then
                      Some (Raise (RuntimeError
                                     "QEMU did not create a PID file; check logs."))
                    else Some (Ok (p_ov p, p_pidf p, p_logf p, w4))
                end
            end
        end
  end.

(** The command [run] really starts: behind [sudo] unless already root. *)
Definition as_run (h : Host) (sudo : bool) (cmd : list string) : list string :=
  if sudo && negb (euid h =? 0) then "sudo" :: cmd else cmd.

(** The commands run in a log, oldest first. *)
Fixpoint commands (l : list event) : list (list string) :=
  match l with
  | [] => []
  | Ran _ argv :: l' => (commands l' ++ [argv])%list
  | _ :: l' => commands l'
  end.

(** A file system where everything needed is in place, and the PID file
    appears 250 ms after time 0. *)
Definition lab_files : Files := {|
  path_exists := fun t p =>
    if String.eqb p "/vm/overlays/sC.pid" then 250 <=? t
    else negb (String.eqb p "/vm/overlays/sC.qcow2");
  mkdir_fails := fun _ _ => None;
  read_text := fun t p =>
    if String.eqb p "/vm/overlays/sC.pid" && (250 <=? t) then Some ("4242" ++ nl)
    else None;
  path_join := fun a b => a ++ "/" ++ b
|}.

(** ** main (lines 196-253) *)

(** The dictionary [main] prints, without its two constant entries. *)
Record Info : Type := {
  info_vm : string;
  info_overlay : string;
  info_pidfile : string;
  info_logfile : string;
  info_pid : option string;
  info_mac : string;
  info_ip : option string;
  info_api_url : option string
}.

(** Lines 196-253 for a base directory already expanded: the MAC of the name,
    the launch, the discovery, the PID read back, and the dictionary.  The one
    [--timeout] goes both to [launch_vm] and to the discovery. *)
Definition main_info `{RandomSource} (fs : Files) (h : Host)
  (base_dir name ifname : string) (cpus ram_mb timeout : Z) (s0 : rng_state)
  (w : World) : option (result (Info * World)) :=
  let mac := fst (main_mac name s0) in
  match launch_vm fs h base_dir name ifname cpus ram_mb mac timeout w with
  | None => None
  | Some (Raise e) => Some (Raise e)
  | Some (Ok (overlay, pidf, logf, w1)) =>
      match discover h ifname mac timeout w1 with
      | None => None
      | Some (Raise e) => Some (Raise e)
      | Some (Ok (ip_found, w2)) =>
          let pid := option_map strip (read_text fs (clock w2) pidf) in
          Some (Ok ({| info_vm := name;
                       info_overlay := overlay;
                       info_pidfile := pidf;
                       info_logfile := logf;
                       info_pid := pid;
                       info_mac := lower mac;
                       info_ip := ip_found;
                       info_api_url :=
                         match truthy ip_found with
                         | Some ip => Some ("http://" ++ ip ++ ":3080")
                         | None => None
                         end |}, w2))
      end
  end.

(** A neighbour cache with the guest named sC in it. *)
Definition guest_cache : string :=
  "? (10.193.80.107) at 52:54:0:77:e4:4d on en1 ifscope [ethernet]" ++ nl
  ++ "? (10.193.80.108) at 52:54:00:77:e4:4d on en1 ifscope [ethernet]" ++ nl.

(** * spawn_overlays.py *)

Module Overlays.

(** What the script can raise besides the exceptions of the modelled part of
    [ipaddress]: the [ValueError] of [ip_address] and of [ip_network] for a
    text that is neither IPv4 nor IPv6, and [IndexError]. *)
Inductive error : Type :=
| Lib (e : exn)
| NotAnAddress (text : string)
| NotANetwork (text : string)
| IndexError.

Inductive outcome (A : Type) : Type :=
| Done (a : A)
| Fail (e : error).

Arguments Done {A} a.
Arguments Fail {A} e.

(** IPv6 is not modelled; what [ipaddress] does on that side is taken as
    given: the addresses, their parsing, [+], [str], and the hosts of the
    network a text denotes ([list(IPv6Network(text, strict=False).hosts())]). *)
Record IPv6Lib : Type := {
  v6 : Type;
  IPv6Address : string -> result v6;
  v6_add : v6 -> Z -> result v6;
  v6_str : v6 -> string;
  IPv6Network_hosts : string -> result (list v6)
}.

Inductive address (L : IPv6Lib) : Type :=
| V4 (n : Z)
| V6 (a : v6 L).

Arguments V4 {L} n.
Arguments V6 {L} a.

Definition lift {A} (r : result A) : outcome A :=
  match r with Ok a => Done a | Raise e => Fail (Lib e) end.

(** [ipaddress.ip_address(text)] *)
Definition ip_address (L : IPv6Lib) (text : string) : outcome (address L) :=
  match IPv4Address text with
  | Ok n => Done (V4 n)
  | Raise (AddressValueError _) | Raise (NetmaskValueError _) =>
      match IPv6Address L text with
      | Ok a => Done (V6 a)
      | Raise (AddressValueError _) | Raise (NetmaskValueError _) =>
          Fail (NotAnAddress text)
      | Raise e => Fail (Lib e)
      end
  | Raise e => Fail (Lib e)
  end.

(** [IPv4Address(n)] for an integer: [_check_int_address]. *)
Definition check_int_address (n : Z) : result Z :=
  if n <? 0 then
    Raise (AddressValueError (str_int n ++ " (< 0) is not permitted as an IPv4 address"))
  else if ALL_ONES <? n then
    Raise (AddressValueError
             (str_int n ++ " (>= 2**32) is not permitted as an IPv4 address"))
  else Ok n.

(** [a + k] *)
Definition addr_add {L : IPv6Lib} (a : address L) (k : Z) : outcome (address L) :=
  match a with
  | V4 n => match check_int_address (n + k) with
            | Ok m => Done (V4 m)
            | Raise e => Fail (Lib e)
            end
  | V6 x => match v6_add L x k with
            | Ok y => Done (V6 y)
            | Raise e => Fail (Lib e)
            end
  end.

(** [str(a)] *)
Definition addr_str {L : IPv6Lib} (a : address L) : string :=
  match a with
  | V4 n => ip_to_string n
  | V6 x => v6_str L x
  end.

(** Lines 101-103 *)
Definition ip_next (L : IPv6Lib) (ip_str : string) (step : Z) : outcome string :=
  match ip_address L ip_str with
  | Fail e => Fail e
  | Done ip =>
      match addr_add ip step with
      | Fail e => Fail e
      | Done next => Done (addr_str next)
      end
  end.

(** [list(ipaddress.ip_network(text, strict=False).hosts())] *)
Definition network_hosts (L : IPv6Lib) (text : string) : outcome (list (address L)) :=
  match IPv4Network_of text false with
  | Ok net => Done (map V4 (hosts net))
  | Raise (AddressValueError _) | Raise (NetmaskValueError _) =>
      match IPv6Network_hosts L text with
      | Ok hs => Done (map V6 hs)
      | Raise (AddressValueError _) | Raise (NetmaskValueError _) =>
          Fail (NotANetwork text)
      | Raise e => Fail (Lib e)
      end
  | Raise e => Fail (Lib e)
  end.

(** Lines 105-108 *)
Definition guess_gateway (L : IPv6Lib) (start_ip : string) (prefix_len : Z)
  : outcome string :=
  match network_hosts L (start_ip ++ "/" ++ str_int prefix_len) with
  | Fail e => Fail e
  | Done [] => Fail IndexError
  | Done (first :: _) => Done (addr_str first)
  end.

(** Line 211: the DNS list of the command line, cleaned up. *)
Definition dns_list (dns : string) : string :=
  join "," (map strip
                (filter (fun d => negb (String.eqb (strip d) ""))
                        (split_on "," dns))).

(** One line of [instances.csv]. *)
Record Row : Type := {
  NAME : string; IP : string; DISK : string; SEED_ISO : string; PID : string
}.

(** The loop of lines 219-301.  The paths of the disk and of the seed image
    of guest [i] are [pathlib]'s, and what steps 1 to 4 do for a guest (create
    the disk, write and pack the seed, launch QEMU) is taken as given: they
    fail, or give the PID to record. *)
Fixpoint vm_loop (L : IPv6Lib) (disk_of iso_of : Z -> string)
  (steps : Z -> string -> string -> outcome string)
  (name_prefix : string) (indices : list Z) (curr_ip : address L)
  (rows : list Row) : outcome (list Row) :=
  match indices with
  | [] => Done rows
  | i :: rest =>
      let name := name_prefix ++ "-" ++ str_int i in
      let ip := addr_str curr_ip in
      match addr_add curr_ip 1 with
      | Fail e => Fail e
      | Done next =>
          match steps i name ip with
          | Fail e => Fail e
          | Done pid_value =>
              vm_loop L disk_of iso_of steps name_prefix rest next
                      (rows ++ [{| NAME := name; IP := ip; DISK := disk_of i;
                                   SEED_ISO := iso_of i; PID := pid_value |}])%list
          end
      end
  end.

(** Lines 210-301: the rows [main] collects, once the files it needs were
    found.  The steps of a guest are given the gateway and the DNS list. *)
Definition main_rows (L : IPv6Lib) (disk_of iso_of : Z -> string)
  (steps : string -> string -> Z -> string -> string -> outcome string)
  (gateway_arg : string) (start_ip : string) (prefix_len : Z) (dns : string)
  (name_prefix : string) (count : Z) : outcome (list Row) :=
  match (match gateway_arg with
         | EmptyString => guess_gateway L start_ip prefix_len
         | _ => Done gateway_arg
         end) with
  | Fail e => Fail e
  | Done gateway =>
      match ip_address L start_ip with
      | Fail e => Fail e
      | Done curr_ip =>
          vm_loop L disk_of iso_of (steps gateway (dns_list dns)) name_prefix
                  (range 1 (count + 1)) curr_ip []
      end
  end.

(** An IPv6 side that accepts nothing. *)
Definition no_ipv6 : IPv6Lib := {|
  v6 := Empty_set;
  IPv6Address := fun _ => Raise (AddressValueError "not an IPv6 address");
  v6_add := fun a _ => match a with end;
  v6_str := fun a => match a with end;
  IPv6Network_hosts := fun _ => Raise (AddressValueError "not an IPv6 network")
|}.

End Overlays.

(** * Properties *)

(** ** gen_mac *)

Lemma range_In (lo hi x : Z) : lo <= x < hi -> In x (range lo hi).
Proof.
  intros Hx. unfold range. apply in_map_iff.
  exists (Z.to_nat (x - lo)). split; [lia|].
  apply in_seq. lia.
Qed.

Lemma In_range (lo hi x : Z) : In x (range lo hi) -> lo <= x < hi.
Proof.
  unfold range. intros Hin. apply in_map_iff in Hin.
  destruct Hin as [i [Hi Hin]]. apply in_seq in Hin. lia.
Qed.

(** ... which holds of each of the 256 bytes. *)
Lemma byte_text_all : forallb byte_text_ok (range 0 256) = true.
Proof. vm_compute. reflexivity. Qed.

Lemma format_02x_byte (b : Z) :
  0 <= b <= 255 ->
  exists c1 c2,
    format_02x b = String c1 (String c2 "")
    /\ is_lower_hex c1 = true /\ is_lower_hex c2 = true
    /\ hex_value (String c1 (String c2 "")) = Some b.
Proof.
  intros Hb.
  pose proof (proj1 (forallb_forall _ _) byte_text_all b) as Hok.
  specialize (Hok (range_In 0 256 b ltac:(lia))).
  unfold byte_text_ok in Hok.
  destruct (format_02x b) as [|c1 [|c2 [|c3 r]]]; try discriminate.
  apply andb_prop in Hok. destruct Hok as [Hok Hv].
  apply andb_prop in Hok. destruct Hok as [H1 H2].
  exists c1, c2. repeat split; auto.
  destruct (hex_value (String c1 (String c2 ""))) as [v|]; try discriminate.
  apply Z.eqb_eq in Hv. now subst.
Qed.

Lemma lower_hex_not_colon (c : ascii) :
  is_lower_hex c = true -> Ascii.eqb c ":" = false.
Proof.
  intros Hc. destruct (Ascii.eqb_spec c ":") as [->|]; [|reflexivity].
  vm_compute in Hc. discriminate.
Qed.

Lemma land_0xFF (v : Z) : Z.land v 0xFF = v mod 256.
Proof. exact (Z.land_ones v 8 ltac:(lia)). Qed.

Lemma land_byte (v : Z) : 0 <= Z.land v 0xFF <= 255.
Proof.
  rewrite land_0xFF. pose proof (Z.mod_pos_bound v 256). lia.
Qed.

(** The three drawn octets of a generated address, and their ranges. *)
Lemma gen_mac_octets `{RandomSource} (last_octet : option Z) (s : rng_state) :
  exists o4 o5 o6,
    fst (gen_mac last_octet s)
    = join ":" (map format_02x [0x52; 0x54; 0x00; o4; o5; o6])
    /\ 0 <= o4 <= 0x7f /\ 0 <= o5 <= 0xff /\ 0 <= o6 <= 0xff
    /\ (forall v, last_octet = Some v -> o6 = Z.land v 0xFF).
Proof.
  unfold gen_mac.
  pose proof (randint_range 0x00 0x7f s ltac:(lia)) as H4.
  destruct (randint 0x00 0x7f s) as [o4 s1].
  pose proof (randint_range 0x00 0xff s1 ltac:(lia)) as H5.
  destruct (randint 0x00 0xff s1) as [o5 s2].
  destruct last_octet as [v|].
  - exists o4, o5, (Z.land v 0xFF). cbn [fst] in *.
    repeat split; try lia; try apply land_byte.
    intros v' Hv'. now inversion Hv'.
  - pose proof (randint_range 0x00 0xff s2 ltac:(lia)) as H6.
    destruct (randint 0x00 0xff s2) as [o6 s3].
    exists o4, o5, o6. cbn [fst] in *.
    repeat split; try lia. intros v' Hv'. discriminate.
Qed.

Ltac mac_chars :=
  repeat match goal with
         | H : is_lower_hex ?c = true |- _ =>
             pose proof (lower_hex_not_colon c H); revert H
         end;
  intros.

(** C6: for every state of the random source and every optional last octet,
    [gen_mac] returns six two-digit lower-case hexadecimal octets joined by
    colons, the first three being 52:54:00; a last octet supplied in 0..255 is
    the final octet of the result. *)
Theorem gen_mac_format `{RandomSource} (last_octet : option Z) (s : rng_state) :
  let mac := fst (gen_mac last_octet s) in
  well_formed_mac mac = true
  /\ String.length mac = 17%nat
  /\ substring 0 8 mac = "52:54:00"
  /\ (forall v, last_octet = Some v -> 0 <= v <= 255 -> mac_octet 5 mac = Some v).
Proof.
  destruct (gen_mac_octets last_octet s)
    as (o4 & o5 & o6 & Hmac & H4 & H5 & H6 & Hlast).
  cbv zeta. rewrite Hmac.
  destruct (format_02x_byte o4 ltac:(lia)) as (a1 & a2 & Ha & Ha1 & Ha2 & Hav).
  destruct (format_02x_byte o5 ltac:(lia)) as (b1 & b2 & Hb & Hb1 & Hb2 & Hbv).
  destruct (format_02x_byte o6 ltac:(lia)) as (c1 & c2 & Hc & Hc1 & Hc2 & Hcv).
  mac_chars.
  cbn [map]. rewrite Ha, Hb, Hc.
  change (format_02x 0x52) with "52".
  change (format_02x 0x54) with "54".
  change (format_02x 0x00) with "00".
  split; [|split; [|split]].
  - unfold well_formed_mac. cbn.
    repeat match goal with E : Ascii.eqb _ _ = false |- _ => rewrite E; clear E end.
    cbn. rewrite Ha1, Ha2, Hb1, Hb2, Hc1, Hc2. reflexivity.
  - reflexivity.
  - reflexivity.
  - intros v Hv Hrange. unfold mac_octet. cbn.
    repeat match goal with E : Ascii.eqb _ _ = false |- _ => rewrite E; clear E end.
    cbn [nth_error]. rewrite Hcv. f_equal.
    rewrite (Hlast v Hv), land_0xFF. apply Z.mod_small. lia.
Qed.

Lemma gen_mac_format_witness :
  let mac := fst (@gen_mac lcg_source (Some 0xAB) 1) in
  mac = "52:54:00:01:a6:ab"
  /\ well_formed_mac mac = true /\ mac_octet 5 mac = Some 0xAB.
Proof.
  pose proof (@gen_mac_format lcg_source (Some 0xAB) 1) as H.
  cbv zeta in *. destruct H as (Hwf & _ & _ & Hlast).
  split; [vm_compute; reflexivity|].
  split; [exact Hwf|]. apply Hlast; [reflexivity|lia].
Defined.

(** C7: seeding with the guest's name makes the address a function of the
    name alone: two runs that start from any two states of the random source
    produce the same address (and leave the source in the same state), the
    one [gen_mac] gives on the seeded state. *)
Theorem main_mac_deterministic `{RandomSource} (name : string) (s0 s0' : rng_state) :
  main_mac name s0 = main_mac name s0'
  /\ fst (main_mac name s0) = fst (main_mac name s0')
  /\ main_mac name s0 = gen_mac None (seed name s0').
Proof.
  unfold main_mac. cbv zeta.
  rewrite (seed_resets name s0 s0'). repeat split.
Qed.

Lemma main_mac_deterministic_witness :
  fst (@main_mac lcg_source "sC" 0) = fst (@main_mac lcg_source "sC" 12345)
  /\ fst (@main_mac lcg_source "sC" 0) = "52:54:00:77:e4:4d".
Proof.
  destruct (@main_mac_deterministic lcg_source "sC" 0 12345) as (_ & E & _).
  split; [exact E|]. vm_compute. reflexivity.
Defined.

(** C10: the fourth octet of a generated address is at most 0x7f: its top
    bit is never set, so one of the 24 bits of the three drawn octets is
    fixed. *)
Theorem gen_mac_fourth_octet `{RandomSource} (last_octet : option Z) (s : rng_state) :
  exists o4,
    mac_octet 3 (fst (gen_mac last_octet s)) = Some o4
    /\ 0 <= o4 <= 0x7f /\ Z.testbit o4 7 = false.
Proof.
  destruct (gen_mac_octets last_octet s)
    as (o4 & o5 & o6 & Hmac & H4 & H5 & H6 & _).
  exists o4. split; [|split; [exact H4|]]; cycle 1.
  { destruct (Z.eq_dec o4 0) as [->|Hnz]; [reflexivity|].
    apply Z.bits_above_log2; [lia|]. apply Z.log2_lt_pow2; lia. }
  rewrite Hmac.
  destruct (format_02x_byte o4 ltac:(lia)) as (a1 & a2 & Ha & Ha1 & Ha2 & Hav).
  destruct (format_02x_byte o5 ltac:(lia)) as (b1 & b2 & Hb & Hb1 & Hb2 & Hbv).
  destruct (format_02x_byte o6 ltac:(lia)) as (c1 & c2 & Hc & Hc1 & Hc2 & Hcv).
  mac_chars.
  cbn [map]. rewrite Ha, Hb, Hc.
  change (format_02x 0x52) with "52".
  change (format_02x 0x54) with "54".
  change (format_02x 0x00) with "00".
  unfold mac_octet. cbn.
  repeat match goal with E : Ascii.eqb _ _ = false |- _ => rewrite E; clear E end.
  cbn [nth_error]. exact Hav.
Qed.

Lemma gen_mac_fourth_octet_witness :
  exists o4,
    mac_octet 3 (fst (@gen_mac lcg_source None 1)) = Some o4 /\ 0 <= o4 <= 0x7f.
Proof.
  destruct (@gen_mac_fourth_octet lcg_source None 1) as (o4 & E & Hr & _).
  exists o4. split; [exact E|exact Hr].
Defined.

(** ** run and get_if_ip_netmask *)

Lemma rstrip_idem (s : string) : rstrip (rstrip s) = rstrip s.
Proof.
  induction s as [|c s IH]; [reflexivity|].
  cbn [rstrip]. destruct (rstrip s) as [|c' r] eqn:E.
  - destruct (is_space c) eqn:Hc; [reflexivity|].
    cbn [rstrip]. now rewrite Hc.
  - cbn [rstrip] in *. rewrite IH. reflexivity.
Qed.

Lemma rstrip_head (c : ascii) (s : string) :
  is_space c = false -> exists r, rstrip (String c s) = String c r.
Proof.
  intros Hc. cbn [rstrip]. destruct (rstrip s) as [|c' r].
  - rewrite Hc. now exists "".
  - now exists (String c' r).
Qed.

Lemma lstrip_head (s : string) :
  lstrip s = "" \/ exists c r, lstrip s = String c r /\ is_space c = false.
Proof.
  induction s as [|c s IH]; [now left|].
  cbn [lstrip]. destruct (is_space c) eqn:Hc; [exact IH|].
  right. now exists c, s.
Qed.

(** [str.strip] is idempotent: stripping what [run] already stripped changes
    nothing. *)
Lemma strip_idem (s : string) : strip (strip s) = strip s.
Proof.
  unfold strip. destruct (lstrip_head s) as [E | (c & r & E & Hc)].
  - rewrite E. reflexivity.
  - rewrite E. destruct (rstrip_head c r Hc) as [r' Er].
    rewrite Er. cbn [lstrip]. rewrite Hc. rewrite <- Er. apply rstrip_idem.
Qed.

(** [run] with [check=False] on a command that starts: the stripped standard
    output, whatever the exit status; the clock advances by the latency. *)
Lemma run_unchecked (h : Host) (cmd : list string) (w : World) rc out err :
  exec h (clock w) cmd = Exited rc out err ->
  run h cmd false true false w
  = Ok (strip out, {| clock := clock w + Z.of_N (latency h (clock w) cmd);
                      log := Ran (clock w) cmd :: log w |}).
Proof.
  intros E. unfold run. cbn [andb]. rewrite E. reflexivity.
Qed.

Lemma run_not_started (h : Host) (cmd : list string) (w : World) msg :
  exec h (clock w) cmd = NotStarted msg ->
  run h cmd false true false w = Raise (OSError msg).
Proof.
  intros E. unfold run. cbn [andb]. rewrite E. reflexivity.
Qed.

Lemma or_None_empty (x : string) : or_None x = None <-> x = "".
Proof. destruct x; cbn; split; congruence. Qed.




(** ** arp_lookup_by_mac *)

Lemma lower_char_idem (c : ascii) : lower_char (lower_char c) = lower_char c.
Proof.
  destruct c as [[] [] [] [] [] [] [] []]; vm_compute; reflexivity.
Qed.

Lemma lower_idem (s : string) : lower (lower s) = lower s.
Proof.
  induction s as [|c s IH]; cbn; [reflexivity|].
  now rewrite lower_char_idem, IH.
Qed.

(** What the loop over the lines returns: the address of the first line that
    is an entry with the MAC looked for; [None] when no line is. *)
Lemma arp_scan_first (lines : list string) (mac_lower : string) :
  match arp_scan lines mac_lower with
  | Some ip =>
      exists before line after,
        lines = (before ++ line :: after)%list
        /\ entry_with mac_lower line ip
        /\ (forall l ip', In l before -> ~ entry_with mac_lower l ip')
  | None => forall l ip', In l lines -> ~ entry_with mac_lower l ip'
  end.
Proof.
  induction lines as [|line rest IH]; cbn [arp_scan].
  - intros l ip' [].
  - assert (Hskip :
        (forall ip', ~ entry_with mac_lower line ip') ->
        match arp_scan rest mac_lower with
        | Some ip =>
            exists before line0 after,
              line :: rest = (before ++ line0 :: after)%list
              /\ entry_with mac_lower line0 ip
              /\ (forall l ip', In l before -> ~ entry_with mac_lower l ip')
        | None => forall l ip', In l (line :: rest) -> ~ entry_with mac_lower l ip'
        end).
    { intros Hno. destruct (arp_scan rest mac_lower) as [ip|].
      - destruct IH as (before & line0 & after & -> & Hm & Hb).
        exists (line :: before), line0, after. split; [reflexivity|].
        split; [exact Hm|]. intros l ip' [<-|Hin]; [apply Hno|now apply Hb].
      - intros l ip' [<-|Hin]; [apply Hno|now apply IH]. }
    destruct (re_search arp_re line) as [m|] eqn:Em.
    + destruct (String.eqb_spec (lower (group m "mac")) mac_lower) as [Heq|Hne].
      * exists [], line, rest. split; [reflexivity|].
        split; [now exists m|]. intros l ip' [].
      * apply Hskip. intros ip' (m' & Em' & Hmac & _).
        rewrite Em in Em'. inversion Em'; subst m'. contradiction.
    + apply Hskip. intros ip' (m' & Em' & _). rewrite Em in Em'. discriminate.
Qed.

Lemma arp_lookup_runs (h : Host) (mac_lower : string) (w : World) :
  started (exec h (clock w) arp_cmd) = true ->
  arp_lookup_by_mac h mac_lower w
  = Ok (arp_scan (splitlines (strip (stdout_of (exec h (clock w) arp_cmd)))) mac_lower,
        {| clock := clock w + Z.of_N (latency h (clock w) arp_cmd);
           log := Ran (clock w) arp_cmd :: log w |}).
Proof.
  unfold arp_cmd. intros S.
  destruct (exec h (clock w) ["arp"; "-an"]) as [rc out err|] eqn:E; [|discriminate].
  unfold arp_lookup_by_mac, bind. rewrite (run_unchecked h _ w rc out err E).
  reflexivity.
Qed.

(** C1, as the code has it: called the way [main] calls it, on the
    lower-cased target, the lookup returns the address of the first cache line
    whose MAC equals the target up to case, and [None] when no line does. *)
Theorem arp_lookup_first_match (h : Host) (target : string) (w : World) :
  started (exec h (clock w) arp_cmd) = true ->
  exists r w',
    arp_lookup_by_mac h (lower target) w = Ok (r, w')
    /\ let lines := splitlines (strip (stdout_of (exec h (clock w) arp_cmd))) in
       match r with
       | Some ip =>
           exists before line after,
             lines = (before ++ line :: after)%list
             /\ entry_matches target line ip
             /\ (forall l ip', In l before -> ~ entry_matches target l ip')
       | None => forall l ip', In l lines -> ~ entry_matches target l ip'
       end.
Proof.
  intros S. rewrite (arp_lookup_runs h (lower target) w S).
  do 2 eexists. split; [reflexivity|]. cbv zeta.
  unfold entry_matches. apply arp_scan_first.
Qed.

Lemma arp_lookup_first_match_witness :
  exists w',
    arp_lookup_by_mac (lab_host two_entries) (lower "52:54:00:AA:BB:CC") w0
    = Ok (Some "10.193.80.105", w').
Proof.
  destruct (arp_lookup_first_match (lab_host two_entries) "52:54:00:AA:BB:CC" w0
              eq_refl) as (r & w' & E & _).
  exists w'. rewrite E. vm_compute in E. now inversion E.
Defined.

(** C1 as stated fails: given the upper-case target itself, the lookup misses
    the entry written in lower case, although the two MACs are equal up to
    case. *)
Lemma arp_lookup_upper_case_target :
  entry_matches "52:54:00:AA:BB:CC" lower_case_entry "10.193.80.105"
  /\ exists w',
       arp_lookup_by_mac (lab_host lower_case_entry) "52:54:00:AA:BB:CC" w0
       = Ok (None, w').
Proof.
  split.
  - eexists. split; [vm_compute; reflexivity|]. split; vm_compute; reflexivity.
  - eexists. vm_compute. reflexivity.
Qed.

Lemma arp_scan_skips (before after : list string) (line mac_lower : string) :
  re_search arp_re line = None ->
  arp_scan (before ++ line :: after)%list mac_lower
  = arp_scan (before ++ after)%list mac_lower.
Proof.
  intros Hno. induction before as [|l before IH]; cbn [app arp_scan].
  - now rewrite Hno.
  - now rewrite IH.
Qed.

(** C8: on every output text the lookup returns, without raising; a line that
    is not a cache entry changes nothing; and when no line is an entry with
    the MAC looked for (no line at all, for one) the result is [None]. *)
Theorem arp_lookup_total (h : Host) (mac_lower : string) (w : World) :
  started (exec h (clock w) arp_cmd) = true ->
  let lines := splitlines (strip (stdout_of (exec h (clock w) arp_cmd))) in
  (exists w', arp_lookup_by_mac h mac_lower w = Ok (arp_scan lines mac_lower, w'))
  /\ (forall before line after,
         re_search arp_re line = None ->
         arp_scan (before ++ line :: after)%list mac_lower
         = arp_scan (before ++ after)%list mac_lower)
  /\ ((forall l ip, In l lines -> ~ entry_with mac_lower l ip) ->
      arp_scan lines mac_lower = None)
  /\ (lines = [] -> arp_scan lines mac_lower = None).
Proof.
  intros S lines. split; [|split; [|split]].
  - rewrite (arp_lookup_runs h mac_lower w S). eexists. reflexivity.
  - intros before line after Hno. now apply arp_scan_skips.
  - intros Hnone. pose proof (arp_scan_first lines mac_lower) as Hspec.
    destruct (arp_scan lines mac_lower) as [ip|]; [|reflexivity].
    destruct Hspec as (before & line & after & Hl & Hm & _).
    exfalso. apply (Hnone line ip); [|exact Hm].
    rewrite Hl. apply in_or_app. right. now left.
  - intros ->. reflexivity.
Qed.

Lemma arp_lookup_total_witness :
  (exists w', arp_lookup_by_mac (lab_host garbled_cache) "52:54:00:aa:bb:cc" w0
              = Ok (None, w'))
  /\ (exists w', arp_lookup_by_mac (lab_host "") "52:54:00:aa:bb:cc" w0
                 = Ok (None, w')).
Proof.
  split.
  - destruct (arp_lookup_total (lab_host garbled_cache) "52:54:00:aa:bb:cc" w0
                eq_refl) as ((w' & E) & _).
    exists w'. rewrite E. vm_compute. reflexivity.
  - destruct (arp_lookup_total (lab_host "") "52:54:00:aa:bb:cc" w0
                eq_refl) as ((w' & E) & _ & _ & Hempty).
    exists w'. rewrite E, (Hempty eq_refl). reflexivity.
Defined.

(** ** The window of light_ping_sweep *)

Lemma index_of_bounds (x : Z) (l : list Z) (i : Z) :
  index_of x l = Some i -> 0 <= i < len l.
Proof.
  unfold len. revert i. induction l as [|y l IH]; cbn [index_of]; intros i.
  - discriminate.
  - destruct (y =? x).
    + intros E. inversion E. cbn [List.length]. lia.
    + destruct (index_of x l) as [j|]; [|discriminate].
      intros E. inversion E. specialize (IH j eq_refl).
      cbn [List.length]. lia.
Qed.

Lemma index_of_absent (x : Z) (l : list Z) :
  ~ In x l -> index_of x l = None.
Proof.
  induction l as [|y l IH]; cbn [index_of In]; intros Hn; [reflexivity|].
  destruct (Z.eqb_spec y x) as [->|_]; [exfalso; apply Hn; now left|].
  rewrite IH; [reflexivity|]. intros Hin. apply Hn. now right.
Qed.



(** Within [0, len l] a slice takes its bounds as they are: nothing is
    counted from the end. *)
Lemma py_slice_in_bounds {A} (l : list A) (lo hi : Z) :
  0 <= lo <= len l -> 0 <= hi <= len l -> py_slice l lo hi = sub_list l lo hi.
Proof.
  intros Hlo Hhi.
  assert (Hb : forall i, 0 <= i <= len l -> slice_bound (len l) i = i).
  { intros i Hi. unfold slice_bound.
    destruct (Z.ltb_spec i 0); [lia|].
    destruct (Z.ltb_spec i 0); [lia|].
    destruct (Z.ltb_spec (len l) i); [lia|]. reflexivity. }
  unfold py_slice, sub_list. now rewrite !Hb.
Qed.

Lemma len_nonneg {A} (l : list A) : 0 <= len l.
Proof. unfold len. lia. Qed.

(** The window as lines 117-122 compute it, with its index and half-width. *)
Lemma sweep_candidates_shape (network : IPv4Network) (host limit : Z) :
  let hs := hosts network in
  exists idx window,
    idx = match index_of host hs with Some i => i | None => len hs / 2 end
    /\ window = Z.max 1 (Z.min (limit / 2) (len hs / 2))
    /\ 0 <= idx <= len hs
    /\ 0 <= Z.max 0 (idx - window) <= len hs
    /\ 0 <= Z.min (len hs) (idx + window) <= len hs
    /\ sweep_candidates network host limit
       = sub_list hs (Z.max 0 (idx - window)) (Z.min (len hs) (idx + window)).
Proof.
  cbv zeta. unfold sweep_candidates.
  set (hs := hosts network).
  set (idx := match index_of host hs with Some i => i | None => len hs / 2 end).
  set (window := Z.max 1 (Z.min (limit / 2) (len hs / 2))).
  pose proof (len_nonneg hs) as Hn.
  assert (Hidx : 0 <= idx <= len hs).
  { unfold idx. destruct (index_of host hs) as [i|] eqn:E.
    - apply index_of_bounds in E. lia.
    - split; [apply Z.div_pos; lia|]. apply Z.div_le_upper_bound; lia. }
  assert (Hw : 1 <= window) by (unfold window; lia).
  exists idx, window. repeat split; try lia.
  apply py_slice_in_bounds; lia.
Qed.



(** C9: a host address that is not among the hosts of the subnet puts the
    window around the middle index of the host list. *)
Theorem sweep_centers_on_midpoint (network : IPv4Network) (host limit : Z) :
  ~ In host (hosts network) ->
  let hs := hosts network in
  let mid := len hs / 2 in
  let window := Z.max 1 (Z.min (limit / 2) (len hs / 2)) in
  sweep_candidates network host limit
  = py_slice hs (Z.max 0 (mid - window)) (Z.min (len hs) (mid + window))
  /\ sweep_candidates network host limit
     = sub_list hs (Z.max 0 (mid - window)) (Z.min (len hs) (mid + window)).
Proof.
  intros Habs. cbv zeta.
  destruct (sweep_candidates_shape network host limit)
    as (idx & window & Hidx & Hwin & Hi & Hlo & Hhi & Hc).
  rewrite (index_of_absent _ _ Habs) in Hidx. subst idx window.
  split; [|exact Hc].
  unfold sweep_candidates. now rewrite (index_of_absent _ _ Habs).
Qed.

Lemma lab_hosts : hosts lab_net = range (lab_addr 1) (lab_addr 255).
Proof. vm_compute. reflexivity. Qed.

Lemma sweep_centers_on_midpoint_witness :
  ~ In 3232235781 (hosts lab_net)
  /\ sweep_candidates lab_net 3232235781 64 = range (lab_addr 96) (lab_addr 160).
Proof.
  assert (Habs : ~ In 3232235781 (hosts lab_net)).
  { rewrite lab_hosts. intros Hin. apply In_range in Hin.
    unfold lab_addr, lab_net in Hin. cbn in Hin. lia. }
  split; [exact Habs|].
  destruct (sweep_centers_on_midpoint lab_net 3232235781 64 Habs) as [E _].
  rewrite E. vm_compute. reflexivity.
Defined.

(** ** cidr_from_ip_mask *)

Lemma split_on_nonempty (sep : ascii) (s : string) : split_on sep s <> [].
Proof.
  destruct s as [|c s]; cbn [split_on]; [discriminate|].
  destruct (Ascii.eqb c sep); [discriminate|].
  destruct (split_on sep s); discriminate.
Qed.

Lemma split_on_no_sep (sep : ascii) (s : string) :
  has_char sep s = false -> split_on sep s = [s].
Proof.
  induction s as [|c s IH]; cbn [has_char split_on]; [reflexivity|].
  intros Hn. apply orb_false_elim in Hn. destruct Hn as [Hc Hs].
  rewrite Hc, (IH Hs). reflexivity.
Qed.

Lemma split_on_app (sep : ascii) (a b : string) :
  has_char sep a = false ->
  split_on sep (a ++ String sep b) = a :: split_on sep b.
Proof.
  induction a as [|c a IH]; cbn [has_char split_on append].
  - intros _. now rewrite Ascii.eqb_refl.
  - intros Hn. apply orb_false_elim in Hn. destruct Hn as [Hc Ha].
    rewrite Hc, (IH Ha). reflexivity.
Qed.

Lemma split_on_with_sep (sep : ascii) (s : string) :
  has_char sep s = true -> (2 <= List.length (split_on sep s))%nat.
Proof.
  induction s as [|c s IH]; cbn [has_char split_on]; [discriminate|].
  destruct (Ascii.eqb c sep); cbn [orb].
  - intros _. pose proof (split_on_nonempty sep s).
    destruct (split_on sep s); [contradiction|cbn; lia].
  - intros Hs. specialize (IH Hs).
    destruct (split_on sep s); cbn in *; lia.
Qed.

Lemma has_char_app (c : ascii) (a b : string) :
  has_char c (a ++ b) = has_char c a || has_char c b.
Proof.
  induction a as [|x a IH]; cbn [has_char append]; [reflexivity|].
  now rewrite IH, orb_assoc.
Qed.

Lemma digits_have_no (c : ascii) (s : string) :
  is_ascii_digit c = false ->
  all_chars is_ascii_digit s = true -> has_char c s = false.
Proof.
  intros Hc. induction s as [|x s IH]; cbn [all_chars has_char]; [reflexivity|].
  intros Hall. apply andb_prop in Hall. destruct Hall as [Hx Hs].
  rewrite (IH Hs), orb_false_r.
  destruct (Ascii.eqb_spec x c) as [->|]; [congruence|reflexivity].
Qed.

Lemma ascii_isdigit_digits (s : string) :
  isascii s && isdigit s = true -> all_chars is_ascii_digit s = true.
Proof.
  intros H. apply andb_prop in H. destruct H as [Ha Hd].
  unfold isascii in Ha. unfold isdigit in Hd.
  assert (Hd' : all_chars (fun c => is_ascii_digit c || (code c =? 178)
                                    || (code c =? 179) || (code c =? 185)) s = true).
  { destruct s; [reflexivity|exact Hd]. }
  clear Hd. induction s as [|c s IH]; cbn [all_chars] in *; [reflexivity|].
  apply andb_prop in Ha. destruct Ha as [Hc Ha].
  apply andb_prop in Hd'. destruct Hd' as [Hc' Hd'].
  rewrite (IH Ha Hd'), andb_true_r.
  apply Z.ltb_lt in Hc.
  destruct (is_ascii_digit c); [reflexivity|]. cbn [orb] in Hc'.
  apply orb_prop in Hc'. destruct Hc' as [Hc'|Hc'].
  - apply orb_prop in Hc'. destruct Hc' as [Hc'|Hc']; apply Z.eqb_eq in Hc'; lia.
  - apply Z.eqb_eq in Hc'. lia.
Qed.

Lemma int10_from_nonneg (s : string) (acc : Z) :
  all_chars is_ascii_digit s = true -> 0 <= acc -> 0 <= int10_from acc s.
Proof.
  revert acc. induction s as [|c s IH]; cbn [all_chars int10_from]; intros acc Hall Hacc.
  - exact Hacc.
  - apply andb_prop in Hall. destruct Hall as [Hc Hs]. apply IH; [exact Hs|].
    unfold is_ascii_digit, in_range in Hc. apply andb_prop in Hc. lia.
Qed.

(** An accepted octet: a non-empty string of ASCII digits, worth 0..255. *)
Lemma parse_octet_ok (o : string) (v : Z) :
  parse_octet o = Ok v ->
  all_chars is_ascii_digit o = true /\ o <> "" /\ 0 <= v <= 255.
Proof.
  unfold parse_octet. destruct o as [|c0 o']; [discriminate|].
  destruct (isascii (String c0 o') && isdigit (String c0 o')) eqn:Hd;
    cbn [negb]; [|discriminate].
  destruct (3 <? str_len (String c0 o')); [discriminate|].
  destruct (negb (String.eqb (String c0 o') "0") && Ascii.eqb c0 "0"); [discriminate|].
  destruct (Z.ltb_spec 255 (int10 (String c0 o'))) as [|Hle]; [discriminate|].
  intros E. inversion E. subst v.
  pose proof (ascii_isdigit_digits _ Hd) as Hall.
  split; [exact Hall|]. split; [discriminate|].
  split; [|exact Hle]. unfold int10. apply int10_from_nonneg; [exact Hall|lia].
Qed.

(** An accepted address: no slash, four accepted octets, most significant
    first. *)
Lemma IPv4Address_inv (ip : string) (host : Z) :
  IPv4Address ip = Ok host ->
  has_char "/" ip = false
  /\ exists o1 o2 o3 o4 a b c d,
       split_on "." ip = [o1; o2; o3; o4]
       /\ parse_octet o1 = Ok a /\ parse_octet o2 = Ok b
       /\ parse_octet o3 = Ok c /\ parse_octet o4 = Ok d
       /\ host = 256 * (256 * (256 * a + b) + c) + d.
Proof.
  unfold IPv4Address. destruct (has_char "/" ip); [discriminate|].
  intros E. split; [reflexivity|].
  unfold ip_int_from_string in E. destruct ip as [|c0 ip']; [discriminate|].
  destruct (Z.eqb_spec (Z.of_nat (List.length (split_on "." (String c0 ip')))) 4)
    as [Hlen|]; cbn [negb] in E; [|discriminate].
  destruct (split_on "." (String c0 ip')) as [|o1 [|o2 [|o3 [|o4 [|o5 r]]]]];
    cbn [List.length] in Hlen; try lia.
  cbn [map_result] in E.
  destruct (parse_octet o1) as [a|[]] eqn:E1; try discriminate.
  destruct (parse_octet o2) as [b|[]] eqn:E2; try discriminate.
  destruct (parse_octet o3) as [c|[]] eqn:E3; try discriminate.
  destruct (parse_octet o4) as [d|[]] eqn:E4; try discriminate.
  exists o1, o2, o3, o4, a, b, c, d. repeat split; try assumption.
  injection E as E. subst host. unfold from_bytes_big. cbn [fold_left]. lia.
Qed.

Lemma land_net24 (k : Z) :
  0 <= k < 2 ^ 24 -> Z.land (256 * k) (ip_int_from_prefix 24) = 256 * k.
Proof.
  intros Hk.
  change (ip_int_from_prefix 24) with (Z.shiftl (Z.ones 24) 8).
  replace (256 * k) with (Z.shiftl k 8)
    by (rewrite Z.shiftl_mul_pow2 by lia; change (2 ^ 8) with 256; lia).
  rewrite <- Z.shiftl_land, Z.land_ones by lia.
  now rewrite Z.mod_small.
Qed.

(** What [IPv4Network(..., strict=False)] makes of an accepted address and an
    accepted mask, whether host bits are set or not. *)
Lemma IPv4Network_of_parts (addr : string) (mask : option string)
  (packed netmask plen : Z) (text : string) :
  split_addr_prefix text = Ok (addr, mask) ->
  IPv4Address addr = Ok packed ->
  make_netmask mask = Ok (netmask, plen) ->
  IPv4Network_of text false
  = Ok {| network_address := Z.land packed netmask; prefixlen := plen |}.
Proof.
  intros Hs Ha Hm. unfold IPv4Network_of. rewrite Hs, Ha, Hm.
  destruct (Z.eqb_spec (Z.land packed netmask) packed) as [E|_]; cbn [negb].
  - now rewrite E.
  - reflexivity.
Qed.

Lemma make_netmask_prefix (mask : option string) (netmask plen : Z) :
  make_netmask mask = Ok (netmask, plen) -> netmask = ip_int_from_prefix plen.
Proof.
  unfold make_netmask. destruct mask as [arg|].
  - destruct (prefix_from_prefix_string arg) as [p|[]].
    + intros E. now inversion E.
    + discriminate.
    + discriminate.
    + discriminate.
    + destruct (prefix_from_ip_string arg) as [p|e]; [|discriminate].
      intros E. now inversion E.
    + discriminate.
  - intros E. now inversion E.
Qed.

Lemma split_addr_prefix_pair (ip mask : string) :
  has_char "/" ip = false ->
  split_addr_prefix (ip ++ "/" ++ mask)
  = if has_char "/" mask then Raise (AddressValueError "Only one '/' permitted")
    else Ok (ip, Some mask).
Proof.
  intros Hip. unfold split_addr_prefix.
  change (ip ++ "/" ++ mask) with (ip ++ String "/" mask).
  rewrite (split_on_app "/" ip mask Hip).
  destruct (has_char "/" mask) eqn:Hm.
  - pose proof (split_on_with_sep "/" mask Hm) as Hlen.
    destruct (split_on "/" mask) as [|m1 [|m2 r]]; cbn in Hlen; try lia.
    reflexivity.
  - now rewrite (split_on_no_sep "/" mask Hm).
Qed.

(** The fallback of lines 95-97 on an accepted address. *)
Lemma cidr_fallback (ip : string) (host : Z) :
  IPv4Address ip = Ok host ->
  IPv4Network_of (join "." (firstn 3 (split_on "." ip) ++ ["0"]) ++ "/24") false
  = Ok {| network_address := 256 * (host / 256); prefixlen := 24 |}.
Proof.
  intros Hip. destruct (IPv4Address_inv ip host Hip)
    as (_ & o1 & o2 & o3 & o4 & a & b & c & d & Hsplit & E1 & E2 & E3 & E4 & Hhost).
  destruct (parse_octet_ok o1 a E1) as (D1 & N1 & B1).
  destruct (parse_octet_ok o2 b E2) as (D2 & N2 & B2).
  destruct (parse_octet_ok o3 c E3) as (D3 & N3 & B3).
  destruct (parse_octet_ok o4 d E4) as (_ & _ & B4).
  rewrite Hsplit. cbn [firstn app join].
  set (a3 := o1 ++ "." ++ o2 ++ "." ++ o3 ++ "." ++ "0").
  assert (Hdot : forall o, all_chars is_ascii_digit o = true -> has_char "." o = false)
    by (intros o; now apply digits_have_no).
  assert (Hsl : forall o, all_chars is_ascii_digit o = true -> has_char "/" o = false)
    by (intros o; now apply digits_have_no).
  assert (Hnoslash : has_char "/" a3 = false).
  { unfold a3. rewrite !has_char_app, (Hsl o1 D1), (Hsl o2 D2), (Hsl o3 D3).
    reflexivity. }
  assert (Hoct : split_on "." a3 = [o1; o2; o3; "0"]).
  { assert (Ea : a3 = o1 ++ String "." (o2 ++ String "." (o3 ++ String "." "0")))
      by reflexivity.
    rewrite Ea.
    rewrite (split_on_app "." o1 _ (Hdot o1 D1)).
    rewrite (split_on_app "." o2 _ (Hdot o2 D2)).
    rewrite (split_on_app "." o3 _ (Hdot o3 D3)).
    reflexivity. }
  assert (Haddr : IPv4Address a3 = Ok (256 * (256 * (256 * a + b) + c))).
  { unfold IPv4Address. rewrite Hnoslash. unfold ip_int_from_string.
    rewrite Hoct.
    change (negb (Z.of_nat (List.length [o1; o2; o3; "0"]) =? 4)) with false.
    cbn [map_result].
    rewrite E1, E2, E3. change (parse_octet "0") with (Ok 0).
    destruct a3 as [|x a3'] eqn:Ea3.
    - exfalso. destruct o1; [now apply N1|discriminate].
    - f_equal. unfold from_bytes_big. cbn [fold_left]. lia. }
  assert (Hsp : split_addr_prefix (a3 ++ "/24") = Ok (a3, Some "24")).
  { change (a3 ++ "/24") with (a3 ++ "/" ++ "24").
    now rewrite (split_addr_prefix_pair a3 "24" Hnoslash). }
  rewrite (IPv4Network_of_parts a3 (Some "24") _ (ip_int_from_prefix 24) 24 _
             Hsp Haddr eq_refl).
  rewrite land_net24 by (change (2 ^ 24) with 16777216; lia).
  f_equal. f_equal. subst host.
  replace (256 * (256 * (256 * a + b) + c) + d)
    with (d + (256 * (256 * a + b) + c) * 256) by lia.
  rewrite Z.div_add by lia. rewrite (Z.div_small d 256) by lia. lia.
Qed.

(** C4: on an accepted host address, a mask that parses gives the network of
    the address under that mask: the address and-ed with the netmask, with
    the mask's prefix length; a mask that does not parse gives the /24 of the
    first three octets. *)
Theorem cidr_from_ip_mask_spec (ip mask : string) (host : Z) :
  IPv4Address ip = Ok host ->
  (forall netmask plen,
      has_char "/" mask = false ->
      make_netmask (Some mask) = Ok (netmask, plen) ->
      cidr_from_ip_mask ip mask
      = Ok {| network_address := Z.land host netmask; prefixlen := plen |}
      /\ netmask = ip_int_from_prefix plen)
  /\ (forall m, IPv4Network_of (ip ++ "/" ++ mask) false = Ok m ->
                cidr_from_ip_mask ip mask = Ok m
                /\ network_address m = Z.land host (netmask_of m))
  /\ ((has_char "/" mask = true \/ exists e, make_netmask (Some mask) = Raise e) ->
      cidr_from_ip_mask ip mask
      = Ok {| network_address := 256 * (host / 256); prefixlen := 24 |}).
Proof.
  intros Hip. destruct (IPv4Address_inv ip host Hip) as (Hnoslash & _).
  pose proof (split_addr_prefix_pair ip mask Hnoslash) as Hsp.
  split; [|split].
  - intros netmask plen Hm Hmask. rewrite Hm in Hsp.
    unfold cidr_from_ip_mask.
    rewrite (IPv4Network_of_parts ip (Some mask) host netmask plen _ Hsp Hip Hmask).
    split; [reflexivity|]. exact (make_netmask_prefix _ _ _ Hmask).
  - intros m Hm. unfold cidr_from_ip_mask. rewrite Hm. split; [reflexivity|].
    destruct (has_char "/" mask) eqn:Hs.
    + unfold IPv4Network_of in Hm. rewrite Hsp in Hm. discriminate.
    + destruct (make_netmask (Some mask)) as [[netmask plen]|e] eqn:Hmask.
      * rewrite (IPv4Network_of_parts ip (Some mask) host netmask plen _ Hsp Hip Hmask)
          in Hm.
        inversion Hm. unfold netmask_of. cbn [network_address prefixlen].
        now rewrite <- (make_netmask_prefix _ _ _ Hmask).
      * unfold IPv4Network_of in Hm. rewrite Hsp, Hip, Hmask in Hm. discriminate.
  - intros Hbad. unfold cidr_from_ip_mask.
    assert (Hraise : exists e, IPv4Network_of (ip ++ "/" ++ mask) false = Raise e).
    { unfold IPv4Network_of. rewrite Hsp. destruct Hbad as [Hs|[e He]].
      - rewrite Hs. eexists. reflexivity.
      - destruct (has_char "/" mask); [eexists; reflexivity|].
        rewrite Hip, He. eexists. reflexivity. }
    destruct Hraise as [e He]. rewrite He. now apply cidr_fallback.
Qed.

Lemma cidr_from_ip_mask_spec_witness :
  cidr_from_ip_mask "10.193.80.64" "255.255.0.0"
  = Ok {| network_address := 180420608; prefixlen := 16 |}
  /\ cidr_from_ip_mask "10.193.80.64" "255.0.255.0" = Ok lab_net
  /\ cidr_from_ip_mask "10.193.80.64" "24/8" = Ok lab_net.
Proof.
  pose proof (cidr_from_ip_mask_spec "10.193.80.64" "255.255.0.0" 180441152 eq_refl)
    as (Hgood & _ & _).
  pose proof (cidr_from_ip_mask_spec "10.193.80.64" "255.0.255.0" 180441152 eq_refl)
    as (_ & _ & Hbad).
  pose proof (cidr_from_ip_mask_spec "10.193.80.64" "24/8" 180441152 eq_refl)
    as (_ & _ & Hslash).
  split; [|split].
  - destruct (Hgood (ip_int_from_prefix 16) 16 eq_refl eq_refl) as [E _].
    rewrite E. reflexivity.
  - rewrite Hbad; [reflexivity|]. right. eexists. vm_compute. reflexivity.
  - rewrite Hslash; [reflexivity|]. left. reflexivity.
Defined.

(** ** The discovery loop *)

Lemma get_if_ip_netmask_runs (h : Host) (ifname : string) (w : World) :
  let t1 := clock w + Z.of_N (latency h (clock w) (ifaddr_cmd ifname)) in
  started (exec h (clock w) (ifaddr_cmd ifname)) = true ->
  started (exec h t1 (mask_cmd ifname)) = true ->
  get_if_ip_netmask h ifname w
  = Ok ((or_None (strip (stdout_of (exec h (clock w) (ifaddr_cmd ifname)))),
         or_None (strip (stdout_of (exec h t1 (mask_cmd ifname))))),
        {| clock := t1 + Z.of_N (latency h t1 (mask_cmd ifname));
           log := Ran t1 (mask_cmd ifname)
                  :: Ran (clock w) (ifaddr_cmd ifname) :: log w |}).
Proof.
  cbv zeta. unfold ifaddr_cmd, mask_cmd. intros S1 S2.
  destruct (exec h (clock w) ["ipconfig"; "getifaddr"; ifname])
    as [rc1 out1 err1|] eqn:E1; [|discriminate].
  destruct (exec h (clock w + Z.of_N (latency h (clock w) ["ipconfig"; "getifaddr"; ifname]))
              ["ipconfig"; "getoption"; ifname; "subnet_mask"])
    as [rc2 out2 err2|] eqn:E2; [|discriminate].
  unfold get_if_ip_netmask, bind.
  rewrite (run_unchecked h _ w rc1 out1 err1 E1).
  erewrite run_unchecked by (cbn [clock]; exact E2).
  unfold ret. rewrite !strip_idem. reflexivity.
Qed.

Lemma or_None_present (x : string) : x <> "" -> or_None x = Some x.
Proof. destruct x; [contradiction|reflexivity]. Qed.

Lemma IPv4Address_nonempty (ip : string) (host : Z) :
  IPv4Address ip = Ok host -> ip <> "".
Proof. intros E ->. discriminate. Qed.

(** On an accepted address [cidr_from_ip_mask] returns a network whatever the
    mask is. *)
Lemma cidr_from_ip_mask_total (ip mask : string) (host : Z) :
  IPv4Address ip = Ok host -> exists net, cidr_from_ip_mask ip mask = Ok net.
Proof.
  intros Hip. unfold cidr_from_ip_mask.
  destruct (IPv4Network_of (ip ++ "/" ++ mask) false) as [m|e].
  - now exists m.
  - rewrite (cidr_fallback ip host Hip). eexists. reflexivity.
Qed.

(** The clock never runs backwards. *)
Lemma run_clock (h : Host) (cmd : list string) (check capture sudo : bool)
  (w w' : World) (x : string) :
  run h cmd check capture sudo w = Ok (x, w') -> clock w <= clock w'.
Proof.
  unfold run.
  destruct (exec h (clock w) _) as [rc out err|msg]; [|discriminate].
  destruct (check && negb (rc =? 0)); [discriminate|].
  intros E. inversion E. cbn [clock]. lia.
Qed.

Lemma get_if_ip_netmask_clock (h : Host) (ifname : string) (w w' : World) r :
  get_if_ip_netmask h ifname w = Ok (r, w') -> clock w <= clock w'.
Proof.
  unfold get_if_ip_netmask, bind, ret.
  destruct (run h _ false true false w) as [[x1 w1]|] eqn:E1; [|discriminate].
  destruct (run h _ false true false w1) as [[x2 w2]|] eqn:E2; [|discriminate].
  intros E. inversion E. subst w'.
  apply run_clock in E1. apply run_clock in E2. lia.
Qed.

Lemma arp_lookup_clock (h : Host) (mac_lower : string) (w w' : World) r :
  arp_lookup_by_mac h mac_lower w = Ok (r, w') -> clock w <= clock w'.
Proof.
  unfold arp_lookup_by_mac, bind, ret.
  destruct (run h _ false true false w) as [[x1 w1]|] eqn:E1; [|discriminate].
  intros E. inversion E. subst w'. now apply run_clock in E1.
Qed.

Lemma fire_pings_clock (h : Host) (candidates : list Z) (w w' : World) :
  fire_pings h candidates w = Ok (tt, w') -> clock w' = clock w.
Proof.
  revert w. induction candidates as [|c cs IH]; intros w; cbn [fire_pings].
  - unfold ret. intros E. now inversion E.
  - unfold bind, popen. destruct (exec h (clock w) _); [|discriminate].
    intros E. now rewrite (IH _ E).
Qed.

Lemma light_ping_sweep_clock (h : Host) (ifname : string) (net : IPv4Network)
  (limit : Z) (w w' : World) :
  light_ping_sweep h ifname net limit w = Ok (tt, w') -> clock w <= clock w'.
Proof.
  unfold light_ping_sweep, bind.
  destruct (get_if_ip_netmask h ifname w) as [[r w1]|] eqn:E1; [|discriminate].
  apply get_if_ip_netmask_clock in E1.
  destruct (fst r) as [host_ip|].
  - destruct (IPv4Address host_ip) as [host|]; [|discriminate].
    unfold time_time, note.
    destruct (fire_pings h _ _) as [[[] w2]|] eqn:E2; [|discriminate].
    apply fire_pings_clock in E2. cbn [clock] in E2.
    unfold time_sleep. intros E. inversion E. cbn [clock]. lia.
  - unfold ret. intros E. inversion E. now subst.
Qed.

(** The loop returns: [S fuel] iterations are enough once the budget left is
    at most [fuel] half seconds. *)
Lemma discovery_loop_returns (h : Host) (ifname : string)
  (subnet : option IPv4Network) (mac_lower : string) (t0 timeout : Z)
  (fuel : nat) (ns : Z) (w : World) :
  timeout - (clock w - t0) <= 500 * Z.of_nat fuel ->
  discovery_loop (S fuel) h ifname subnet mac_lower t0 timeout ns w <> None.
Proof.
  revert ns w. induction fuel as [|fuel IH]; intros ns w Hleft.
  - cbn [discovery_loop].
    destruct (Z.ltb_spec (clock w - t0) timeout); [lia|discriminate].
  - remember (S fuel) as n eqn:En. cbn [discovery_loop].
    destruct (Z.ltb_spec (clock w - t0) timeout); [|discriminate].
    destruct (arp_lookup_by_mac h mac_lower w) as [[r w1]|] eqn:E1;
      [|discriminate].
    destruct (truthy r); [discriminate|].
    apply arp_lookup_clock in E1.
    assert (Hnext : forall ns' w2, clock w1 <= clock w2 ->
              match time_sleep 500 w2 with
              | Ok (_, w3) =>
                  discovery_loop n h ifname subnet mac_lower t0 timeout ns' w3
              | Raise e => Some (Raise e)
              end <> None).
    { intros ns' w2 Hw2. unfold time_sleep. subst n. apply IH.
      cbn [clock]. lia. }
    destruct subnet as [net|]; [|apply Hnext; lia].
    destruct (ns <=? clock w1).
    + destruct (light_ping_sweep h ifname net 64 w1) as [[[] w2]|] eqn:E2;
        [|discriminate].
      apply light_ping_sweep_clock in E2. apply Hnext. exact E2.
    + apply Hnext. lia.
Qed.

(** X7: the discovery returns, whatever the host does and whatever the
    budget: a budget of [t] seconds is spent in at most [2 t + 2] iterations. *)
Lemma discover_returns (h : Host) (ifname mac : string) (timeout_s : Z) (w : World) :
  discover h ifname mac timeout_s w <> None.
Proof.
  unfold discover.
  destruct (get_if_ip_netmask h ifname w) as [[[host_ip mask] w1]|]; [|discriminate].
  unfold loop_fuel. apply discovery_loop_returns.
  pose proof (Z.mul_div_le (1000 * timeout_s) 500 ltac:(lia)).
  pose proof (Z.mod_pos_bound (1000 * timeout_s) 500 ltac:(lia)).
  pose proof (Z.div_mod (1000 * timeout_s) 500 ltac:(lia)).
  lia.
Qed.

Section QuietHost.

Variables (h : Host) (ifname mac ip mask : string) (host D : Z).
Hypothesis Q : quiet_host h ifname mac ip mask host.
Hypothesis HD : forall t argv, Z.of_N (latency h t argv) <= D.

Lemma quiet_context (w : World) :
  exists w1,
    get_if_ip_netmask h ifname w = Ok ((Some ip, Some mask), w1)
    /\ clock w <= clock w1 <= clock w + 2 * D
    /\ sweep_times (log w1) = sweep_times (log w).
Proof.
  destruct (qh_ifaddr _ _ _ _ _ _ Q (clock w)) as [S1 O1].
  destruct (qh_mask _ _ _ _ _ _ Q
              (clock w + Z.of_N (latency h (clock w) (ifaddr_cmd ifname)))) as [S2 O2].
  pose proof (get_if_ip_netmask_runs h ifname w S1 S2) as E. cbv zeta in E.
  rewrite O1, O2 in E.
  rewrite (or_None_present ip (IPv4Address_nonempty ip host (qh_ip _ _ _ _ _ _ Q))) in E.
  rewrite (or_None_present mask (qh_mask_present _ _ _ _ _ _ Q)) in E.
  eexists. split; [exact E|]. cbn [clock log sweep_times].
  pose proof (HD (clock w) (ifaddr_cmd ifname)).
  pose proof (HD (clock w + Z.of_N (latency h (clock w) (ifaddr_cmd ifname)))
                (mask_cmd ifname)).
  split; [lia|]. unfold mask_cmd, ifaddr_cmd. reflexivity.
Qed.

Lemma quiet_lookup (w : World) :
  exists w1,
    arp_lookup_by_mac h (lower mac) w = Ok (None, w1)
    /\ clock w <= clock w1 <= clock w + D
    /\ sweep_times (log w1) = sweep_times (log w).
Proof.
  destruct (qh_arp _ _ _ _ _ _ Q (clock w)) as [S1 O1].
  rewrite (arp_lookup_runs h (lower mac) w S1), O1.
  eexists. split; [reflexivity|]. cbn [clock log sweep_times].
  pose proof (HD (clock w) arp_cmd). split; [lia|]. reflexivity.
Qed.

Lemma quiet_pings (candidates : list Z) (w : World) :
  exists w1,
    fire_pings h candidates w = Ok (tt, w1)
    /\ clock w1 = clock w
    /\ sweep_times (log w1) = sweep_times (log w).
Proof.
  revert w. induction candidates as [|c cs IH]; intros w; cbn [fire_pings].
  - exists w. repeat split.
  - unfold bind, popen.
    pose proof (qh_ping _ _ _ _ _ _ Q (clock w) (ip_to_string c)) as S1.
    destruct (exec h (clock w) ["ping"; "-c"; "1"; "-W"; "100"; ip_to_string c]);
      [|discriminate].
    destruct (IH {| clock := clock w;
                    log := Spawned (clock w)
                             ["ping"; "-c"; "1"; "-W"; "100"; ip_to_string c]
                           :: log w |}) as (w1 & E & Hc & Hs).
    exists w1. split; [exact E|]. split; [exact Hc|]. exact Hs.
Qed.

(** One sweep on the quiet host: it fires once, at the time the address
    query returns, and takes its half second. *)
Lemma quiet_sweep (net : IPv4Network) (limit : Z) (w : World) :
  exists w2 ts,
    light_ping_sweep h ifname net limit w = Ok (tt, w2)
    /\ clock w <= ts <= clock w + 2 * D
    /\ clock w2 = ts + 500
    /\ sweep_times (log w2) = (sweep_times (log w) ++ [ts])%list.
Proof.
  destruct (quiet_context w) as (w1 & E & Hc & Hs).
  unfold light_ping_sweep, bind. rewrite E. cbn [fst].
  rewrite (qh_ip _ _ _ _ _ _ Q). unfold time_time, note.
  destruct (quiet_pings (sweep_candidates net host limit)
              {| clock := clock w1;
                 log := SweepFired (clock w1) (sweep_candidates net host limit)
                        :: log w1 |}) as (w2 & E2 & Hc2 & Hs2).
  rewrite E2. unfold time_sleep.
  eexists. exists (clock w1). split; [reflexivity|].
  cbn [clock log sweep_times] in *.
  split; [lia|]. split; [lia|]. now rewrite Hs2, Hs.
Qed.

(** One iteration that finds nothing: either the sweep is due after the
    lookup and fires, or the loop only sleeps. *)
Lemma quiet_iteration (net : IPv4Network) (t0 timeout ns : Z) (w : World) :
  clock w - t0 < timeout ->
  exists c1,
    clock w <= c1 <= clock w + D
    /\ ((ns <= c1
         /\ exists w3 ts,
              c1 <= ts <= c1 + 2 * D
              /\ clock w3 = ts + 1000
              /\ sweep_times (log w3) = (sweep_times (log w) ++ [ts])%list
              /\ forall fuel,
                   discovery_loop (S fuel) h ifname (Some net) (lower mac)
                                  t0 timeout ns w
                   = discovery_loop fuel h ifname (Some net) (lower mac)
                                    t0 timeout (ts + 500 + 5000) w3)
        \/ (c1 < ns
            /\ exists w3,
                 clock w3 = c1 + 500
                 /\ sweep_times (log w3) = sweep_times (log w)
                 /\ forall fuel,
                      discovery_loop (S fuel) h ifname (Some net) (lower mac)
                                     t0 timeout ns w
                      = discovery_loop fuel h ifname (Some net) (lower mac)
                                       t0 timeout ns w3)).
Proof.
  intros Hrun. destruct (quiet_lookup w) as (w1 & E1 & Hc1 & Hs1).
  exists (clock w1). split; [exact Hc1|].
  destruct (Z.leb_spec ns (clock w1)) as [Hdue|Hnot].
  - left. split; [exact Hdue|].
    destruct (quiet_sweep net 64 w1) as (w2 & ts & E2 & Hts & Hc2 & Hs2).
    exists {| clock := clock w2 + 500; log := Slept (clock w2) 500 :: log w2 |}, ts.
    cbn [clock log sweep_times].
    split; [exact Hts|]. split; [lia|]. split; [now rewrite Hs2, Hs1|].
    intros fuel. cbn [discovery_loop].
    destruct (Z.ltb_spec (clock w - t0) timeout) as [_|]; [|lia].
    rewrite E1. cbn [truthy].
    destruct (Z.leb_spec ns (clock w1)) as [_|]; [|lia].
    rewrite E2. unfold time_sleep. rewrite Hc2. reflexivity.
  - right. split; [exact Hnot|].
    exists {| clock := clock w1 + 500; log := Slept (clock w1) 500 :: log w1 |}.
    cbn [clock log sweep_times].
    split; [reflexivity|]. split; [exact Hs1|].
    intros fuel. cbn [discovery_loop].
    destruct (Z.ltb_spec (clock w - t0) timeout) as [_|]; [|lia].
    rewrite E1. cbn [truthy].
    destruct (Z.leb_spec ns (clock w1)) as [|_]; [lia|].
    unfold time_sleep. reflexivity.
Qed.

Lemma loop_deadline (fuel : nat) (subnet : option IPv4Network)
  (t0 timeout ns : Z) (w : World) :
  timeout <= clock w - t0 ->
  discovery_loop (S fuel) h ifname subnet (lower mac) t0 timeout ns w
  = Some (Ok (None, w)).
Proof.
  intros Hpast. cbn [discovery_loop].
  destruct (Z.ltb_spec (clock w - t0) timeout); [lia|reflexivity].
Qed.

(** The loop with a two-second budget, entered at [t0] with the first sweep
    due a second later: it gives up after one sweep. *)
Lemma quiet_loop_2s (net : IPv4Network) (w : World) :
  exists w' ts,
    discovery_loop 6 h ifname (Some net) (lower mac)
                   (clock w) 2000 (clock w + 1000) w
    = Some (Ok (None, w'))
    /\ sweep_times (log w') = (sweep_times (log w) ++ [ts])%list
    /\ clock w + 1000 <= ts
    /\ clock w + 2000 <= clock w' < clock w + 2500 + 3 * D.
Proof.
  set (t0 := clock w).
  destruct (quiet_iteration net t0 2000 (t0 + 1000) w ltac:(lia))
    as (c1 & Hc1 & [(Hdue & w3 & ts & Hts & Hc3 & Hs3 & Hloop)
                   |(Hnot & w3 & Hc3 & Hs3 & Hloop)]).
  - exists w3, ts. rewrite Hloop, loop_deadline by lia.
    repeat split; [exact Hs3|lia|lia|lia].
  - rewrite Hloop.
    destruct (quiet_iteration net t0 2000 (t0 + 1000) w3 ltac:(lia))
      as (c2 & Hc2 & [(Hdue2 & w5 & ts & Hts & Hc5 & Hs5 & Hloop2)
                     |(Hnot2 & w5 & Hc5 & Hs5 & Hloop2)]).
    + exists w5, ts. rewrite Hloop2, loop_deadline by lia.
      repeat split; [now rewrite Hs5, Hs3|lia|lia|lia].
    + rewrite Hloop2.
      destruct (quiet_iteration net t0 2000 (t0 + 1000) w5 ltac:(lia))
        as (c3 & Hc3' & [(Hdue3 & w7 & ts & Hts & Hc7 & Hs7 & Hloop3)
                        |(Hnot3 & _)]); [|lia].
      exists w7, ts. rewrite Hloop3, loop_deadline by lia.
      repeat split; [now rewrite Hs7, Hs5, Hs3|lia|lia|lia].
Qed.

End QuietHost.

(** C5, as the code has it: with a two-second budget, on a host that has an
    address and whose neighbour cache never shows the MAC, the discovery ends
    with no address, two seconds after the loop was entered or little more,
    after exactly one sweep; the sweep fires a second or more into the loop,
    not on entry. *)
Theorem discover_times_out_after_one_sweep (h : Host)
  (ifname mac ip mask : string) (host D : Z) (w : World) :
  quiet_host h ifname mac ip mask host ->
  (forall t argv, Z.of_N (latency h t argv) <= D) ->
  exists w' t0 ts,
    discover h ifname mac 2 w = Some (Ok (None, w'))
    /\ clock w <= t0 <= clock w + 2 * D
    /\ sweep_times (log w') = (sweep_times (log w) ++ [ts])%list
    /\ t0 + 1000 <= ts
    /\ t0 + 2000 <= clock w' < t0 + 2500 + 3 * D.
Proof.
  intros Q HD.
  destruct (quiet_context h ifname mac ip mask host D Q HD w) as (w1 & E & Hc & Hs).
  destruct (cidr_from_ip_mask_total ip mask host (qh_ip _ _ _ _ _ _ Q)) as [net Hnet].
  destruct (quiet_loop_2s h ifname mac ip mask host D Q HD net w1)
    as (w' & ts & Hloop & Hs' & Hts & Hend).
  exists w', (clock w1), ts.
  unfold discover. rewrite E, Hnet.
  change (loop_fuel (1000 * 2)) with 6%nat. change (1000 * 2) with 2000.
  rewrite Hloop. split; [reflexivity|]. split; [exact Hc|].
  split; [now rewrite Hs', Hs|]. split; [exact Hts|exact Hend].
Qed.

Lemma lab_host_quiet :
  quiet_host (lab_host "") "en1" "52:54:00:11:22:33"
             "10.193.80.64" "255.255.255.0" (lab_addr 64).
Proof.
  constructor.
  - intros t. split; reflexivity.
  - intros t. split; reflexivity.
  - reflexivity.
  - discriminate.
  - intros t target. reflexivity.
  - intros t. split; reflexivity.
Qed.

Lemma discover_times_out_after_one_sweep_witness :
  exists w' ts,
    discover (lab_host "") "en1" "52:54:00:11:22:33" 2 w0 = Some (Ok (None, w'))
    /\ sweep_times (log w') = [ts]
    /\ 1000 <= ts
    /\ 2000 <= clock w' < 2500.
Proof.
  destruct (discover_times_out_after_one_sweep (lab_host "") "en1"
              "52:54:00:11:22:33" "10.193.80.64" "255.255.255.0" (lab_addr 64) 0 w0
              lab_host_quiet ltac:(intros; cbn; lia))
    as (w' & t0 & ts & E & Ht0 & Hs & Hts & Hend).
  exists w', ts. cbn [clock log sweep_times w0 app] in *.
  split; [exact E|]. split; [exact Hs|]. split; lia.
Defined.

(** C5 as stated fails: the loop is entered at time 0 and reads the cache at
    0, 0.5 and 1 second; its one sweep fires at 1 second, after the third
    reading, not on entry. *)
Lemma discover_first_sweep_after_one_second :
  exists w',
    discover (lab_host "") "en1" "52:54:00:11:22:33" 2 w0 = Some (Ok (None, w'))
    /\ lookup_times (log w') = [0; 500; 1000]
    /\ sweep_times (log w') = [1000]
    /\ clock w' = 2000.
Proof.
  eexists. split; [vm_compute; reflexivity|].
  split; [|split]; vm_compute; reflexivity.
Qed.

(** ** More on the discovery loop: every host, every budget *)

(** The ways one iteration of the loop can go. *)
Lemma discovery_loop_step (h : Host) (ifname : string)
  (subnet : option IPv4Network) (mac_lower : string) (t0 timeout ns : Z)
  (fuel : nat) (w : World) (res : result (option string * World)) :
  discovery_loop (S fuel) h ifname subnet mac_lower t0 timeout ns w = Some res ->
  (timeout <= clock w - t0 /\ res = Ok (None, w))
  \/ (clock w - t0 < timeout
      /\ ((exists e, arp_lookup_by_mac h mac_lower w = Raise e /\ res = Raise e)
          \/ exists r w1,
               arp_lookup_by_mac h mac_lower w = Ok (r, w1)
               /\ ((exists ip, truthy r = Some ip /\ res = Ok (Some ip, w1))
                   \/ (truthy r = None
                       /\ ((exists net e,
                              subnet = Some net /\ ns <= clock w1
                              /\ light_ping_sweep h ifname net 64 w1 = Raise e
                              /\ res = Raise e)
                           \/ (exists net w2,
                                 subnet = Some net /\ ns <= clock w1
                                 /\ light_ping_sweep h ifname net 64 w1 = Ok (tt, w2)
                                 /\ discovery_loop fuel h ifname subnet mac_lower
                                      t0 timeout (clock w2 + 5000) (slept w2)
                                    = Some res)
                           \/ ((subnet = None \/ clock w1 < ns)
                               /\ discovery_loop fuel h ifname subnet mac_lower
                                    t0 timeout ns (slept w1)
                                  = Some res)))))).
Proof.
  cbn [discovery_loop].
  destruct (Z.ltb_spec (clock w - t0) timeout) as [Hrun|Hpast].
  2:{ intros E. left. split; [exact Hpast|]. now inversion E. }
  intros E. right. split; [exact Hrun|].
  destruct (arp_lookup_by_mac h mac_lower w) as [[r w1]|e] eqn:E1.
  2:{ left. exists e. split; [reflexivity|]. now inversion E. }
  right. exists r, w1. split; [reflexivity|].
  destruct (truthy r) as [ip|] eqn:Er.
  { left. exists ip. split; [reflexivity|]. now inversion E. }
  right. split; [reflexivity|].
  destruct subnet as [net|].
  - destruct (Z.leb_spec ns (clock w1)) as [Hdue|Hnot].
    + destruct (light_ping_sweep h ifname net 64 w1) as [[[] w2]|e] eqn:E2.
      * right. left. exists net, w2. repeat split; try assumption.
      * left. exists net, e. repeat split; try assumption. now inversion E.
    + right. right. split; [now right|exact E].
  - right. right. split; [now left|exact E].
Qed.

(** What the commands leave in the log is neither a sweep nor a spawned
    process. *)
Lemma run_trace (h : Host) (cmd : list string) (check capture sudo : bool)
  (w w' : World) (x : string) :
  run h cmd check capture sudo w = Ok (x, w') ->
  sweep_times (log w') = sweep_times (log w)
  /\ spawned (log w') = spawned (log w).
Proof.
  unfold run.
  destruct (exec h (clock w) _) as [rc out err|msg]; [|discriminate].
  destruct (check && negb (rc =? 0)); [discriminate|].
  intros E. inversion E. cbn [log sweep_times spawned]. now split.
Qed.

Lemma get_if_ip_netmask_trace (h : Host) (ifname : string) (w w' : World) r :
  get_if_ip_netmask h ifname w = Ok (r, w') ->
  sweep_times (log w') = sweep_times (log w)
  /\ spawned (log w') = spawned (log w).
Proof.
  unfold get_if_ip_netmask, bind, ret.
  destruct (run h _ false true false w) as [[x1 w1]|] eqn:E1; [|discriminate].
  destruct (run h _ false true false w1) as [[x2 w2]|] eqn:E2; [|discriminate].
  intros E. inversion E. subst w'.
  apply run_trace in E1. apply run_trace in E2.
  destruct E1 as [A1 B1], E2 as [A2 B2]. split; congruence.
Qed.

Lemma arp_lookup_trace (h : Host) (mac_lower : string) (w w' : World) r :
  arp_lookup_by_mac h mac_lower w = Ok (r, w') ->
  sweep_times (log w') = sweep_times (log w)
  /\ spawned (log w') = spawned (log w).
Proof.
  unfold arp_lookup_by_mac, bind, ret.
  destruct (run h _ false true false w) as [[x1 w1]|] eqn:E1; [|discriminate].
  intros E. inversion E. subst w'. now apply run_trace in E1.
Qed.







Lemma discovery_loop_no_subnet (h : Host) (ifname mac_lower : string)
  (t0 timeout : Z) (fuel : nat) (ns : Z) (w w' : World) (r : option string) :
  discovery_loop fuel h ifname None mac_lower t0 timeout ns w = Some (Ok (r, w')) ->
  sweep_times (log w') = sweep_times (log w)
  /\ spawned (log w') = spawned (log w).
Proof.
  revert ns w. induction fuel as [|fuel IH]; intros ns w E; [discriminate|].
  apply discovery_loop_step in E.
  destruct E as [[_ E]|[_ [(e & _ & E)|(r1 & w1 & E1 & E)]]]; try discriminate.
  { inversion E. now subst. }
  apply arp_lookup_trace in E1. destruct E1 as [Hs1 Hp1].
  destruct E as [(ip & _ & E)|(_ & [(net & e & Hn & _)
                                  |[(net & w2 & Hn & _)|(_ & E)]])];
    try discriminate.
  - inversion E. subst. now split.
  - apply IH in E. cbn [slept log sweep_times spawned] in E.
    destruct E as [A B]. split; congruence.
Qed.

(** X5: a discovery on an interface without an address or without a mask
    never probes: it fires no sweep and starts no [ping], however long it
    runs. *)
Theorem discover_without_context_never_probes (h : Host) (ifname mac : string)
  (timeout_s : Z) (w w1 w' : World) (host_ip mask r : option string) :
  get_if_ip_netmask h ifname w = Ok ((host_ip, mask), w1) ->
  host_ip = None \/ mask = None ->
  discover h ifname mac timeout_s w = Some (Ok (r, w')) ->
  sweep_times (log w') = sweep_times (log w)
  /\ spawned (log w') = spawned (log w).
Proof.
  intros E1 Hno. unfold discover. rewrite E1.
  apply get_if_ip_netmask_trace in E1. destruct E1 as [Hs1 Hp1].
  assert (Hsub : match host_ip, mask with
                 | Some ip, Some m =>
                     match cidr_from_ip_mask ip m with
                     | Ok n => Some n
                     | Raise _ => None
                     end
                 | _, _ => None
                 end = None).
  { destruct Hno as [-> | ->]; [reflexivity|]. now destruct host_ip. }
  rewrite Hsub. intros E. apply discovery_loop_no_subnet in E.
  destruct E as [A B]. split; congruence.
Qed.

Lemma discover_without_context_never_probes_witness :
  exists w',
    discover host_without_address "en1" "52:54:00:11:22:33" 8 w0
    = Some (Ok (None, w'))
    /\ sweep_times (log w') = [] /\ spawned (log w') = []
    /\ List.length (lookup_times (log w')) = 16%nat.
Proof.
  assert (E : exists w', discover host_without_address "en1" "52:54:00:11:22:33" 8 w0
                         = Some (Ok (None, w'))
                         /\ List.length (lookup_times (log w')) = 16%nat).
  { eexists. split; vm_compute; reflexivity. }
  destruct E as (w' & E & Hl). exists w'. split; [exact E|].
  destruct (discover_without_context_never_probes host_without_address "en1"
              "52:54:00:11:22:33" 8 w0 _ w' None None None eq_refl
              (or_introl eq_refl) E) as [A B].
  split; [exact A|]. split; [exact B|exact Hl].
Defined.

Lemma discovery_loop_deadline (h : Host) (ifname : string)
  (subnet : option IPv4Network) (mac_lower : string) (t0 timeout : Z)
  (fuel : nat) (ns : Z) (w w' : World) :
  discovery_loop fuel h ifname subnet mac_lower t0 timeout ns w
  = Some (Ok (None, w')) ->
  timeout <= clock w' - t0.
Proof.
  revert ns w. induction fuel as [|fuel IH]; intros ns w E; [discriminate|].
  apply discovery_loop_step in E.
  destruct E as [[Hpast E]|[_ [(e & _ & E)|(r1 & w1 & E1 & E)]]]; try discriminate.
  { inversion E. now subst. }
  destruct E as [(ip & _ & E)|(_ & [(net & e & _ & _ & _ & E)
                                  |[(net & w2 & _ & _ & _ & E)|(_ & E)]])];
    try discriminate; now apply IH in E.
Qed.

(** X6: the discovery reports that it found nothing only once the whole
    budget has gone by since it was called. *)
Theorem discover_gives_up_after_budget (h : Host) (ifname mac : string)
  (timeout_s : Z) (w w' : World) :
  discover h ifname mac timeout_s w = Some (Ok (None, w')) ->
  1000 * timeout_s <= clock w' - clock w.
Proof.
  unfold discover.
  destruct (get_if_ip_netmask h ifname w) as [[[host_ip mask] w1]|] eqn:E1;
    [|discriminate].
  apply get_if_ip_netmask_clock in E1.
  intros E. apply discovery_loop_deadline in E. lia.
Qed.

Lemma discover_gives_up_after_budget_witness :
  exists w',
    discover host_without_address "en1" "52:54:00:11:22:33" 8 w0
    = Some (Ok (None, w'))
    /\ 8000 <= clock w'.
Proof.
  assert (E : exists w', discover host_without_address "en1" "52:54:00:11:22:33" 8 w0
                         = Some (Ok (None, w'))).
  { eexists. vm_compute. reflexivity. }
  destruct E as (w' & E). exists w'. split; [exact E|].
  pose proof (discover_gives_up_after_budget _ _ _ _ _ _ E) as H.
  cbn [w0 clock] in H. lia.
Defined.

(** ** What the pattern of line 103 captures *)

Lemma str_app_assoc (a b c : string) : (a ++ b) ++ c = a ++ (b ++ c).
Proof. induction a as [|x a IH]; cbn; [reflexivity|now rewrite IH]. Qed.

Lemma str_length_app (a b : string) :
  String.length (a ++ b) = (String.length a + String.length b)%nat.
Proof. induction a as [|x a IH]; cbn; [reflexivity|now rewrite IH]. Qed.

Lemma substring_skip (a s : string) (n m : nat) :
  substring (String.length a + n) m (a ++ s) = substring n m s.
Proof. induction a as [|x a IH]; cbn; [reflexivity|exact IH]. Qed.

Lemma substring_take (b c : string) :
  substring 0 (String.length b) (b ++ c) = b.
Proof. induction b as [|x b IH]; cbn; [now destruct c|now rewrite IH]. Qed.

Lemma substring_middle (a b c : string) (p q : nat) :
  p = String.length a -> (q - p)%nat = String.length b ->
  substring p (q - p) (a ++ b ++ c) = b.
Proof.
  intros -> ->. rewrite <- (Nat.add_0_r (String.length a)).
  rewrite substring_skip. apply substring_take.
Qed.

Lemma match_here_sound (pat : list tok) :
  forall s pos ms m,
    match_here pat s pos ms = Some m ->
    exists consumed rest, s = consumed ++ rest /\ tokens_match pat consumed pos ms m.
Proof.
  induction pat as [|t pat IH]; intros s pos ms m.
  - cbn [match_here]. intros E. inversion E. subst.
    exists "", s. split; [reflexivity|constructor].
  - destruct t as [p|p|g|g]; cbn [match_here].
    + destruct s as [|c s']; [discriminate|].
      destruct (p c) eqn:Hp; [|discriminate].
      intros E. apply IH in E. destruct E as (cs & rest & -> & Hm).
      exists (String c cs), rest. split; [reflexivity|now constructor].
    + revert pos. induction s as [|c s' IHs]; intros pos.
      * intros E. apply IH in E. destruct E as (cs & rest & Hs & Hm).
        exists ("" ++ cs), rest. split; [exact Hs|].
        apply TM_star; [reflexivity|]. cbn. now rewrite Nat.add_0_r.
      * assert (Hstop : match_here pat (String c s') pos ms = Some m ->
                  exists consumed rest,
                    String c s' = consumed ++ rest
                    /\ tokens_match (Star p :: pat) consumed pos ms m).
        { intros E. apply IH in E. destruct E as (cs & rest & Hs & Hm).
          exists ("" ++ cs), rest. split; [exact Hs|].
          apply TM_star; [reflexivity|]. cbn. now rewrite Nat.add_0_r. }
        destruct (p c) eqn:Hp; [|exact Hstop].
        match goal with
        | |- match ?X with Some _ => _ | None => _ end = _ -> _ =>
            destruct X as [m'|] eqn:Ego
        end; [|exact Hstop].
        intros E. inversion E. subst m'.
        apply IHs in Ego. destruct Ego as (consumed & rest & Hs & Hm).
        inversion Hm as [| |p0 pat0 pre cs pos0 ms0 m0 Hpre Hrest| |]; subst.
        exists (String c pre ++ cs), rest. split.
        { reflexivity. }
        apply TM_star; [cbn; now rewrite Hp|].
        cbn [String.length]. now rewrite Nat.add_succ_r.
    + intros E. apply IH in E. destruct E as (cs & rest & Hs & Hm).
      exists cs, rest. split; [exact Hs|now constructor].
    + intros E. apply IH in E. destruct E as (cs & rest & Hs & Hm).
      exists cs, rest. split; [exact Hs|now constructor].
Qed.

Lemma search_from_sound (pat : list tok) (s : string) :
  forall pos m,
    search_from pat s pos = Some m ->
    exists skipped s',
      s = skipped ++ s'
      /\ match_here pat s' (pos + String.length skipped) [] = Some m.
Proof.
  induction s as [|c s IH]; intros pos m; cbn [search_from].
  - destruct (match_here pat "" pos []) as [m'|] eqn:E; [|discriminate].
    intros E'. inversion E'. subst. exists "", "". split; [reflexivity|].
    cbn. now rewrite Nat.add_0_r.
  - destruct (match_here pat (String c s) pos []) as [m'|] eqn:E.
    + intros E'. inversion E'. subst. exists "", (String c s).
      split; [reflexivity|]. cbn. now rewrite Nat.add_0_r.
    + intros E'. apply IH in E'. destruct E' as (skipped & s' & -> & Hm).
      exists (String c skipped), s'. split; [reflexivity|].
      cbn [String.length]. now rewrite Nat.add_succ_r.
Qed.

Lemma group_of_marks (line a b c g : string) (p q : nat) (ms : marks) :
  mark_of true g ms = Some p ->
  mark_of false g ms = Some q ->
  line = a ++ b ++ c ->
  p = String.length a ->
  (q - p)%nat = String.length b ->
  group {| subject := line; spans := ms |} g = b.
Proof.
  intros Hp Hq -> Ha Hb. unfold group. cbn [spans subject].
  rewrite Hp, Hq. now apply substring_middle.
Qed.

Lemma lit_dot (x : ascii) : lit "." x = true -> x = "."%char.
Proof.
  destruct x as [[] [] [] [] [] [] [] []]; vm_compute; intros E;
    try discriminate; reflexivity.
Qed.

Lemma tm_one_inv p pat consumed pos ms m :
  tokens_match (One p :: pat) consumed pos ms m ->
  exists c cs, consumed = String c cs /\ p c = true
               /\ tokens_match pat cs (S pos) ms m.
Proof. intros H. inversion H; subst. eauto. Qed.

Lemma tm_star_inv p pat consumed pos ms m :
  tokens_match (Star p :: pat) consumed pos ms m ->
  exists pre cs, consumed = pre ++ cs /\ all_chars p pre = true
                 /\ tokens_match pat cs (pos + String.length pre) ms m.
Proof. intros H. inversion H; subst. eauto. Qed.

Lemma tm_open_inv g pat consumed pos ms m :
  tokens_match (Open g :: pat) consumed pos ms m ->
  tokens_match pat consumed pos ((true, g, pos) :: ms) m.
Proof. intros H. now inversion H. Qed.

Lemma tm_close_inv g pat consumed pos ms m :
  tokens_match (Close g :: pat) consumed pos ms m ->
  tokens_match pat consumed pos ((false, g, pos) :: ms) m.
Proof. intros H. now inversion H. Qed.

Lemma tm_nil_inv consumed pos ms m :
  tokens_match [] consumed pos ms m -> consumed = "" /\ m = ms.
Proof. intros H. now inversion H. Qed.

Lemma tm_plus_inv p pat consumed pos ms m :
  tokens_match (plus p ++ pat)%list consumed pos ms m ->
  exists o cs, consumed = o ++ cs /\ o <> "" /\ all_chars p o = true
               /\ tokens_match pat cs (pos + String.length o) ms m.
Proof.
  cbn [plus app]. intros H.
  apply tm_one_inv in H. destruct H as (c & cs & -> & Hc & H).
  apply tm_star_inv in H. destruct H as (pre & cs' & -> & Hpre & H).
  exists (String c pre), cs'. split; [reflexivity|]. split; [discriminate|].
  split; [cbn; now rewrite Hc|].
  cbn [String.length]. now rewrite Nat.add_succ_r.
Qed.

Lemma tm_exactly_inv p pat (n : nat) :
  forall consumed pos ms m,
    tokens_match (exactly n p ++ pat)%list consumed pos ms m ->
    exists t cs, consumed = t ++ cs /\ String.length t = n
                 /\ all_chars p t = true
                 /\ tokens_match pat cs (pos + n) ms m.
Proof.
  induction n as [|n IH]; intros consumed pos ms m; cbn [exactly repeat app].
  - intros H. exists "", consumed. rewrite Nat.add_0_r. now repeat split.
  - intros H. apply tm_one_inv in H. destruct H as (c & cs & -> & Hc & H).
    apply IH in H. destruct H as (t & cs' & -> & Hlen & Hall & H).
    exists (String c t), cs'. split; [reflexivity|].
    split; [cbn; now rewrite Hlen|]. split; [cbn; now rewrite Hc|].
    now rewrite Nat.add_succ_r.
Qed.

Lemma dotted_digits_intro (o1 o2 o3 o4 : string) :
  o1 <> "" -> o2 <> "" -> o3 <> "" -> o4 <> "" ->
  all_chars is_ascii_digit o1 = true -> all_chars is_ascii_digit o2 = true ->
  all_chars is_ascii_digit o3 = true -> all_chars is_ascii_digit o4 = true ->
  dotted_digits (o1 ++ String "." (o2 ++ String "." (o3 ++ String "." o4))) = true.
Proof.
  intros N1 N2 N3 N4 D1 D2 D3 D4. unfold dotted_digits.
  assert (Hdot : forall o, all_chars is_ascii_digit o = true -> has_char "." o = false)
    by (intros o; now apply digits_have_no).
  rewrite (split_on_app "." o1 _ (Hdot o1 D1)).
  rewrite (split_on_app "." o2 _ (Hdot o2 D2)).
  rewrite (split_on_app "." o3 _ (Hdot o3 D3)).
  rewrite (split_on_no_sep "." o4 (Hdot o4 D4)).
  cbn [forallb]. rewrite D1, D2, D3, D4.
  apply String.eqb_neq in N1, N2, N3, N4. now rewrite N1, N2, N3, N4.
Qed.

Lemma tm_quad_inv pat consumed pos ms m :
  tokens_match (plus cls_digit ++ One (lit ".") :: plus cls_digit
                ++ One (lit ".") :: plus cls_digit
                ++ One (lit ".") :: plus cls_digit ++ pat)%list consumed pos ms m ->
  exists ip cs, consumed = ip ++ cs /\ dotted_digits ip = true
                /\ tokens_match pat cs (pos + String.length ip) ms m.
Proof.
  intros H.
  apply tm_plus_inv in H. destruct H as (o1 & cs & -> & N1 & D1 & H).
  apply tm_one_inv in H. destruct H as (d1 & cs1 & -> & Hd1 & H).
  apply tm_plus_inv in H. destruct H as (o2 & cs & -> & N2 & D2 & H).
  apply tm_one_inv in H. destruct H as (d2 & cs2 & -> & Hd2 & H).
  apply tm_plus_inv in H. destruct H as (o3 & cs & -> & N3 & D3 & H).
  apply tm_one_inv in H. destruct H as (d3 & cs3 & -> & Hd3 & H).
  apply tm_plus_inv in H. destruct H as (o4 & cs & -> & N4 & D4 & H).
  apply lit_dot in Hd1, Hd2, Hd3. subst d1 d2 d3.
  exists (o1 ++ String "." (o2 ++ String "." (o3 ++ String "." o4))), cs.
  split.
  { rewrite !str_app_assoc. cbn [append]. rewrite !str_app_assoc. cbn [append].
    rewrite !str_app_assoc. reflexivity. }
  split; [now apply dotted_digits_intro|].
  rewrite !str_length_app. cbn [String.length]. rewrite !str_length_app.
  cbn [String.length]. rewrite !str_length_app. cbn [String.length].
  match goal with
  | H : tokens_match pat cs ?a ms m |- tokens_match pat cs ?b ms m =>
      replace b with a by lia; exact H
  end.
Qed.

(** Whatever line the pattern matches, its [ip] group is four runs of digits
    joined by dots and its [mac] group is 17 characters of the MAC class. *)
Lemma arp_re_captures (line : string) (m : Match) :
  re_search arp_re line = Some m ->
  dotted_digits (group m "ip") = true
  /\ String.length (group m "mac") = 17%nat
  /\ all_chars cls_mac (group m "mac") = true.
Proof.
  unfold re_search. destruct (search_from arp_re line 0) as [ms|] eqn:E; [|discriminate].
  intros Em. inversion Em. subst m. clear Em.
  apply search_from_sound in E. destruct E as (skipped & s' & -> & E).
  apply match_here_sound in E. destruct E as (consumed & rest & -> & H).
  cbn [Nat.add] in H.
  change arp_re with
    (One (lit "(") :: Open "ip"
     :: (plus cls_digit ++ One (lit ".") :: plus cls_digit
         ++ One (lit ".") :: plus cls_digit
         ++ One (lit ".") :: plus cls_digit
         ++ (Close "ip" :: One (lit ")") :: Star cls_dot
             :: One (lit " ") :: One (lit "a") :: One (lit "t") :: One (lit " ")
             :: Open "mac"
             :: (exactly 17 cls_mac ++ [Close "mac"; One (lit " ")]))))%list in H.
  apply tm_one_inv in H. destruct H as (c0 & cs & -> & _ & H).
  apply tm_open_inv in H.
  apply tm_quad_inv in H. destruct H as (ip & cs' & -> & Hip & H).
  apply tm_close_inv in H.
  apply tm_one_inv in H. destruct H as (c1 & cs & -> & _ & H).
  apply tm_star_inv in H. destruct H as (dots & cs' & -> & _ & H).
  apply tm_one_inv in H. destruct H as (c2 & cs & -> & _ & H).
  apply tm_one_inv in H. destruct H as (c3 & cs' & -> & _ & H).
  apply tm_one_inv in H. destruct H as (c4 & cs & -> & _ & H).
  apply tm_one_inv in H. destruct H as (c5 & cs' & -> & _ & H).
  apply tm_open_inv in H.
  apply tm_exactly_inv in H. destruct H as (mac & cs & -> & Hlen & Hmac & H).
  apply tm_close_inv in H.
  apply tm_one_inv in H. destruct H as (c6 & cs' & -> & _ & H).
  apply tm_nil_inv in H. destruct H as [-> ->].
  match goal with
  | |- context [group ?M "ip"] => assert (Gip : group M "ip" = ip)
  end.
  { eapply (group_of_marks _ (skipped ++ String c0 "") ip
              (String c1 (dots ++ String c2 (String c3 (String c4 (String c5
                 (mac ++ String c6 ""))))) ++ rest) "ip");
      [reflexivity|reflexivity| | |].
    - repeat (progress (rewrite ?str_app_assoc; cbn [append])). reflexivity.
    - rewrite str_length_app. cbn. lia.
    - lia. }
  match goal with
  | |- context [group ?M "mac"] => assert (Gmac : group M "mac" = mac)
  end.
  { eapply (group_of_marks _
              (skipped ++ String c0 (ip ++ String c1 (dots ++ String c2
                 (String c3 (String c4 (String c5 ""))))))
              mac (String c6 "" ++ rest) "mac");
      [reflexivity|reflexivity| | |].
    - repeat (progress (rewrite ?str_app_assoc; cbn [append])). reflexivity.
    - repeat (progress (rewrite ?str_length_app; cbn [String.length])). lia.
    - lia. }
  rewrite Gip, Gmac. now repeat split.
Qed.

Lemma arp_scan_dotted (lines : list string) (mac_lower ip : string) :
  arp_scan lines mac_lower = Some ip -> dotted_digits ip = true.
Proof.
  intros E. pose proof (arp_scan_first lines mac_lower) as Hspec.
  rewrite E in Hspec.
  destruct Hspec as (before & line & after & _ & (m & Hm & _ & <-) & _).
  now apply arp_re_captures in Hm.
Qed.

Lemma arp_lookup_result (h : Host) (mac_lower : string) (w w' : World) r :
  arp_lookup_by_mac h mac_lower w = Ok (r, w') ->
  r = arp_scan (splitlines (strip (stdout_of (exec h (clock w) arp_cmd)))) mac_lower.
Proof.
  unfold arp_lookup_by_mac, bind, ret, run, arp_cmd. cbn [andb].
  destruct (exec h (clock w) ["arp"; "-an"]) as [rc out err|]; [|discriminate].
  intros E. now inversion E.
Qed.

(** X1: an address returned by the lookup is four non-empty runs of decimal
    digits joined by dots, whatever the cache printed; the runs are not
    checked against 255. *)
Theorem arp_lookup_returns_dotted_digits (h : Host) (mac_lower ip : string)
  (w w' : World) :
  arp_lookup_by_mac h mac_lower w = Ok (Some ip, w') ->
  dotted_digits ip = true /\ ip <> "".
Proof.
  intros E. apply arp_lookup_result in E. symmetry in E.
  apply arp_scan_dotted in E. split; [exact E|]. intros ->. discriminate.
Qed.

Lemma arp_lookup_returns_dotted_digits_witness :
  exists w',
    arp_lookup_by_mac
      (lab_host "? (999.1.1.1) at 52:54:00:aa:bb:cc on en1 ifscope [ethernet]")
      "52:54:00:aa:bb:cc" w0 = Ok (Some "999.1.1.1", w')
    /\ dotted_digits "999.1.1.1" = true.
Proof.
  eexists. split; [vm_compute; reflexivity|].
  eapply (arp_lookup_returns_dotted_digits
            (lab_host "? (999.1.1.1) at 52:54:00:aa:bb:cc on en1 ifscope [ethernet]")
            "52:54:00:aa:bb:cc" "999.1.1.1" w0).
  vm_compute. reflexivity.
Defined.

Lemma truthy_some (r : option string) (ip : string) :
  truthy r = Some ip -> r = Some ip.
Proof. destruct r as [[|c x]|]; cbn; congruence. Qed.

Lemma discovery_loop_found (h : Host) (ifname : string)
  (subnet : option IPv4Network) (mac_lower : string) (t0 timeout : Z)
  (fuel : nat) (ns : Z) (w w' : World) (ip : string) :
  discovery_loop fuel h ifname subnet mac_lower t0 timeout ns w
  = Some (Ok (Some ip, w')) ->
  exists t,
    clock w <= t <= clock w'
    /\ arp_scan (splitlines (strip (stdout_of (exec h t arp_cmd)))) mac_lower
       = Some ip.
Proof.
  revert ns w. induction fuel as [|fuel IH]; intros ns w E; [discriminate|].
  apply discovery_loop_step in E.
  destruct E as [[_ E]|[_ [(e & _ & E)|(r1 & w1 & E1 & E)]]]; try discriminate.
  pose proof (arp_lookup_clock _ _ _ _ _ E1) as Hc1.
  destruct E as [(ip' & Hr & E)|(_ & [(net & e & _ & _ & _ & E)
                                    |[(net & w2 & _ & _ & E2 & E)|(_ & E)]])];
    try discriminate.
  - inversion E. subst ip' w'. apply truthy_some in Hr. subst r1.
    apply arp_lookup_result in E1. exists (clock w). split; [lia|now symmetry].
  - apply light_ping_sweep_clock in E2. apply IH in E.
    destruct E as (t & Ht & Hscan). cbn [slept clock] in Ht.
    exists t. split; [lia|exact Hscan].
  - apply IH in E. destruct E as (t & Ht & Hscan). cbn [slept clock] in Ht.
    exists t. split; [lia|exact Hscan].
Qed.

(** X2: an address reported as found is one that a reading of the neighbour
    cache during the run gave for the MAC, compared without regard to case;
    it is never empty. *)
Theorem discover_found_is_cache_entry (h : Host) (ifname mac ip : string)
  (timeout_s : Z) (w w' : World) :
  discover h ifname mac timeout_s w = Some (Ok (Some ip, w')) ->
  dotted_digits ip = true
  /\ ip <> ""
  /\ exists t line,
       clock w <= t <= clock w'
       /\ In line (splitlines (strip (stdout_of (exec h t arp_cmd))))
       /\ entry_matches mac line ip.
Proof.
  unfold discover.
  destruct (get_if_ip_netmask h ifname w) as [[[host_ip mask] w1]|] eqn:E1;
    [|discriminate].
  apply get_if_ip_netmask_clock in E1.
  intros E. apply discovery_loop_found in E. destruct E as (t & Ht & Hscan).
  pose proof (arp_scan_dotted _ _ _ Hscan) as Hd.
  split; [exact Hd|]. split; [intros ->; discriminate|].
  pose proof (arp_scan_first
                (splitlines (strip (stdout_of (exec h t arp_cmd)))) (lower mac))
    as Hspec.
  rewrite Hscan in Hspec.
  destruct Hspec as (before & line & after & Hl & Hm & _).
  exists t, line. split; [lia|]. split; [|exact Hm].
  rewrite Hl. apply in_or_app. right. now left.
Qed.

Lemma discover_found_is_cache_entry_witness :
  exists w',
    discover (lab_host two_entries) "en1" "52:54:00:AA:BB:CC" 8 w0
    = Some (Ok (Some "10.193.80.105", w'))
    /\ entry_matches "52:54:00:AA:BB:CC" lower_case_entry "10.193.80.105".
Proof.
  assert (E : exists w', discover (lab_host two_entries) "en1" "52:54:00:AA:BB:CC" 8 w0
                         = Some (Ok (Some "10.193.80.105", w'))).
  { eexists. vm_compute. reflexivity. }
  destruct E as (w' & E). exists w'. split; [exact E|].
  destruct (discover_found_is_cache_entry _ _ _ _ _ _ _ E)
    as (_ & _ & t & line & _ & Hin & Hm).
  cbn in Hin. destruct Hin as [<-|[<-|[]]].
  - exfalso. destruct Hm as (m & Em & Hmac & _).
    vm_compute in Em. inversion Em. subst m. vm_compute in Hmac. discriminate.
  - exact Hm.
Defined.

(** X3: when the first reading of the cache already has the entry, the
    discovery returns its address after that one reading: no sleep, no
    sweep. *)
Theorem discover_finds_at_first_read (h : Host) (ifname mac ip : string)
  (timeout_s : Z) (w w1 : World) (ctx : option string * option string) :
  get_if_ip_netmask h ifname w = Ok (ctx, w1) ->
  started (exec h (clock w1) arp_cmd) = true ->
  arp_scan (splitlines (strip (stdout_of (exec h (clock w1) arp_cmd)))) (lower mac)
  = Some ip ->
  0 < timeout_s ->
  discover h ifname mac timeout_s w
  = Some (Ok (Some ip,
              {| clock := clock w1 + Z.of_N (latency h (clock w1) arp_cmd);
                 log := Ran (clock w1) arp_cmd :: log w1 |})).
Proof.
  intros E1 S Hscan Hpos. unfold discover. rewrite E1. destruct ctx as [host_ip mask].
  unfold loop_fuel. cbn [discovery_loop].
  destruct (Z.ltb_spec (clock w1 - clock w1) (1000 * timeout_s)) as [_|]; [|lia].
  rewrite (arp_lookup_runs h (lower mac) w1 S), Hscan.
  pose proof (arp_scan_dotted _ _ _ Hscan) as Hd.
  destruct ip as [|c ip]; [discriminate|]. reflexivity.
Qed.

Lemma discover_finds_at_first_read_witness :
  exists w',
    discover (lab_host two_entries) "en1" "52:54:00:AA:BB:CC" 180 w0
    = Some (Ok (Some "10.193.80.105", w'))
    /\ clock w' = 0 /\ sweep_times (log w') = [].
Proof.
  eexists. split.
  - eapply (discover_finds_at_first_read (lab_host two_entries) "en1"
              "52:54:00:AA:BB:CC" "10.193.80.105" 180 w0).
    + vm_compute. reflexivity.
    + reflexivity.
    + vm_compute. reflexivity.
    + lia.
  - split; reflexivity.
Defined.

(** ** The generated MAC and the text of addresses *)

Lemma lower_hex_lower (c : ascii) :
  is_lower_hex c = true -> lower_char c = c /\ cls_mac c = true.
Proof.
  destruct c as [[] [] [] [] [] [] [] []]; vm_compute; intros E;
    try discriminate; now split.
Qed.

(** X8: a generated address is already in lower case, so the MAC [main] looks
    for is the one it gave the guest, and its 17 characters are all of the
    class the pattern of line 103 reads a MAC with. *)
Theorem gen_mac_lower_case `{RandomSource} (last_octet : option Z) (s : rng_state) :
  let mac := fst (gen_mac last_octet s) in
  lower mac = mac /\ all_chars cls_mac mac = true.
Proof.
  destruct (gen_mac_octets last_octet s)
    as (o4 & o5 & o6 & Hmac & H4 & H5 & H6 & _).
  cbv zeta. rewrite Hmac.
  destruct (format_02x_byte o4 ltac:(lia)) as (a1 & a2 & Ha & Ha1 & Ha2 & _).
  destruct (format_02x_byte o5 ltac:(lia)) as (b1 & b2 & Hb & Hb1 & Hb2 & _).
  destruct (format_02x_byte o6 ltac:(lia)) as (c1 & c2 & Hc & Hc1 & Hc2 & _).
  cbn [map]. rewrite Ha, Hb, Hc.
  change (format_02x 0x52) with "52".
  change (format_02x 0x54) with "54".
  change (format_02x 0x00) with "00".
  apply lower_hex_lower in Ha1, Ha2, Hb1, Hb2, Hc1, Hc2.
  destruct Ha1 as [La1 Ma1], Ha2 as [La2 Ma2], Hb1 as [Lb1 Mb1],
           Hb2 as [Lb2 Mb2], Hc1 as [Lc1 Mc1], Hc2 as [Lc2 Mc2].
  split.
  - cbn [join append lower]. rewrite La1, La2, Lb1, Lb2, Lc1, Lc2. reflexivity.
  - cbn [join append all_chars]. rewrite Ma1, Ma2, Mb1, Mb2, Mc1, Mc2. reflexivity.
Qed.

(** ... which holds of each of the 256 bytes. *)
Lemma dec_byte_all : forallb dec_byte_ok (range 0 256) = true.
Proof. vm_compute. reflexivity. Qed.

Lemma parse_octet_dec (b : Z) : 0 <= b <= 255 -> parse_octet (dec b) = Ok b.
Proof.
  intros Hb.
  pose proof (proj1 (forallb_forall _ _) dec_byte_all b
                (range_In 0 256 b ltac:(lia))) as Hok.
  unfold dec_byte_ok in Hok.
  destruct (parse_octet (dec b)) as [v|]; [|discriminate].
  apply Z.eqb_eq in Hok. now subst.
Qed.

Lemma IPv4Address_of_octets (o1 o2 o3 o4 : string) (a b c d : Z) :
  parse_octet o1 = Ok a -> parse_octet o2 = Ok b ->
  parse_octet o3 = Ok c -> parse_octet o4 = Ok d ->
  IPv4Address (join "." [o1; o2; o3; o4])
  = Ok (256 * (256 * (256 * a + b) + c) + d).
Proof.
  intros E1 E2 E3 E4.
  destruct (parse_octet_ok o1 a E1) as (D1 & N1 & _).
  destruct (parse_octet_ok o2 b E2) as (D2 & _ & _).
  destruct (parse_octet_ok o3 c E3) as (D3 & _ & _).
  destruct (parse_octet_ok o4 d E4) as (D4 & _ & _).
  assert (Hdot : forall o, all_chars is_ascii_digit o = true -> has_char "." o = false)
    by (intros o; now apply digits_have_no).
  assert (Hsl : forall o, all_chars is_ascii_digit o = true -> has_char "/" o = false)
    by (intros o; now apply digits_have_no).
  cbn [join].
  set (text := o1 ++ "." ++ o2 ++ "." ++ o3 ++ "." ++ o4).
  assert (Ht : text = o1 ++ String "." (o2 ++ String "." (o3 ++ String "." o4)))
    by reflexivity.
  assert (Hnoslash : has_char "/" text = false).
  { unfold text. rewrite !has_char_app, (Hsl o1 D1), (Hsl o2 D2), (Hsl o3 D3), (Hsl o4 D4).
    reflexivity. }
  unfold IPv4Address. rewrite Hnoslash. unfold ip_int_from_string.
  assert (Hoct : split_on "." text = [o1; o2; o3; o4]).
  { rewrite Ht.
    rewrite (split_on_app "." o1 _ (Hdot o1 D1)).
    rewrite (split_on_app "." o2 _ (Hdot o2 D2)).
    rewrite (split_on_app "." o3 _ (Hdot o3 D3)).
    now rewrite (split_on_no_sep "." o4 (Hdot o4 D4)). }
  rewrite Hoct.
  change (negb (Z.of_nat (List.length [o1; o2; o3; o4]) =? 4)) with false.
  cbn [map_result]. rewrite E1, E2, E3, E4.
  destruct text as [|x text'] eqn:Etext.
  - exfalso. rewrite Ht in Etext. destruct o1; [now apply N1|discriminate].
  - f_equal; try (unfold from_bytes_big; cbn [fold_left]; lia).
Qed.

Lemma IPv4Address_ip_to_string (n : Z) :
  0 <= n < 2 ^ 32 -> IPv4Address (ip_to_string n) = Ok n.
Proof.
  intros Hn. unfold ip_to_string. cbn [map].
  rewrite !Z.shiftr_div_pow2 by lia.
  change (2 ^ 24) with 16777216. change (2 ^ 16) with 65536. change (2 ^ 8) with 256.
  change (2 ^ 32) with 4294967296 in Hn.
  rewrite (IPv4Address_of_octets _ _ _ _
             ((n / 16777216) mod 256) ((n / 65536) mod 256) ((n / 256) mod 256) (n mod 256))
    by (apply parse_octet_dec; apply Z.mod_pos_bound || (pose proof (Z.mod_pos_bound (n / 16777216) 256); pose proof (Z.mod_pos_bound (n / 65536) 256); pose proof (Z.mod_pos_bound (n / 256) 256);  pose proof (Z.mod_pos_bound n 256); lia)).
  f_equal. Z.div_mod_to_equations. lia.
Qed.

(** X9: the text of an address reads back as the address: every 32-bit
    address survives [str] followed by [IPv4Address]. *)
Theorem ip_to_string_round_trip (n : Z) :
  0 <= n < 2 ^ 32 -> IPv4Address (ip_to_string n) = Ok n.
Proof. exact (IPv4Address_ip_to_string n). Qed.

Lemma ip_to_string_round_trip_witness :
  ip_to_string (lab_addr 105) = "10.193.80.105"
  /\ IPv4Address "10.193.80.105" = Ok (lab_addr 105).
Proof.
  assert (E : ip_to_string (lab_addr 105) = "10.193.80.105")
    by (vm_compute; reflexivity).
  split; [exact E|]. rewrite <- E. apply ip_to_string_round_trip.
  vm_compute. split; [discriminate|reflexivity].
Defined.

Lemma gen_mac_lower_case_witness :
  lower (fst (@gen_mac lcg_source None 1)) = "52:54:00:01:a6:e7".
Proof.
  destruct (@gen_mac_lower_case lcg_source None 1) as [E _].
  cbv zeta in E. rewrite E. vm_compute. reflexivity.
Defined.

(** ** More on the window of a sweep *)

Lemma firstn_seq' (n s k : nat) : firstn n (seq s k) = seq s (Nat.min n k).
Proof.
  revert s k. induction n as [|n IH]; intros s k; [reflexivity|].
  destruct k as [|k]; [reflexivity|]. cbn. now rewrite IH.
Qed.

Lemma map_seq_from (a : Z) (k s : nat) :
  map (fun i => a + Z.of_nat i) (seq s k)
  = map (fun i => a + Z.of_nat s + Z.of_nat i) (seq 0 k).
Proof.
  rewrite <- (Nat.add_0_r s) at 1. generalize 0%nat as j.
  induction k as [|k IH]; intros j; [reflexivity|].
  cbn [seq map]. f_equal; [lia|].
  rewrite <- Nat.add_succ_r. apply IH.
Qed.

Lemma len_range (a b : Z) : len (range a b) = Z.max 0 (b - a).
Proof. unfold len, range. rewrite length_map, length_seq. lia. Qed.

Lemma sub_list_range (a b lo hi : Z) :
  0 <= lo <= hi -> hi <= len (range a b) ->
  sub_list (range a b) lo hi = range (a + lo) (a + hi).
Proof.
  intros Hlo Hhi. rewrite len_range in Hhi. unfold sub_list, range.
  rewrite skipn_map, firstn_map, skipn_seq, firstn_seq'.
  rewrite map_seq_from. cbn [Nat.add].
  replace (Nat.min (Z.to_nat (hi - lo)) (Z.to_nat (b - a) - Z.to_nat lo))
    with (Z.to_nat (a + hi - (a + lo))) by lia.
  apply map_ext. intros i. lia.
Qed.

Lemma hosts_is_range (net : IPv4Network) :
  exists a b, hosts net = range a b.
Proof.
  unfold hosts. destruct (prefixlen net =? max_prefixlen - 1); [eauto|].
  destruct (prefixlen net =? max_prefixlen); [|eauto].
  exists (network_address net), (network_address net + 1).
  unfold range. replace (Z.to_nat (network_address net + 1 - network_address net))
    with 1%nat by lia.
  cbn. now rewrite Z.add_0_r.
Qed.

Lemma index_of_seq (a x : Z) (k s : nat) :
  index_of x (map (fun i => a + Z.of_nat i) (seq s k)) = 
  if (a + Z.of_nat s <=? x) && (x <? a + Z.of_nat s + Z.of_nat k)
  then Some (x - (a + Z.of_nat s)) else None.
Proof.
  revert s. induction k as [|k IH]; intros s; cbn [seq map index_of].
  - destruct (Z.leb_spec (a + Z.of_nat s) x), (Z.ltb_spec x (a + Z.of_nat s + Z.of_nat 0));
      cbn; try reflexivity; lia.
  - rewrite IH.
    destruct (Z.eqb_spec (a + Z.of_nat s) x) as [<-|Hne].
    + destruct (Z.leb_spec (a + Z.of_nat s) (a + Z.of_nat s)); [|lia].
      destruct (Z.ltb_spec (a + Z.of_nat s) (a + Z.of_nat s + Z.of_nat (S k))); [|lia].
      cbn. f_equal. lia.
    + destruct (Z.leb_spec (a + Z.of_nat (S s)) x),
               (Z.ltb_spec x (a + Z.of_nat (S s) + Z.of_nat k)),
               (Z.leb_spec (a + Z.of_nat s) x),
               (Z.ltb_spec x (a + Z.of_nat s + Z.of_nat (S k)));
        cbn; try reflexivity; try lia.
      f_equal. lia.
Qed.

Lemma index_of_range (a b x : Z) :
  In x (range a b) -> index_of x (range a b) = Some (x - a).
Proof.
  intros Hin. apply In_range in Hin. unfold range. rewrite index_of_seq.
  cbn [Z.of_nat]. rewrite Z.add_0_r.
  destruct (Z.leb_spec a x); [|lia].
  destruct (Z.ltb_spec x (a + Z.of_nat (Z.to_nat (b - a)))); [|lia].
  reflexivity.
Qed.

Lemma sweep_candidates_run (net : IPv4Network) (host limit : Z) :
  exists first count,
    sweep_candidates net host limit = range first (first + count)
    /\ 0 <= count
    /\ (hosts net <> [] -> 0 < count)
    /\ (In host (hosts net) -> first <= host < first + count).
Proof.
  destruct (sweep_candidates_shape net host limit)
    as (idx & window & Hidx & Hwin & Hi & Hlo & Hhi & Hc).
  cbv zeta in *. destruct (hosts_is_range net) as (a & b & Hr).
  rewrite Hr in *.
  assert (Hw : 1 <= window) by lia.
  assert (Hidx' : len (range a b) <> 0 -> idx < len (range a b)).
  { intros Hn. rewrite Hidx. destruct (index_of host (range a b)) as [i|] eqn:E.
    - apply index_of_bounds in E. lia.
    - pose proof (len_nonneg (range a b)).
      apply Z.div_lt_upper_bound; lia. }
  exists (a + Z.max 0 (idx - window)),
         (Z.min (len (range a b)) (idx + window) - Z.max 0 (idx - window)).
  split.
  { rewrite Hc, sub_list_range by lia. f_equal. lia. }
  split; [lia|]. split.
  - intros Hne. assert (len (range a b) <> 0).
    { unfold len. destruct (range a b); [contradiction|cbn; lia]. }
    specialize (Hidx' H). lia.
  - intros Hin. rewrite (index_of_range a b host Hin) in Hidx.
    apply In_range in Hin.
    assert (len (range a b) <> 0) by (rewrite len_range; lia).
    specialize (Hidx' H). lia.
Qed.

(** X10: the window of a sweep is a run of consecutive addresses; it is not
    empty when the subnet has hosts, and it holds the host's own address
    whenever that address is one of the hosts. *)
Theorem sweep_window_consecutive (net : IPv4Network) (host limit : Z) :
  exists first count,
    sweep_candidates net host limit = range first (first + count)
    /\ 0 <= count
    /\ (hosts net <> [] -> 0 < count)
    /\ (In host (hosts net) -> In host (sweep_candidates net host limit)).
Proof.
  destruct (sweep_candidates_run net host limit)
    as (first & count & Hc & Hn & Hne & Hin).
  exists first, count. repeat split; try assumption.
  intros H. rewrite Hc. apply range_In. now apply Hin.
Qed.

Lemma sweep_window_consecutive_witness :
  sweep_candidates lab_net (lab_addr 2) 64 = range (lab_addr 1) (lab_addr 34)
  /\ In (lab_addr 2) (sweep_candidates lab_net (lab_addr 2) 64).
Proof.
  destruct (sweep_window_consecutive lab_net (lab_addr 2) 64)
    as (first & count & _ & _ & _ & Hin).
  split; [vm_compute; reflexivity|].
  apply Hin. rewrite lab_hosts. apply range_In. vm_compute.
  split; [discriminate|reflexivity].
Defined.

(** ** The subnet of the host and the host inside it *)

Lemma prefix_masks_all :
  forallb (fun p => (ip_int_from_prefix p =? 2 ^ 32 - 2 ^ (32 - p))
                    && (Z.lxor (ip_int_from_prefix p) ALL_ONES =? 2 ^ (32 - p) - 1))
          (range 0 33) = true.
Proof. vm_compute. reflexivity. Qed.

Lemma prefix_masks (p : Z) :
  0 <= p <= 32 ->
  ip_int_from_prefix p = 2 ^ 32 - 2 ^ (32 - p)
  /\ Z.lxor (ip_int_from_prefix p) ALL_ONES = 2 ^ (32 - p) - 1.
Proof.
  intros Hp.
  pose proof (proj1 (forallb_forall _ _) prefix_masks_all p
                (range_In 0 33 p ltac:(lia))) as Hok.
  cbv beta in Hok. apply andb_prop in Hok. destruct Hok as [A B].
  apply Z.eqb_eq in A, B. now split.
Qed.

Lemma land_high_bits (host k : Z) :
  0 <= host < 2 ^ 32 -> 0 <= k <= 32 ->
  Z.land host (2 ^ 32 - 2 ^ k) = 2 ^ k * (host / 2 ^ k).
Proof.
  intros Hh Hk.
  replace (2 ^ 32 - 2 ^ k) with (Z.shiftl (Z.ones (32 - k)) k).
  2:{ rewrite Z.shiftl_mul_pow2, Z.ones_equiv by lia.
      replace (2 ^ 32) with (2 ^ (32 - k) * 2 ^ k)
        by (rewrite <- Z.pow_add_r by lia; f_equal; lia).
      unfold Z.pred. ring. }
  rewrite <- Z.shiftr_div_pow2, Z.mul_comm, <- Z.shiftl_mul_pow2 by lia.
  apply Z.bits_inj'. intros i Hi.
  rewrite Z.land_spec, !Z.shiftl_spec by lia.
  destruct (Z.lt_ge_cases i k) as [Hlt|Hge].
  - rewrite !(Z.testbit_neg_r _ (i - k)) by lia. apply andb_false_r.
  - rewrite Z.shiftr_spec by lia. replace (i - k + k) with i by lia.
    destruct (Z.lt_ge_cases i 32) as [Hin|Hout].
    + rewrite Z.ones_spec_low by lia. apply andb_true_r.
    + rewrite Z.ones_spec_high by lia. rewrite andb_false_r.
      destruct (Z.eq_dec host 0) as [->|Hnz]; [now rewrite Z.bits_0|].
      rewrite Z.bits_above_log2; [reflexivity|lia|].
      apply Z.lt_le_trans with 32; [|exact Hout].
      apply Z.log2_lt_pow2; lia.
Qed.

Lemma lor_low_bits (q k : Z) :
  0 <= k -> Z.lor (2 ^ k * q) (2 ^ k - 1) = 2 ^ k * q + (2 ^ k - 1).
Proof.
  intros Hk.
  assert (Hdisj : Z.land (2 ^ k * q) (2 ^ k - 1) = 0).
  { replace (2 ^ k - 1) with (Z.ones k) by (rewrite Z.ones_equiv; lia).
    rewrite Z.land_ones by lia. rewrite Z.mul_comm. apply Z.mod_mul.
    pose proof (Z.pow_pos_nonneg 2 k). lia. }
  rewrite <- (Z.lxor_lor _ _ Hdisj). symmetry. now apply Z.add_nocarry_lxor.
Qed.

Lemma count_righthand_zero_bits_range (x : Z) :
  0 <= count_righthand_zero_bits x 32 <= 32.
Proof.
  unfold count_righthand_zero_bits, bit_length.
  destruct (x =? 0); [lia|].
  destruct (Z.land (Z.lnot x) (x - 1) =? 0); [lia|].
  pose proof (Z.log2_nonneg (Z.land (Z.lnot x) (x - 1))). lia.
Qed.

Lemma prefix_from_ip_int_range (x p : Z) :
  prefix_from_ip_int x = Ok p -> 0 <= p <= 32.
Proof.
  unfold prefix_from_ip_int, max_prefixlen. cbv zeta.
  pose proof (count_righthand_zero_bits_range x).
  destruct (negb _); [discriminate|]. intros E.
  assert (p = 32 - count_righthand_zero_bits x 32) by congruence. lia.
Qed.

Lemma make_netmask_range (mask : option string) (netmask plen : Z) :
  make_netmask mask = Ok (netmask, plen) -> 0 <= plen <= 32.
Proof.
  unfold make_netmask. destruct mask as [arg|].
  2:{ intros E. inversion E. unfold max_prefixlen. lia. }
  destruct (prefix_from_prefix_string arg) as [p|e] eqn:E1.
  - intros E. inversion E. subst. unfold prefix_from_prefix_string in E1.
    destruct (negb (isascii arg && isdigit arg)); [discriminate|].
    destruct ((0 <=? int10 arg) && (int10 arg <=? max_prefixlen)) eqn:Hr;
      cbn [negb] in E1; [|discriminate].
    inversion E1. apply andb_prop in Hr. unfold max_prefixlen in Hr. lia.
  - destruct e; try discriminate.
    destruct (prefix_from_ip_string arg) as [p|] eqn:E2; [|discriminate].
    intros E. inversion E. subst. unfold prefix_from_ip_string in E2.
    destruct (ip_int_from_string arg) as [x|]; [|discriminate].
    destruct (prefix_from_ip_int x) as [p1|] eqn:E3.
    + inversion E2. subst. now apply prefix_from_ip_int_range in E3.
    + destruct (prefix_from_ip_int (Z.lxor x ALL_ONES)) as [p2|] eqn:E4;
        [|discriminate].
      inversion E2. subst. now apply prefix_from_ip_int_range in E4.
Qed.

Lemma IPv4Address_range (ip : string) (host : Z) :
  IPv4Address ip = Ok host -> 0 <= host < 2 ^ 32.
Proof.
  intros Hip. destruct (IPv4Address_inv ip host Hip)
    as (_ & o1 & o2 & o3 & o4 & a & b & c & d & _ & E1 & E2 & E3 & E4 & ->).
  apply parse_octet_ok in E1, E2, E3, E4.
  change (2 ^ 32) with 4294967296. lia.
Qed.

(** The network [cidr_from_ip_mask] returns is the host address with the
    bits below the prefix cleared. *)
Lemma cidr_result_shape (ip mask : string) (host : Z) (net : IPv4Network) :
  IPv4Address ip = Ok host ->
  cidr_from_ip_mask ip mask = Ok net ->
  0 <= prefixlen net <= 32
  /\ network_address net = Z.land host (ip_int_from_prefix (prefixlen net)).
Proof.
  intros Hip. destruct (IPv4Address_inv ip host Hip) as (Hnoslash & _).
  pose proof (split_addr_prefix_pair ip mask Hnoslash) as Hsp.
  unfold cidr_from_ip_mask.
  destruct (IPv4Network_of (ip ++ "/" ++ mask) false) as [m|e] eqn:Hm.
  - intros E. inversion E. subst m.
    destruct (has_char "/" mask).
    + unfold IPv4Network_of in Hm. rewrite Hsp in Hm. discriminate.
    + destruct (make_netmask (Some mask)) as [[netmask plen]|e] eqn:Hmask.
      * rewrite (IPv4Network_of_parts ip (Some mask) host netmask plen _ Hsp Hip Hmask)
          in Hm.
        inversion Hm. cbn [network_address prefixlen].
        split; [now apply make_netmask_range in Hmask|].
        now rewrite (make_netmask_prefix _ _ _ Hmask).
      * unfold IPv4Network_of in Hm. rewrite Hsp, Hip, Hmask in Hm. discriminate.
  - rewrite (cidr_fallback ip host Hip). intros E. inversion E.
    cbn [network_address prefixlen]. split; [lia|].
    destruct (prefix_masks 24 ltac:(lia)) as [-> _].
    change (32 - 24) with 8.
    rewrite (land_high_bits host 8 (IPv4Address_range ip host Hip) ltac:(lia)).
    reflexivity.
Qed.

Lemma cidr_network_bounds (ip mask : string) (host : Z) (net : IPv4Network) :
  IPv4Address ip = Ok host ->
  cidr_from_ip_mask ip mask = Ok net ->
  let size := 2 ^ (32 - prefixlen net) in
  0 <= prefixlen net <= 32
  /\ network_address net = size * (host / size)
  /\ broadcast_address net = network_address net + size - 1
  /\ network_address net <= host <= broadcast_address net.
Proof.
  intros Hip Hnet. cbv zeta.
  destruct (cidr_result_shape ip mask host net Hip Hnet) as [Hp Hna].
  pose proof (IPv4Address_range ip host Hip) as Hh.
  destruct (prefix_masks (prefixlen net) Hp) as [Hnm Hhm].
  set (k := 32 - prefixlen net) in *.
  assert (Hpow : 0 < 2 ^ k) by (apply Z.pow_pos_nonneg; lia).
  assert (Hn : network_address net = 2 ^ k * (host / 2 ^ k)).
  { rewrite Hna, Hnm. apply land_high_bits; lia. }
  assert (Hb : broadcast_address net = network_address net + 2 ^ k - 1).
  { unfold broadcast_address, hostmask_of, netmask_of. rewrite Hhm, Hn.
    rewrite lor_low_bits by lia. lia. }
  split; [exact Hp|]. split; [exact Hn|]. split; [exact Hb|].
  rewrite Hb, Hn.
  pose proof (Z.mul_div_le host (2 ^ k) Hpow).
  pose proof (Z.mul_succ_div_gt host (2 ^ k) Hpow). lia.
Qed.

Lemma host_in_hosts_iff (ip mask : string) (host : Z) (net : IPv4Network) :
  IPv4Address ip = Ok host ->
  cidr_from_ip_mask ip mask = Ok net ->
  (In host (hosts net)
   <-> (30 < prefixlen net
        \/ (host <> network_address net /\ host <> broadcast_address net))).
Proof.
  intros Hip Hnet.
  destruct (cidr_network_bounds ip mask host net Hip Hnet)
    as (Hp & Hn & Hb & Hin). cbv zeta in *.
  unfold hosts, max_prefixlen.
  destruct (Z.eqb_spec (prefixlen net) (32 - 1)) as [E31|N31].
  - split; [intros _; left; lia|]. intros _. apply range_In. lia.
  - destruct (Z.eqb_spec (prefixlen net) 32) as [E32|N32].
    + split; [intros _; left; lia|]. intros _. left.
      rewrite E32 in Hn. change (2 ^ (32 - 32)) with 1 in Hn.
      rewrite Z.div_1_r in Hn. lia.
    + split.
      * intros H. apply In_range in H. right. lia.
      * intros [H|[H1 H2]]; [lia|]. apply range_In. lia.
Qed.

(** X11: the network [cidr_from_ip_mask] returns for an accepted address holds
    that address: it starts at the address rounded down to a multiple of the
    network's size, and ends one below the next multiple. *)
Theorem cidr_contains_host (ip mask : string) (host : Z) (net : IPv4Network) :
  IPv4Address ip = Ok host ->
  cidr_from_ip_mask ip mask = Ok net ->
  let size := 2 ^ (32 - prefixlen net) in
  0 <= prefixlen net <= 32
  /\ network_address net = size * (host / size)
  /\ broadcast_address net = network_address net + size - 1
  /\ network_address net <= host <= broadcast_address net.
Proof. exact (cidr_network_bounds ip mask host net). Qed.

Lemma cidr_contains_host_witness :
  exists net,
    cidr_from_ip_mask "10.193.80.64" "255.255.240.0" = Ok net
    /\ network_address net = 180441088 /\ broadcast_address net = 180445183
    /\ network_address net <= lab_addr 64 <= broadcast_address net.
Proof.
  eexists. split; [vm_compute; reflexivity|].
  destruct (cidr_contains_host "10.193.80.64" "255.255.240.0" (lab_addr 64)
              {| network_address := 180441088; prefixlen := 20 |}
              eq_refl eq_refl) as (_ & _ & Hb & Hin).
  split; [reflexivity|]. split; [reflexivity|]. exact Hin.
Defined.

(** X12: on the subnet computed from the host's own address, the sweep finds
    that address among the hosts, and so centres its window on it and pings
    it too, exactly when the subnet is a /31 or /32 or the address is neither
    the network nor the broadcast address. *)
Theorem sweep_covers_own_address (ip mask : string) (host limit : Z)
  (net : IPv4Network) :
  IPv4Address ip = Ok host ->
  cidr_from_ip_mask ip mask = Ok net ->
  (In host (hosts net)
   <-> (30 < prefixlen net
        \/ (host <> network_address net /\ host <> broadcast_address net)))
  /\ (In host (hosts net) -> In host (sweep_candidates net host limit)).
Proof.
  intros Hip Hnet. split; [now apply (host_in_hosts_iff ip mask)|].
  intros Hin. destruct (sweep_candidates_run net host limit)
    as (first & count & Hc & _ & _ & Hh).
  rewrite Hc. apply range_In. now apply Hh.
Qed.

Lemma sweep_covers_own_address_witness :
  In (lab_addr 64) (sweep_candidates lab_net (lab_addr 64) 64)
  /\ ~ In (lab_addr 255) (hosts lab_net).
Proof.
  destruct (sweep_covers_own_address "10.193.80.64" "255.255.255.0"
              (lab_addr 64) 64 lab_net eq_refl eq_refl) as (Hiff & Hin).
  destruct (sweep_covers_own_address "10.193.80.255" "255.255.255.0"
              (lab_addr 255) 64 lab_net eq_refl eq_refl) as (Hiff' & _).
  split.
  - apply Hin, Hiff. right. split; vm_compute; discriminate.
  - intros H. apply Hiff' in H. destruct H as [H|[_ H]].
    + vm_compute in H. discriminate.
    + apply H. vm_compute. reflexivity.
Defined.

(** ** What a sweep starts, and what the resolver returns *)

Lemma fire_pings_spawned (h : Host) (candidates : list Z) (w w' : World) :
  fire_pings h candidates w = Ok (tt, w') ->
  spawned (log w') = (spawned (log w) ++ map ping_argv candidates)%list.
Proof.
  revert w. induction candidates as [|c cs IH]; intros w; cbn [fire_pings map].
  - unfold ret. intros E. inversion E. now rewrite app_nil_r.
  - unfold bind, popen. destruct (exec h (clock w) _); [|discriminate].
    intros E. rewrite (IH _ E). cbn [log spawned].
    rewrite <- app_assoc. reflexivity.
Qed.

Lemma get_if_ip_netmask_fields (h : Host) (ifname : string) (w w' : World)
  (host_ip mask : option string) :
  get_if_ip_netmask h ifname w = Ok ((host_ip, mask), w') ->
  host_ip = or_None (strip (stdout_of (exec h (clock w) (ifaddr_cmd ifname))))
  /\ exists t, clock w <= t <= clock w'
       /\ mask = or_None (strip (stdout_of (exec h t (mask_cmd ifname)))).
Proof.
  unfold get_if_ip_netmask, bind, ret, run, ifaddr_cmd, mask_cmd. cbn [andb].
  destruct (exec h (clock w) ["ipconfig"; "getifaddr"; ifname])
    as [rc1 out1 err1|]; [|discriminate].
  cbn [clock].
  destruct (exec h (clock w + Z.of_N (latency h (clock w) ["ipconfig"; "getifaddr"; ifname]))
              ["ipconfig"; "getoption"; ifname; "subnet_mask"])
    as [rc2 out2 err2|] eqn:E2; [|discriminate].
  intros E. inversion E. subst. cbn [stdout_of clock]. rewrite !strip_idem.
  split; [reflexivity|].
  exists (clock w + Z.of_N (latency h (clock w) ["ipconfig"; "getifaddr"; ifname])).
  rewrite E2. cbn [stdout_of]. split; [lia|reflexivity].
Qed.

Lemma or_None_some (x y : string) : or_None x = Some y -> x = y /\ y <> "".
Proof. destruct x; cbn; [discriminate|]. intros E. inversion E. now split. Qed.

(** X14: a field the resolver returns is never empty and has no white space
    at either end. *)
Theorem get_if_ip_netmask_fields_stripped (h : Host) (ifname : string)
  (w w' : World) (host_ip mask : option string) :
  get_if_ip_netmask h ifname w = Ok ((host_ip, mask), w') ->
  forall x, host_ip = Some x \/ mask = Some x -> x <> "" /\ strip x = x.
Proof.
  intros E. apply get_if_ip_netmask_fields in E.
  destruct E as (Hip & t & _ & Hmask).
  intros x [Hx|Hx]; [rewrite Hip in Hx|rewrite Hmask in Hx];
    apply or_None_some in Hx; destruct Hx as [<- Hne];
    (split; [exact Hne|apply strip_idem]).
Qed.

(** X13: a sweep that returns has started one [ping -c 1 -W 100] per address
    of its window, in order, the window being computed from the address the
    interface has at that moment; with no address it starts none. *)
Theorem sweep_pings_its_window (h : Host) (ifname : string) (net : IPv4Network)
  (limit : Z) (w w' : World) :
  light_ping_sweep h ifname net limit w = Ok (tt, w') ->
  let out := strip (stdout_of (exec h (clock w) (ifaddr_cmd ifname))) in
  (out = "" /\ spawned (log w') = spawned (log w))
  \/ exists host,
       IPv4Address out = Ok host
       /\ spawned (log w')
          = (spawned (log w) ++ map ping_argv (sweep_candidates net host limit))%list.
Proof.
  unfold light_ping_sweep, bind.
  destruct (get_if_ip_netmask h ifname w) as [[[host_ip mask] w1]|] eqn:E1;
    [|discriminate].
  pose proof (get_if_ip_netmask_fields _ _ _ _ _ _ E1) as [Hip _].
  apply get_if_ip_netmask_trace in E1. destruct E1 as [_ Hp1].
  cbn [fst]. cbv zeta.
  destruct host_ip as [x|].
  - symmetry in Hip. apply or_None_some in Hip. destruct Hip as [Hx _].
    rewrite Hx.
    destruct (IPv4Address x) as [host|]; [|discriminate].
    unfold time_time, note.
    destruct (fire_pings h _ _) as [[[] w2]|] eqn:E2; [|discriminate].
    apply fire_pings_spawned in E2. cbn [log spawned] in E2.
    unfold time_sleep. intros E. inversion E. right. exists host.
    split; [reflexivity|]. cbn [log spawned]. now rewrite E2, Hp1.
  - unfold ret. intros E. inversion E. subst w'. left.
    split; [|exact Hp1]. symmetry in Hip. now apply or_None_empty in Hip.
Qed.

Lemma get_if_ip_netmask_fields_stripped_witness :
  exists w',
    get_if_ip_netmask (lab_host "") "en1" w0
    = Ok ((Some "10.193.80.64", Some "255.255.255.0"), w')
    /\ strip "10.193.80.64" = "10.193.80.64".
Proof.
  eexists. split; [vm_compute; reflexivity|].
  eapply (get_if_ip_netmask_fields_stripped (lab_host "") "en1" w0).
  - vm_compute. reflexivity.
  - left. reflexivity.
Defined.

Lemma sweep_pings_its_window_witness :
  exists w',
    light_ping_sweep (lab_host "") "en1" lab_net 4 w0 = Ok (tt, w')
    /\ spawned (log w')
       = map ping_argv [lab_addr 62; lab_addr 63; lab_addr 64; lab_addr 65].
Proof.
  assert (E : exists w', light_ping_sweep (lab_host "") "en1" lab_net 4 w0
                         = Ok (tt, w')).
  { eexists. vm_compute. reflexivity. }
  destruct E as (w' & E). exists w'. split; [exact E|].
  destruct (sweep_pings_its_window _ _ _ _ _ _ E) as [[Hno _]|(host & Hh & Hs)].
  - vm_compute in Hno. discriminate.
  - rewrite Hs. vm_compute in Hh. inversion Hh. subst host.
    vm_compute. reflexivity.
Defined.

(** ** Starting a guest: make_overlay and launch_vm *)

Lemma run_checked (h : Host) (cmd : list string) (capture sudo : bool)
  (w w' : World) (x : string) :
  run h cmd true capture sudo w = Ok (x, w') ->
  (exists out err, exec h (clock w) (as_run h sudo cmd) = Exited 0 out err)
  /\ clock w <= clock w'
  /\ commands (log w') = (commands (log w) ++ [as_run h sudo cmd])%list.
Proof.
  unfold run, as_run.
  destruct (exec h (clock w) _) as [rc out err|msg]; [|discriminate].
  cbn [andb]. destruct (Z.eqb_spec rc 0) as [->|Hne]; cbn [negb]; [|discriminate].
  intros E. inversion E. cbn [clock log commands].
  split; [eauto|]. split; [lia|reflexivity].
Qed.

Lemma run_checked_fails (h : Host) (cmd : list string) (capture sudo : bool)
  (w : World) rc out err :
  exec h (clock w) (as_run h sudo cmd) = Exited rc out err -> rc <> 0 ->
  exists msg, run h cmd true capture sudo w = Raise (RuntimeError msg).
Proof.
  unfold run, as_run. intros -> Hne. cbn [andb].
  destruct (Z.eqb_spec rc 0) as [->|_]; [contradiction|]. cbn [negb].
  eexists. reflexivity.
Qed.

(** X15: [make_overlay] never touches an overlay that is there: without the
    base image it raises before anything is run, with both files in place it
    returns with nothing run (the overlay is reused), and when it returns
    after creating one, the overlay was missing, [qemu-img create] is the one
    command it ran, and that command exited with status 0. *)
Theorem make_overlay_outcomes (fs : Files) (h : Host) (gold overlay : string)
  (w : World) :
  (path_exists fs (clock w) gold = false ->
   make_overlay fs h gold overlay w
   = Raise (OSError ("Base image not found: " ++ gold)))
  /\ (path_exists fs (clock w) gold = true ->
      path_exists fs (clock w) overlay = true ->
      make_overlay fs h gold overlay w = Ok (tt, w))
  /\ (forall w',
        make_overlay fs h gold overlay w = Ok (tt, w') ->
        path_exists fs (clock w) gold = true
        /\ ((path_exists fs (clock w) overlay = true /\ w' = w)
            \/ (path_exists fs (clock w) overlay = false
                /\ (exists out err,
                      exec h (clock w) (qemu_img_cmd gold overlay) = Exited 0 out err)
                /\ commands (log w')
                   = (commands (log w) ++ [qemu_img_cmd gold overlay])%list))).
Proof.
  unfold make_overlay. split; [|split].
  - intros ->. reflexivity.
  - intros -> ->. reflexivity.
  - intros w'. destruct (path_exists fs (clock w) gold); cbn [negb]; [|discriminate].
    destruct (path_exists fs (clock w) overlay).
    + intros E. inversion E. split; [reflexivity|]. left. now split.
    + unfold bind, ret.
      destruct (run h (qemu_img_cmd gold overlay) true true false w)
        as [[x w1]|] eqn:E1; [|discriminate].
      intros E. inversion E. subst w1.
      apply run_checked in E1. destruct E1 as (Hex & _ & Hcmd).
      split; [reflexivity|]. right. split; [reflexivity|].
      unfold as_run in *. cbn [andb] in *. now split.
Qed.

Lemma make_overlay_outcomes_witness :
  make_overlay lab_files (lab_host "") "/vm/base/gold.qcow2" "/vm/overlays/sA.qcow2" w0
  = Ok (tt, w0)
  /\ path_exists lab_files (clock w0) "/vm/overlays/sC.qcow2" = false
  /\ exists w',
       make_overlay lab_files (lab_host "") "/vm/base/gold.qcow2"
                    "/vm/overlays/sC.qcow2" w0 = Ok (tt, w')
       /\ commands (log w')
          = [qemu_img_cmd "/vm/base/gold.qcow2" "/vm/overlays/sC.qcow2"].
Proof.
  destruct (make_overlay_outcomes lab_files (lab_host "") "/vm/base/gold.qcow2"
              "/vm/overlays/sA.qcow2" w0) as (_ & Hreuse & _).
  split; [apply Hreuse; reflexivity|]. split; [reflexivity|].
  destruct (make_overlay lab_files (lab_host "") "/vm/base/gold.qcow2"
              "/vm/overlays/sC.qcow2" w0) as [[[] w']|e] eqn:E.
  - exists w'. split; [reflexivity|].
    destruct (make_overlay_outcomes lab_files (lab_host "") "/vm/base/gold.qcow2"
                "/vm/overlays/sC.qcow2" w0) as (_ & _ & Hnew).
    destruct (Hnew w' E) as (_ & [(Hex & _)|(_ & _ & Hc)]).
    + vm_compute in Hex. discriminate.
    + exact Hc.
  - vm_compute in E. discriminate.
Defined.

Lemma wait_for_pidfile_spec (fs : Files) (pidf : string) (t0 : Z) (fuel : nat) :
  forall w k,
    clock w - t0 = 100 * k -> 0 <= k <= 50 ->
    (50 - k < Z.of_nat fuel) ->
    exists w',
      wait_for_pidfile fuel fs pidf t0 w = Some w'
      /\ clock w <= clock w' <= t0 + 5000
      /\ commands (log w') = commands (log w)
      /\ (path_exists fs (clock w') pidf = true \/ clock w' = t0 + 5000).
Proof.
  induction fuel as [|fuel IH]; intros w k Hk Hr Hf; [exfalso; lia|].
  cbn [wait_for_pidfile].
  destruct (Z.ltb_spec (clock w - t0) 5000) as [Hin|Hout].
  - destruct (path_exists fs (clock w) pidf) eqn:Hex.
    + exists w. repeat split; try lia. now left.
    + unfold time_sleep.
      destruct (IH {| clock := clock w + 100; log := Slept (clock w) 100 :: log w |}
                  (k + 1)) as (w' & E & Hc & Hl & Hend);
        cbn [clock]; try lia.
      exists w'. split; [exact E|]. cbn [clock log commands] in *.
      split; [lia|]. split; [exact Hl|exact Hend].
  - exists w. repeat split; lia.
Qed.

Lemma ensure_paths_ok (fs : Files) (base_dir name : string) (w w1 : World)
  (p : VmPaths) :
  ensure_paths fs base_dir name w = Ok (p, w1) ->
  w1 = w
  /\ p_base p = path_join fs base_dir "base"
  /\ p_ov p = path_join fs (path_join fs base_dir "overlays") (name ++ ".qcow2")
  /\ p_pidf p = path_join fs (path_join fs base_dir "overlays") (name ++ ".pid")
  /\ p_logf p = path_join fs (path_join fs base_dir "logs") (name ++ ".log").
Proof.
  unfold ensure_paths, bind, mkdir_p, ret.
  destruct (mkdir_fails fs (clock w) (path_join fs base_dir "base")); [discriminate|].
  destruct (mkdir_fails fs (clock w) (path_join fs base_dir "overlays")); [discriminate|].
  destruct (mkdir_fails fs (clock w) (path_join fs base_dir "logs")); [discriminate|].
  intros E. inversion E. cbn. repeat split.
Qed.

Lemma make_overlay_trace (fs : Files) (h : Host) (gold overlay : string)
  (w w' : World) :
  make_overlay fs h gold overlay w = Ok (tt, w') ->
  clock w <= clock w'
  /\ path_exists fs (clock w) gold = true
  /\ exists pre,
       commands (log w') = (commands (log w) ++ pre)%list
       /\ (pre = [] \/ pre = [qemu_img_cmd gold overlay]).
Proof.
  unfold make_overlay.
  destruct (path_exists fs (clock w) gold); cbn [negb]; [|discriminate].
  destruct (path_exists fs (clock w) overlay).
  - intros E. inversion E. subst. split; [lia|]. split; [reflexivity|].
    exists []. rewrite app_nil_r. split; [reflexivity|now left].
  - unfold bind, ret.
    destruct (run h (qemu_img_cmd gold overlay) true true false w)
      as [[x w1]|] eqn:E1; [|discriminate].
    intros E. inversion E. subst w1.
    apply run_checked in E1. destruct E1 as (_ & Hc & Hcmd).
    split; [exact Hc|]. split; [reflexivity|].
    exists [qemu_img_cmd gold overlay]. split; [exact Hcmd|now right].
Qed.

(** X16: [launch_vm] returns, whatever the host and the file system do: the
    loop that waits for the PID file ends after at most fifty sleeps of a
    tenth of a second. *)
Theorem launch_vm_returns (fs : Files) (h : Host) (base_dir name ifname : string)
  (cpus ram_mb : Z) (mac : string) (timeout_boot : Z) (w : World) :
  launch_vm fs h base_dir name ifname cpus ram_mb mac timeout_boot w <> None.
Proof.
  unfold launch_vm.
  destruct (ensure_paths fs base_dir name w) as [[p w1]|]; [|discriminate].
  destruct (negb (path_exists fs (clock w1) codefd)); [discriminate|].
  destruct (negb (path_exists fs (clock w1) _)); [discriminate|].
  destruct (make_overlay fs h _ _ w1) as [[[] w2]|]; [|discriminate].
  destruct (run h _ true true true w2) as [[x w3]|]; [|discriminate].
  destruct (wait_for_pidfile_spec fs (p_pidf p) (clock w3) 51 w3 0
              ltac:(lia) ltac:(lia) ltac:(lia)) as (w4 & E & _).
  rewrite E. destruct (negb _); discriminate.
Qed.

Lemma launch_vm_trace (fs : Files) (h : Host) (base_dir name ifname : string)
  (cpus ram_mb : Z) (mac : string) (timeout_boot : Z) (w w' : World)
  (ov pidf logf : string) :
  launch_vm fs h base_dir name ifname cpus ram_mb mac timeout_boot w
  = Some (Ok (ov, pidf, logf, w')) ->
  let base := path_join fs base_dir "base" in
  let gold := path_join fs base "gold.qcow2" in
  let varsfd := path_join fs base "vars.fd" in
  let cmd := as_run h true (qemu_cmd ifname cpus ram_mb mac varsfd ov pidf logf) in
  pidf = path_join fs (path_join fs base_dir "overlays") (name ++ ".pid")
  /\ ov = path_join fs (path_join fs base_dir "overlays") (name ++ ".qcow2")
  /\ path_exists fs (clock w) codefd = true
  /\ path_exists fs (clock w) varsfd = true
  /\ path_exists fs (clock w) gold = true
  /\ path_exists fs (clock w') pidf = true
  /\ (exists tq out err,
        exec h tq cmd = Exited 0 out err
        /\ clock w <= tq
        /\ tq + Z.of_N (latency h tq cmd) <= clock w'
           <= tq + Z.of_N (latency h tq cmd) + 5000)
  /\ exists pre,
       commands (log w') = (commands (log w) ++ pre ++ [cmd])%list
       /\ (pre = [] \/ pre = [qemu_img_cmd gold ov]).
Proof.
  unfold launch_vm.
  destruct (ensure_paths fs base_dir name w) as [[p w1]|] eqn:Ep; [|discriminate].
  apply ensure_paths_ok in Ep. destruct Ep as (-> & Hb & Hov & Hpid & Hlog).
  rewrite Hb.
  destruct (path_exists fs (clock w) codefd) eqn:Hcode; cbn [negb]; [|discriminate].
  destruct (path_exists fs (clock w) (path_join fs (path_join fs base_dir "base") "vars.fd"))
    eqn:Hvars; cbn [negb]; [|discriminate].
  destruct (make_overlay fs h _ _ w) as [[[] w2]|] eqn:Em; [|discriminate].
  apply make_overlay_trace in Em. destruct Em as (Hc2 & Hgold & pre & Hpre & Hcase).
  destruct (run h _ true true true w2) as [[x w3]|] eqn:Er; [|discriminate].
  pose proof Er as Er'. apply run_checked in Er'.
  destruct Er' as ((out & err & Hex) & Hc3 & Hcmd).
  assert (Hw3 : clock w3 = clock w2 + Z.of_N (latency h (clock w2)
                  (as_run h true (qemu_cmd ifname cpus ram_mb mac
                     (path_join fs (path_join fs base_dir "base") "vars.fd")
                     (p_ov p) (p_pidf p) (p_logf p))))).
  { unfold run in Er. unfold as_run in *. rewrite Hex in Er. cbn in Er.
    inversion Er. reflexivity. }
  destruct (wait_for_pidfile_spec fs (p_pidf p) (clock w3) 51 w3 0
              ltac:(lia) ltac:(lia) ltac:(lia)) as (w4 & E & Hc4 & Hl4 & _).
  rewrite E.
  destruct (path_exists fs (clock w4) (p_pidf p)) eqn:Hpidf; cbn [negb];
    [|discriminate].
  intros Eres. inversion Eres. subst ov pidf logf w4. cbv zeta.
  rewrite <- Hov, <- Hpid.
  repeat split; try assumption.
  - exists (clock w2), out, err. split; [exact Hex|]. split; [exact Hc2|]. lia.
  - exists pre. split; [|rewrite Hov in Hcase; rewrite Hov; exact Hcase].
    rewrite Hl4, Hcmd, Hpre, <- app_assoc. reflexivity.
Qed.

(** X17: when [launch_vm] returns paths, the guest was really started: the
    UEFI code, [vars.fd] and the base image were in place, the QEMU command
    for exactly the returned overlay and PID file was run (behind [sudo]
    unless already root) and exited with status 0, the PID file exists when
    [launch_vm] returns, which is at most five seconds after QEMU returned,
    and nothing was run besides QEMU and, before it, at most the creation of
    the overlay.  The boot timeout passed in plays no part. *)
Theorem launch_vm_success (fs : Files) (h : Host) (base_dir name ifname : string)
  (cpus ram_mb : Z) (mac : string) (timeout_boot : Z) (w w' : World)
  (ov pidf logf : string) :
  launch_vm fs h base_dir name ifname cpus ram_mb mac timeout_boot w
  = Some (Ok (ov, pidf, logf, w')) ->
  let base := path_join fs base_dir "base" in
  let gold := path_join fs base "gold.qcow2" in
  let varsfd := path_join fs base "vars.fd" in
  let cmd := as_run h true (qemu_cmd ifname cpus ram_mb mac varsfd ov pidf logf) in
  pidf = path_join fs (path_join fs base_dir "overlays") (name ++ ".pid")
  /\ ov = path_join fs (path_join fs base_dir "overlays") (name ++ ".qcow2")
  /\ path_exists fs (clock w) codefd = true
  /\ path_exists fs (clock w) varsfd = true
  /\ path_exists fs (clock w) gold = true
  /\ path_exists fs (clock w') pidf = true
  /\ (exists tq out err,
        exec h tq cmd = Exited 0 out err
        /\ clock w <= tq
        /\ tq + Z.of_N (latency h tq cmd) <= clock w'
           <= tq + Z.of_N (latency h tq cmd) + 5000)
  /\ exists pre,
       commands (log w') = (commands (log w) ++ pre ++ [cmd])%list
       /\ (pre = [] \/ pre = [qemu_img_cmd gold ov]).
Proof. exact (launch_vm_trace fs h base_dir name ifname cpus ram_mb mac
               timeout_boot w w' ov pidf logf). Qed.

Lemma launch_vm_success_witness :
  exists w',
    launch_vm lab_files (lab_host "") "/vm" "sC" "en1" 4 4096
              "52:54:00:77:e4:4d" 120 w0
    = Some (Ok ("/vm/overlays/sC.qcow2", "/vm/overlays/sC.pid", "/vm/logs/sC.log", w'))
    /\ clock w' = 300
    /\ path_exists lab_files (clock w') "/vm/overlays/sC.pid" = true.
Proof.
  assert (E : exists w',
             launch_vm lab_files (lab_host "") "/vm" "sC" "en1" 4 4096
                       "52:54:00:77:e4:4d" 120 w0
             = Some (Ok ("/vm/overlays/sC.qcow2", "/vm/overlays/sC.pid",
                         "/vm/logs/sC.log", w'))
             /\ clock w' = 300).
  { eexists. split; vm_compute; reflexivity. }
  destruct E as (w' & E & Hc). exists w'. split; [exact E|]. split; [exact Hc|].
  destruct (launch_vm_success _ _ _ _ _ _ _ _ _ _ _ _ _ _ E)
    as (_ & _ & _ & _ & _ & Hpid & _).
  exact Hpid.
Defined.

(** ** The whole of main *)

(** X18: an address [main] reports belongs to the guest it started: the QEMU
    command carrying the MAC drawn for this name exited with status 0, and
    afterwards a reading of the neighbour cache had a line giving the reported
    address for that very MAC (the one of the [mac] entry); the address is
    dotted digits and the API URL is built from it. *)
Theorem main_reports_the_guest `{RandomSource} (fs : Files) (h : Host)
  (base_dir name ifname : string) (cpus ram_mb timeout : Z) (s0 : rng_state)
  (w w' : World) (info : Info) (ip : string) :
  main_info fs h base_dir name ifname cpus ram_mb timeout s0 w = Some (Ok (info, w')) ->
  info_ip info = Some ip ->
  let mac := fst (gen_mac None (seed name s0)) in
  let varsfd := path_join fs (path_join fs base_dir "base") "vars.fd" in
  let cmd := as_run h true (qemu_cmd ifname cpus ram_mb mac varsfd (info_overlay info)
                                     (info_pidfile info) (info_logfile info)) in
  info_mac info = lower mac
  /\ info_api_url info = Some ("http://" ++ ip ++ ":3080")
  /\ dotted_digits ip = true
  /\ exists tq t line out err,
       exec h tq cmd = Exited 0 out err
       /\ clock w <= tq <= t /\ t <= clock w'
       /\ In line (splitlines (strip (stdout_of (exec h t arp_cmd))))
       /\ entry_with (info_mac info) line ip.
Proof.
  unfold main_info. unfold main_mac. cbv zeta.
  set (mac := fst (gen_mac None (seed name s0))).
  destruct (launch_vm fs h base_dir name ifname cpus ram_mb mac timeout w)
    as [[[[[ov pidf] logf] w1]|]|] eqn:El; try discriminate.
  apply launch_vm_trace in El. cbv zeta in El.
  destruct El as (_ & _ & _ & _ & _ & _ & (tq & out & err & Hex & Htq & Hw1) & _).
  unfold discover.
  destruct (get_if_ip_netmask h ifname w1) as [[[host_ip mask] w1']|] eqn:E1;
    [|discriminate].
  apply get_if_ip_netmask_clock in E1.
  destruct (discovery_loop _ h ifname _ (lower mac) _ _ _ w1')
    as [[[ip_found w2]|]|] eqn:Ed; try discriminate.
  intros E. inversion E. subst info w2. cbn [info_ip info_mac info_api_url
    info_overlay info_pidfile info_logfile]. intros ->.
  apply discovery_loop_found in Ed. destruct Ed as (t & Ht & Hscan).
  pose proof (arp_scan_dotted _ _ _ Hscan) as Hd.
  assert (Hne : ip <> "") by (intros ->; discriminate).
  split; [reflexivity|]. split.
  { destruct ip; [contradiction|reflexivity]. }
  split; [exact Hd|].
  pose proof (arp_scan_first
                (splitlines (strip (stdout_of (exec h t arp_cmd)))) (lower mac))
    as Hspec.
  rewrite Hscan in Hspec.
  destruct Hspec as (before & line & after & Hl & Hm & _).
  pose proof (N2Z.is_nonneg (latency h tq
     (as_run h true (qemu_cmd ifname cpus ram_mb mac
        (path_join fs (path_join fs base_dir "base") "vars.fd") ov pidf logf))))
    as Hlat.
  exists tq, t, line, out, err. split; [exact Hex|]. split; [lia|]. split; [lia|].
  split; [|exact Hm].
  rewrite Hl. apply in_or_app. right. now left.
Qed.

Lemma main_reports_the_guest_witness :
  exists info w',
    @main_info lcg_source lab_files (lab_host guest_cache) "/vm" "sC" "en1" 4 4096 180
               0 w0 = Some (Ok (info, w'))
    /\ info_ip info = Some "10.193.80.108"
    /\ info_pid info = Some "4242"
    /\ info_mac info = "52:54:00:77:e4:4d"
    /\ info_api_url info = Some "http://10.193.80.108:3080".
Proof.
  assert (E : exists info w',
             @main_info lcg_source lab_files (lab_host guest_cache) "/vm" "sC" "en1"
                        4 4096 180 0 w0 = Some (Ok (info, w'))
             /\ info_ip info = Some "10.193.80.108"
             /\ info_pid info = Some "4242"
             /\ info_mac info = "52:54:00:77:e4:4d").
  { eexists. eexists. split; [vm_compute; reflexivity|]. repeat split. }
  destruct E as (info & w' & E & Hip & Hpid & Hmac).
  exists info, w'. split; [exact E|]. split; [exact Hip|]. split; [exact Hpid|].
  split; [exact Hmac|].
  destruct (@main_reports_the_guest lcg_source _ _ _ _ _ _ _ _ _ _ _ _ _ E Hip)
    as (_ & Hurl & _).
  exact Hurl.
Defined.

(** ** spawn_overlays.py: the DNS list *)

Lemma has_char_lstrip (c : ascii) (s : string) :
  has_char c s = false -> has_char c (lstrip s) = false.
Proof.
  induction s as [|x s IH]; cbn [lstrip has_char]; [reflexivity|].
  intros H. destruct (is_space x); [|exact H].
  apply orb_false_elim in H. now apply IH.
Qed.

Lemma has_char_rstrip (c : ascii) (s : string) :
  has_char c s = false -> has_char c (rstrip s) = false.
Proof.
  induction s as [|x s IH]; cbn [rstrip has_char]; [reflexivity|].
  intros H. apply orb_false_elim in H. destruct H as [Hx Hs].
  specialize (IH Hs). destruct (rstrip s) as [|y r].
  - destruct (is_space x); cbn [has_char]; [reflexivity|now rewrite Hx].
  - cbn [has_char] in *. now rewrite Hx, IH.
Qed.

Lemma has_char_strip (c : ascii) (s : string) :
  has_char c s = false -> has_char c (strip s) = false.
Proof. intros H. unfold strip. now apply has_char_rstrip, has_char_lstrip. Qed.

Lemma split_on_parts (sep : ascii) (s : string) :
  Forall (fun x => has_char sep x = false) (split_on sep s).
Proof.
  induction s as [|c s IH]; cbn [split_on].
  - constructor; [reflexivity|constructor].
  - destruct (Ascii.eqb c sep) eqn:Hc.
    + constructor; [reflexivity|exact IH].
    + destruct (split_on sep s) as [|p ps].
      * constructor; [cbn; now rewrite Hc|constructor].
      * inversion IH; subst. constructor; [cbn; now rewrite Hc|assumption].
Qed.

Lemma split_on_join (sep : ascii) (l : list string) :
  l <> [] ->
  Forall (fun x => has_char sep x = false) l ->
  split_on sep (join (String sep "") l) = l.
Proof.
  induction l as [|x l IH]; [contradiction|]. intros _ Hall.
  inversion Hall as [|? ? Hx Hl]; subst.
  destruct l as [|y l].
  - cbn [join]. now apply split_on_no_sep.
  - change (join (String sep "") (x :: y :: l))
      with (x ++ String sep (join (String sep "") (y :: l))).
    rewrite (split_on_app sep x _ Hx). f_equal. apply IH; [discriminate|exact Hl].
Qed.

(** The entries kept by line 211. *)
Lemma dns_entries (dns : string) :
  Forall (fun e => e <> "" /\ strip e = e /\ has_char "," e = false)
         (map strip (filter (fun d => negb (String.eqb (strip d) ""))
                            (split_on "," dns))).
Proof.
  pose proof (split_on_parts "," dns) as Hparts.
  induction (split_on "," dns) as [|d ds IH]; cbn [filter map]; [constructor|].
  inversion Hparts as [|? ? Hd Hds]; subst.
  destruct (String.eqb_spec (strip d) "") as [He|Hne]; cbn [negb].
  - now apply IH.
  - cbn [map]. constructor; [|now apply IH].
    split; [exact Hne|]. split; [apply strip_idem|now apply has_char_strip].
Qed.

Lemma filter_map_clean (l : list string) :
  Forall (fun e => e <> "" /\ strip e = e /\ has_char "," e = false) l ->
  map strip (filter (fun d => negb (String.eqb (strip d) "")) l) = l.
Proof.
  induction 1 as [|e l (Hne & Hs & _) Hl IH]; cbn [filter map]; [reflexivity|].
  rewrite Hs. destruct (String.eqb_spec e "") as [->|_]; [contradiction|].
  cbn [negb map]. now rewrite Hs, IH.
Qed.

(** X21: the DNS list [main] writes into the network configuration is
    normalised: cleaning it a second time changes nothing, and it is either
    empty or made of entries, separated by single commas, none of which is
    empty or has white space around it. *)
Theorem dns_list_clean (dns : string) :
  Overlays.dns_list (Overlays.dns_list dns) = Overlays.dns_list dns
  /\ (Overlays.dns_list dns = ""
      \/ Forall (fun e => e <> "" /\ strip e = e)
                (split_on "," (Overlays.dns_list dns))).
Proof.
  pose proof (dns_entries dns) as Hall.
  assert (E : Overlays.dns_list dns
              = join "," (map strip (filter (fun d => negb (String.eqb (strip d) ""))
                                            (split_on "," dns)))) by reflexivity.
  remember (map strip (filter (fun d => negb (String.eqb (strip d) ""))
                              (split_on "," dns))) as l eqn:El.
  clear El. rewrite E. clear E.
  destruct l as [|x l'].
  - cbn [join]. split; [reflexivity|now left].
  - assert (Hsplit : split_on "," (join "," (x :: l')) = x :: l').
    { apply split_on_join; [discriminate|].
      eapply Forall_impl; [|exact Hall]. cbv beta. intros a (_ & _ & H). exact H. }
    split.
    + unfold Overlays.dns_list. rewrite Hsplit. now rewrite filter_map_clean.
    + right. rewrite Hsplit. eapply Forall_impl; [|exact Hall].
      cbv beta. intros a (H1 & H2 & _). now split.
Qed.

(** ** Addresses of spawn_overlays.py *)

Lemma ip_address_v4 (L : Overlays.IPv6Lib) (text : string) (a : Z) :
  IPv4Address text = Ok a -> Overlays.ip_address L text = Overlays.Done (Overlays.V4 a).
Proof. intros E. unfold Overlays.ip_address. now rewrite E. Qed.

Lemma check_int_address_ok (n : Z) :
  0 <= n <= ALL_ONES -> Overlays.check_int_address n = Ok n.
Proof.
  intros Hn. unfold Overlays.check_int_address.
  destruct (Z.ltb_spec n 0); [lia|]. destruct (Z.ltb_spec ALL_ONES n); [lia|].
  reflexivity.
Qed.

Lemma check_int_address_fails (n : Z) :
  n < 0 \/ ALL_ONES < n ->
  exists msg, Overlays.check_int_address n = Raise (AddressValueError msg).
Proof.
  intros Hn. unfold Overlays.check_int_address.
  destruct (Z.ltb_spec n 0); [eexists; reflexivity|].
  destruct (Z.ltb_spec ALL_ONES n); [eexists; reflexivity|]. lia.
Qed.

(** X19: [ip_next] on an IPv4 address never wraps around: stepping to an
    address within 0.0.0.0 .. 255.255.255.255 gives the text of that address,
    which reads back as it and from which the opposite step leads back to the
    (canonical text of the) start; stepping outside raises. *)
Theorem ip_next_steps (L : Overlays.IPv6Lib) (ip : string) (a step : Z) :
  IPv4Address ip = Ok a ->
  (0 <= a + step <= ALL_ONES ->
   Overlays.ip_next L ip step = Overlays.Done (ip_to_string (a + step))
   /\ IPv4Address (ip_to_string (a + step)) = Ok (a + step)
   /\ Overlays.ip_next L (ip_to_string (a + step)) (- step)
      = Overlays.Done (ip_to_string a))
  /\ (a + step < 0 \/ ALL_ONES < a + step ->
      exists msg,
        Overlays.ip_next L ip step = Overlays.Fail (Overlays.Lib (AddressValueError msg))).
Proof.
  intros Hip. pose proof (IPv4Address_range ip a Hip) as Ha.
  assert (Hall : ALL_ONES = 2 ^ 32 - 1) by reflexivity.
  split.
  - intros Hs.
    assert (Hback : IPv4Address (ip_to_string (a + step)) = Ok (a + step))
      by (apply IPv4Address_ip_to_string; lia).
    split; [|split; [exact Hback|]].
    + unfold Overlays.ip_next. rewrite (ip_address_v4 L ip a Hip).
      cbn [Overlays.addr_add]. rewrite check_int_address_ok by lia. reflexivity.
    + unfold Overlays.ip_next. rewrite (ip_address_v4 L _ _ Hback).
      cbn [Overlays.addr_add]. rewrite check_int_address_ok by lia.
      cbn [Overlays.addr_str]. do 2 f_equal. lia.
  - intros Hs. destruct (check_int_address_fails (a + step) Hs) as (msg & E).
    exists msg. unfold Overlays.ip_next. rewrite (ip_address_v4 L ip a Hip).
    cbn [Overlays.addr_add]. now rewrite E.
Qed.

Lemma ip_next_steps_witness :
  Overlays.ip_next Overlays.no_ipv6 "10.193.80.255" 1 = Overlays.Done "10.193.81.0"
  /\ Overlays.ip_next Overlays.no_ipv6 "10.193.81.0" (- (1)) = Overlays.Done "10.193.80.255"
  /\ exists msg,
       Overlays.ip_next Overlays.no_ipv6 "255.255.255.255" 1
       = Overlays.Fail (Overlays.Lib (AddressValueError msg)).
Proof.
  assert (E1 : IPv4Address "10.193.80.255" = Ok 180441343) by (vm_compute; reflexivity).
  assert (E2 : IPv4Address "255.255.255.255" = Ok 4294967295)
    by (vm_compute; reflexivity).
  destruct (ip_next_steps Overlays.no_ipv6 "10.193.80.255" 180441343 1 E1)
    as (Hfwd & _).
  destruct Hfwd as (F1 & _ & F2); [vm_compute; split; discriminate|].
  destruct (ip_next_steps Overlays.no_ipv6 "255.255.255.255" 4294967295 1 E2)
    as (_ & Hover).
  split; [exact F1|]. split; [exact F2|].
  apply Hover. right. vm_compute. reflexivity.
Defined.

Lemma prefix_text_all :
  forallb (fun p => negb (has_char "/" (str_int p))
                    && match make_netmask (Some (str_int p)) with
                       | Ok (_, q) => q =? p
                       | Raise _ => false
                       end)
          (range 0 33) = true.
Proof. vm_compute. reflexivity. Qed.

Lemma network_of_prefix (start_ip : string) (a p : Z) :
  IPv4Address start_ip = Ok a -> 0 <= p <= 32 ->
  IPv4Network_of (start_ip ++ "/" ++ str_int p) false
  = Ok {| network_address := Z.land a (ip_int_from_prefix p); prefixlen := p |}.
Proof.
  intros Hip Hp.
  pose proof (proj1 (forallb_forall _ _) prefix_text_all p
                (range_In 0 33 p ltac:(lia))) as Hok.
  cbv beta in Hok. apply andb_prop in Hok. destruct Hok as [Hs Hm].
  apply negb_true_iff in Hs.
  destruct (make_netmask (Some (str_int p))) as [[m q]|] eqn:Em; [|discriminate].
  apply Z.eqb_eq in Hm. subst q.
  pose proof (make_netmask_prefix _ _ _ Em) as ->.
  destruct (IPv4Address_inv start_ip a Hip) as (Hno & _).
  apply (IPv4Network_of_parts start_ip (Some (str_int p))); [|exact Hip|exact Em].
  rewrite split_addr_prefix_pair by exact Hno. now rewrite Hs.
Qed.

Lemma range_cons (lo hi : Z) : lo < hi -> range lo hi = lo :: range (lo + 1) hi.
Proof.
  intros H. unfold range.
  replace (Z.to_nat (hi - lo)) with (S (Z.to_nat (hi - (lo + 1)))) by lia.
  cbn [seq map]. f_equal; [lia|].
  rewrite <- seq_shift, map_map. apply map_ext. intros i. lia.
Qed.

(** X20: for an IPv4 start address and a prefix length of 0 to 32, the
    gateway guessed is the network address plus one up to /30, the network
    address itself for a /31, and the start address itself for a /32. *)
Theorem guess_gateway_first_host (L : Overlays.IPv6Lib) (start_ip : string)
  (a p : Z) :
  IPv4Address start_ip = Ok a -> 0 <= p <= 32 ->
  let size := 2 ^ (32 - p) in
  let network := size * (a / size) in
  Overlays.guess_gateway L start_ip p
  = Overlays.Done (ip_to_string (if p <=? 30 then network + 1
                                 else if p =? 31 then network else a)).
Proof.
  intros Hip Hp. cbv zeta.
  pose proof (network_of_prefix start_ip a p Hip Hp) as Hnet.
  assert (Hc : cidr_from_ip_mask start_ip (str_int p)
               = Ok {| network_address := Z.land a (ip_int_from_prefix p);
                       prefixlen := p |}).
  { unfold cidr_from_ip_mask. now rewrite Hnet. }
  destruct (cidr_network_bounds _ _ _ _ Hip Hc) as (_ & Hn & Hb & _).
  cbn [prefixlen] in Hn, Hb. cbv zeta in Hn, Hb.
  unfold Overlays.guess_gateway, Overlays.network_hosts. rewrite Hnet.
  unfold hosts, max_prefixlen. cbn [prefixlen network_address] in *.
  assert (Hpow : 0 < 2 ^ (32 - p)) by (apply Z.pow_pos_nonneg; lia).
  revert Hb. generalize (broadcast_address
    {| network_address := Z.land a (ip_int_from_prefix p); prefixlen := p |}).
  rewrite Hn. clear Hn Hnet Hc.
  remember (2 ^ (32 - p) * (a / 2 ^ (32 - p))) as n eqn:En. intros b Hb.
  destruct (Z.eqb_spec p (32 - 1)) as [E31|N31].
  - destruct (Z.leb_spec p 30); [lia|].
    rewrite range_cons by lia. subst p. reflexivity.
  - destruct (Z.eqb_spec p 32) as [E32|N32].
    + destruct (Z.leb_spec p 30); [lia|]. cbn [map Overlays.addr_str].
      destruct (Z.eqb_spec p 31); [lia|].
      do 2 f_equal. rewrite En. subst p. change (2 ^ (32 - 32)) with 1.
      rewrite Z.div_1_r. lia.
    + destruct (Z.leb_spec p 30); [|lia].
      assert (Hsize : 2 ^ 2 <= 2 ^ (32 - p)) by (apply Z.pow_le_mono_r; lia).
      change (2 ^ 2) with 4 in Hsize.
      rewrite range_cons by lia. reflexivity.
Qed.

Lemma guess_gateway_first_host_witness :
  Overlays.guess_gateway Overlays.no_ipv6 "10.193.80.101" 24 = Overlays.Done "10.193.80.1"
  /\ Overlays.guess_gateway Overlays.no_ipv6 "10.193.80.101" 31
     = Overlays.Done "10.193.80.100"
  /\ Overlays.guess_gateway Overlays.no_ipv6 "10.193.80.101" 32
     = Overlays.Done "10.193.80.101".
Proof.
  assert (E : IPv4Address "10.193.80.101" = Ok 180441189) by (vm_compute; reflexivity).
  split; [|split].
  - rewrite (guess_gateway_first_host Overlays.no_ipv6 _ _ 24 E ltac:(lia)).
    vm_compute. reflexivity.
  - rewrite (guess_gateway_first_host Overlays.no_ipv6 _ _ 31 E ltac:(lia)).
    vm_compute. reflexivity.
  - rewrite (guess_gateway_first_host Overlays.no_ipv6 _ _ 32 E ltac:(lia)).
    vm_compute. reflexivity.
Defined.

(** ** The addresses main hands out *)

Lemma vm_loop_v4 (L : Overlays.IPv6Lib) (disk_of iso_of : Z -> string)
  (steps : Z -> string -> string -> Overlays.outcome string) (name_prefix : string)
  (n : nat) :
  forall (lo c : Z) (rows out : list Overlays.Row),
    Overlays.vm_loop L disk_of iso_of steps name_prefix
                     (range lo (lo + Z.of_nat n)) (Overlays.V4 c) rows
    = Overlays.Done out ->
    0 <= c ->
    c + Z.of_nat n <= (if Nat.eqb n 0 then c else ALL_ONES)
    /\ exists added,
         out = (rows ++ added)%list
         /\ map Overlays.NAME added
            = map (fun i => name_prefix ++ "-" ++ str_int i) (range lo (lo + Z.of_nat n))
         /\ map Overlays.IP added
            = map (fun i => ip_to_string (c + (i - lo))) (range lo (lo + Z.of_nat n))
         /\ Forall (fun r => exists i, steps i (Overlays.NAME r) (Overlays.IP r)
                                      = Overlays.Done (Overlays.PID r)) added.
Proof.
  induction n as [|n IH]; intros lo c rows out E Hc.
  - replace (lo + Z.of_nat 0) with lo in * by lia.
    assert (Hr : range lo lo = []) by (unfold range; now rewrite Z.sub_diag).
    rewrite Hr in *. cbn [Overlays.vm_loop] in E. inversion E. subst out.
    cbn [Nat.eqb]. split; [lia|]. exists []. rewrite app_nil_r.
    repeat split. constructor.
  - rewrite range_cons in * by lia.
    replace (lo + Z.of_nat (S n)) with (lo + 1 + Z.of_nat n) in * by lia.
    cbn [Overlays.vm_loop Overlays.addr_add Overlays.addr_str] in E.
    unfold Overlays.check_int_address in E.
    destruct (Z.ltb_spec (c + 1) 0); [lia|].
    destruct (Z.ltb_spec ALL_ONES (c + 1)) as [|Hin]; [discriminate|].
    destruct (steps lo (name_prefix ++ "-" ++ str_int lo) (ip_to_string c))
      as [pid_value|] eqn:Es; [|discriminate].
    apply IH in E; [|lia]. destruct E as (Hn & added & -> & Hnames & Hips & Hpids).
    cbn [Nat.eqb]. split.
    { destruct (Nat.eqb n 0); lia. }
    eexists (_ :: added). split; [rewrite <- app_assoc; reflexivity|].
    cbn [map Overlays.NAME Overlays.IP]. split; [now rewrite Hnames|]. split.
    + replace (c + (lo - lo)) with c by lia. rewrite Hips. f_equal.
      apply map_ext. intros i. f_equal. lia.
    + constructor; [|exact Hpids]. exists lo. exact Es.
Qed.

Lemma NoDup_map_in {A B : Type} (f : A -> B) (l : list A) :
  (forall x y, In x l -> In y l -> f x = f y -> x = y) ->
  NoDup l -> NoDup (map f l).
Proof.
  induction l as [|a l IH]; intros Hinj Hnd; cbn [map]; [constructor|].
  inversion Hnd as [|? ? Hnotin Hnd']; subst. constructor.
  - intros Hin. apply in_map_iff in Hin. destruct Hin as (y & Hy & Hiny).
    assert (y = a) by (apply Hinj; [now right|now left|exact Hy]).
    subst y. contradiction.
  - apply IH; [|exact Hnd']. intros x y Hx Hy. apply Hinj; now right.
Qed.

Lemma NoDup_range (lo hi : Z) : NoDup (range lo hi).
Proof.
  unfold range. apply NoDup_map_in; [|apply seq_NoDup].
  intros x y _ _ H. lia.
Qed.

(** X22: when the loop of [main] completes for an IPv4 start address, guest
    [i] (from 1) is named prefix-[i] and gets the address start + [i] - 1,
    whatever the prefix length; the addresses are pairwise distinct, the last
    one is below 255.255.255.255, and every recorded PID is what the steps of
    that guest gave for its name and address, with the gateway of the command
    line when there is one. *)
Theorem main_rows_allocation (L : Overlays.IPv6Lib) (disk_of iso_of : Z -> string)
  (steps : string -> string -> Z -> string -> string -> Overlays.outcome string)
  (gateway_arg start_ip : string) (prefix_len : Z) (dns name_prefix : string)
  (count a : Z) (rows : list Overlays.Row) :
  Overlays.main_rows L disk_of iso_of steps gateway_arg start_ip prefix_len dns
                     name_prefix count = Overlays.Done rows ->
  IPv4Address start_ip = Ok a ->
  map Overlays.NAME rows
  = map (fun i => name_prefix ++ "-" ++ str_int i) (range 1 (count + 1))
  /\ map Overlays.IP rows = map (fun i => ip_to_string (a + (i - 1))) (range 1 (count + 1))
  /\ NoDup (map Overlays.IP rows)
  /\ (0 < count -> a + count <= ALL_ONES)
  /\ exists gateway,
       (gateway_arg <> "" -> gateway = gateway_arg)
       /\ Forall (fun r => exists i,
                    steps gateway (Overlays.dns_list dns) i (Overlays.NAME r)
                          (Overlays.IP r) = Overlays.Done (Overlays.PID r)) rows.
Proof.
  intros E Hip. unfold Overlays.main_rows in E.
  pose proof (IPv4Address_range start_ip a Hip) as Ha.
  assert (Hall : ALL_ONES = 2 ^ 32 - 1) by reflexivity.
  set (g := match gateway_arg with
            | "" => Overlays.guess_gateway L start_ip prefix_len
            | String _ _ => Overlays.Done gateway_arg
            end) in E.
  destruct g as [gateway|] eqn:Eg; [|discriminate].
  rewrite (ip_address_v4 L start_ip a Hip) in E.
  assert (Hr : range 1 (count + 1) = range 1 (1 + Z.of_nat (Z.to_nat count))).
  { unfold range. do 2 f_equal. lia. }
  rewrite Hr in *. apply vm_loop_v4 in E; [|lia].
  destruct E as (Hn & added & -> & Hnames & Hips & Hpids). cbn [app].
  assert (Hcount : 0 < count -> a + count <= ALL_ONES).
  { intros Hpos. destruct (Z.to_nat count) eqn:Ec; [lia|]. cbn [Nat.eqb] in Hn. lia. }
  split; [exact Hnames|]. split; [exact Hips|]. split; [|split; [exact Hcount|]].
  - rewrite Hips. apply NoDup_map_in; [|apply NoDup_range].
    intros i j Hi Hj Heq. apply In_range in Hi, Hj.
    assert (Hpos : 0 < count) by lia. specialize (Hcount Hpos).
    pose proof (IPv4Address_ip_to_string (a + (i - 1)) ltac:(lia)) as Ei.
    pose proof (IPv4Address_ip_to_string (a + (j - 1)) ltac:(lia)) as Ej.
    rewrite Heq in Ei. rewrite Ei in Ej. inversion Ej. lia.
  - exists gateway. split; [|exact Hpids].
    intros Hne. subst g. destruct gateway_arg; [contradiction|]. now inversion Eg.
Qed.

Lemma main_rows_allocation_witness :
  exists rows,
    Overlays.main_rows Overlays.no_ipv6 (fun i => "root-" ++ str_int i ++ ".qcow2")
      (fun i => "seed-" ++ str_int i ++ ".iso")
      (fun _ _ _ _ _ => Overlays.Done "") "10.193.80.64" "10.193.80.254" 24
      "10.193.80.64,8.8.8.8" "overlay" 3 = Overlays.Done rows
    /\ map Overlays.NAME rows = ["overlay-1"; "overlay-2"; "overlay-3"]
    /\ map Overlays.IP rows = ["10.193.80.254"; "10.193.80.255"; "10.193.81.0"]
    /\ NoDup (map Overlays.IP rows).
Proof.
  eexists. split; [vm_compute; reflexivity|].
  split; [reflexivity|]. split; [reflexivity|].
  assert (E : IPv4Address "10.193.80.254" = Ok 180441342) by (vm_compute; reflexivity).
  refine (proj1 (proj2 (proj2 (main_rows_allocation Overlays.no_ipv6
            (fun i => "root-" ++ str_int i ++ ".qcow2")
            (fun i => "seed-" ++ str_int i ++ ".iso")
            (fun _ _ _ _ _ => Overlays.Done "") "10.193.80.64" "10.193.80.254" 24
            "10.193.80.64,8.8.8.8" "overlay" 3 180441342 _ _ E)))).
  vm_compute. reflexivity.
Defined.
